(** * gototheMoon: the backtesting core

    A shallow embedding of [src/trade_logic/simple_ma.py] (the moving-average
    crossover signal generator) and of [src/core/backtest.py] (the day-by-day
    portfolio simulator and its performance report), with the properties of
    the specification stated and settled against them, followed by
    [DataProvider.get_data] of [src/data_collection/provider.py] and further
    properties of all three.

    Numeric conventions.  Python floats and numpy float64 values are
    idealised as exact rationals ([Q], compared with [==]); the special
    values a float division can produce (infinities and NaN) are modelled
    explicitly where the code can produce them.  Share counts are Python
    ints ([Z]).  Dates are day ordinals ([Z]), so that a difference of dates
    is a number of days. *)

From Stdlib Require Import QArith Qround Lqa.
From stdpp Require Import gmap strings list sorting.

Abbreviation date := Z (only parsing).
Abbreviation ticker := string (only parsing).

Inductive Signal := BUY | SELL | HOLD.

#[global] Instance Signal_eq_dec : EqDecision Signal.
Proof. solve_decision. Defined.

(** A per-ticker [DataFrame]: the rows in file order, each with its index
    (the date) and its [Close] column, the only column the core reads. *)
Abbreviation DataFrame := (list (date * Q)) (only parsing).

Definition index (df : DataFrame) : list date := map fst df.
Definition Close (df : DataFrame) : list Q := map snd df.

(** [df.loc[d]['Close']] and [d in df.index]. *)
Fixpoint loc (df : DataFrame) (d : date) : option Q :=
  match df with
  | [] => None
  | (d', c) :: rest => if Z.eqb d' d then Some c else loc rest d
  end.

Definition Qsum (xs : list Q) : Q := foldr Qplus 0%Q xs.

(** ** [src/trade_logic/simple_ma.py] *)
Module SimpleMA.

Record SimpleMAStrategy := {
  short_window : nat;
  long_window : nat
}.

(** [__init__]: raises [ValueError] when [short_window >= long_window]. *)
Definition init (short long : nat) : option SimpleMAStrategy :=
  if (long <=? short)%nat then None
  else Some {| short_window := short; long_window := long |}.

(** One cell of [rolling(window=w, min_periods=w).mean()]: undefined (NaN,
    here [None]) until [w] trailing observations exist, and for an empty
    window. *)
Definition window_mean (w : nat) (xs : list Q) (i : nat) : option Q :=
  if ((0 <? w)%nat && (w <=? S i)%nat)%bool
  then Some (Qsum (take w (drop (S i - w) xs)) / inject_Z (Z.of_nat w))%Q
  else None.

Definition rolling_mean (w : nat) (xs : list Q) : list (option Q) :=
  map (window_mean w xs) (seq 0 (length xs)).

(** [np.sign] of a finite value. *)
Definition sign (q : Q) : Z := Z.sgn (Qnum q).

(** Column arithmetic: any NaN operand gives NaN. *)
Definition col_sub (a b : list (option Q)) : list (option Q) :=
  zip_with (fun x y => match x, y with
                       | Some u, Some v => Some (u - v)%Q
                       | _, _ => None
                       end) a b.

Definition col_sign (a : list (option Q)) : list (option Z) :=
  map (fmap sign) a.

(** [Series.diff()]: each row minus the previous one; the first row has
    no predecessor. *)
Definition diff (a : list (option Z)) : list (option Z) :=
  zip_with (fun cur prev => match cur, prev with
                            | Some u, Some v => Some (u - v)%Z
                            | _, _ => None
                            end) a (None :: a).

(** The two masked assignments over a column initialised to ['HOLD']. *)
Definition signal_of (v : option Z) : Signal :=
  if decide (v = Some (-2)%Z) then SELL
  else if decide (v = Some 2%Z) then BUY
  else HOLD.

Definition position (s : SimpleMAStrategy) (closes : list Q) : list (option Z) :=
  col_sign (col_sub (rolling_mean (short_window s) closes)
                    (rolling_mean (long_window s) closes)).

(** [generate_signals]: a Series of signals over the index of [data]. *)
Definition generate_signals (s : SimpleMAStrategy) (data : DataFrame)
  : list (date * Signal) :=
  if (length data <? long_window s)%nat
  then map (fun r => (r.1, HOLD)) data
  else zip (index data) (map signal_of (diff (position s (Close data)))).

(** The position on row [i], read off the two averages of that row. *)
Definition position_at (s : SimpleMAStrategy) (closes : list Q) (i : nat)
  : option Z :=
  match window_mean (short_window s) closes i,
        window_mean (long_window s) closes i with
  | Some a, Some b => Some (sign (a - b))
  | _, _ => None
  end.

(** The day-over-day change of the position on row [i]; undefined on the
    first row and whenever either position is. *)
Definition change_at (s : SimpleMAStrategy) (closes : list Q) (i : nat)
  : option Z :=
  match i with
  | O => None
  | S j => match position_at s closes (S j), position_at s closes j with
           | Some u, Some v => Some (u - v)%Z
           | _, _ => None
           end
  end.

End SimpleMA.

(** ** Floats with their special values, and exceptions *)

(** The comparison [x < y] of two finite floats. *)
Definition Qltb (x y : Q) : bool := if Qlt_le_dec x y then true else false.

(** The value of a float expression that may divide by zero: a finite
    number, an infinity or NaN. *)
Inductive float := Fin (q : Q) | PosInf | NegInf | NaN.

(** [x / y] on float64 operands where numpy does the division: a zero
    divisor gives an infinity or NaN (and a warning), never an exception. *)
Definition fdiv (x y : Q) : float :=
  if Qeq_dec y 0 then
    if Qeq_dec x 0 then NaN
    else if Qlt_le_dec 0 x then PosInf else NegInf
  else Fin (x / y).

(** Multiplication and addition of a float by a finite constant. *)
Definition fscale (k : Q) (f : float) : float :=
  match f with
  | Fin q => Fin (q * k)
  | PosInf => if Qlt_le_dec 0 k then PosInf
              else if Qeq_dec k 0 then NaN else NegInf
  | NegInf => if Qlt_le_dec 0 k then NegInf
              else if Qeq_dec k 0 then NaN else PosInf
  | NaN => NaN
  end.

Definition fshift (k : Q) (f : float) : float :=
  match f with
  | Fin q => Fin (q + k)
  | other => other
  end.

Inductive exn := KeyError | OverflowError | ValueError.

Inductive result (A : Type) := Ok (a : A) | Raise (e : exn).
Arguments Ok {A} a.
Arguments Raise {A} e.

#[global] Instance result_ret : MRet result := fun A a => Ok a.
#[global] Instance result_bind : MBind result := fun A B f m =>
  match m with
  | Ok a => f a
  | Raise e => Raise e
  end.

(** A [for] loop threading its state, stopped by the first exception. *)
Fixpoint foldM {A B : Type} (f : B -> A -> result B) (b : B) (l : list A)
  : result B :=
  match l with
  | [] => Ok b
  | a :: rest => b' ← f b a; foldM f b' rest
  end.

(** [int(f)]: truncation toward zero; [int(inf)] raises [OverflowError]
    and [int(nan)] raises [ValueError]. *)
Definition int (f : float) : result Z :=
  match f with
  | Fin q => Ok (Z.quot (Qnum q) (Zpos (Qden q)))
  | PosInf | NegInf => Raise OverflowError
  | NaN => Raise ValueError
  end.

(** [d[k]] on a dict: [KeyError] when the key is absent. *)
Definition getitem {V : Type} (m : gmap ticker V) (k : ticker) : result V :=
  match m !! k with
  | Some v => Ok v
  | None => Raise KeyError
  end.

(** [Series.get(d, default)]. *)
Fixpoint series_get {A : Type} (s : list (date * A)) (d : date) (default : A) : A :=
  match s with
  | [] => default
  | (d', a) :: rest => if Z.eqb d' d then a else series_get rest d default
  end.

(** ** [src/core/backtest.py] *)
Module Backtest.

(** One entry of [self.portfolio]. *)
Record Position := {
  shares : Z;
  value : Q
}.

(** One entry of [self.trade_log], kept as the fields the log line is
    formatted from. *)
Inductive Side := BOUGHT | SOLD.

Record Trade := {
  trade_date : date;
  trade_side : Side;
  trade_shares : Z;
  trade_ticker : ticker;
  trade_price : Q
}.

(** The strategy collaborator: anything with a [generate_signals]. *)
Record Strategy := {
  generate_signals : DataFrame -> list (date * Signal)
}.

Definition simple_ma (s : SimpleMA.SimpleMAStrategy) : Strategy :=
  {| generate_signals := SimpleMA.generate_signals s |}.

(** The constructor arguments, which [run] only reads.  The data provider
    is its [get_data] method. *)
Record Config := {
  data_provider : list ticker -> date -> date -> gmap ticker DataFrame;
  strategy : Strategy;
  tickers : list ticker;
  start_date : date;
  end_date : date;
  initial_capital : Q
}.

(** The attributes [run] mutates. *)
Record State := {
  cash : Q;
  portfolio : gmap ticker Position;
  trade_log : list Trade;
  portfolio_history : list (date * Q)
}.

(** [__init__]. *)
Definition init (cfg : Config) : State :=
  {| cash := initial_capital cfg;
     portfolio := foldl (fun m t => <[t := {| shares := 0; value := 0 |}]> m)
                        ∅ (tickers cfg);
     trade_log := [];
     portfolio_history := [] |}.

Definition set_cash (c : Q) (st : State) : State :=
  {| cash := c; portfolio := portfolio st;
     trade_log := trade_log st; portfolio_history := portfolio_history st |}.

Definition set_position (t : ticker) (p : Position) (st : State) : State :=
  {| cash := cash st; portfolio := <[t := p]> (portfolio st);
     trade_log := trade_log st; portfolio_history := portfolio_history st |}.

Definition log_trade (tr : Trade) (st : State) : State :=
  {| cash := cash st; portfolio := portfolio st;
     trade_log := trade_log st ++ [tr];
     portfolio_history := portfolio_history st |}.

Definition record_snapshot (d : date) (v : Q) (st : State) : State :=
  {| cash := cash st; portfolio := portfolio st;
     trade_log := trade_log st;
     portfolio_history := portfolio_history st ++ [(d, v)] |}.

(** Lines 69-83: the trade rule for one ticker on one date. *)
Definition execute_trade (signal : Signal) (current_price : Q) (d : date)
    (t : ticker) (st : State) : result State :=
  if (bool_decide (signal = BUY) && Qltb current_price (cash st))%bool
  then
    let investment_amount := (cash st * (1 # 10))%Q in
    shares_to_buy ← int (fdiv investment_amount current_price);
    if (0 <? shares_to_buy)%Z then
      let cost := (inject_Z shares_to_buy * current_price)%Q in
      pos ← getitem (portfolio st) t;
      Ok (log_trade {| trade_date := d; trade_side := BOUGHT;
                       trade_shares := shares_to_buy; trade_ticker := t;
                       trade_price := current_price |}
            (set_position t {| shares := shares pos + shares_to_buy;
                               value := value pos |}
               (set_cash (cash st - cost)%Q st)))
    else Ok st
  else if bool_decide (signal = SELL) then
    pos ← getitem (portfolio st) t;
    if (0 <? shares pos)%Z then
      let shares_to_sell := shares pos in
      let revenue := (inject_Z shares_to_sell * current_price)%Q in
      Ok (log_trade {| trade_date := d; trade_side := SOLD;
                       trade_shares := shares_to_sell; trade_ticker := t;
                       trade_price := current_price |}
            (set_position t {| shares := 0; value := value pos |}
               (set_cash (cash st + revenue)%Q st)))
    else Ok st
  else Ok st.

(** Lines 58-83: the body of the ticker loop.  The accumulator pairs the
    instance state with the local [portfolio_value]. *)
Definition visit (all_data : gmap ticker DataFrame)
    (all_signals : gmap ticker (list (date * Signal))) (d : date)
    (acc : State * Q) (t : ticker) : result (State * Q) :=
  match all_data !! t with
  | None => Ok acc
  | Some df =>
    match loc df d with
    | None => Ok acc
    | Some current_price =>
      pos ← getitem (portfolio acc.1) t;
      let portfolio_value := (acc.2 + inject_Z (shares pos) * current_price)%Q in
      let st := set_position t
                  {| shares := shares pos;
                     value := (inject_Z (shares pos) * current_price)%Q |} acc.1 in
      sigs ← getitem all_signals t;
      let signal := series_get sigs d HOLD in
      st' ← execute_trade signal current_price d t st;
      Ok (st', portfolio_value)
    end
  end.

(** Lines 54-85: one iteration of the main simulation loop. *)
Definition process_date (all_data : gmap ticker DataFrame)
    (all_signals : gmap ticker (list (date * Signal))) (tks : list ticker)
    (st : State) (d : date) : result State :=
  acc ← foldM (visit all_data all_signals d) (st, cash st) tks;
  Ok (record_snapshot d acc.2 acc.1).

(** Lines 44-47. *)
Definition precalculate_signals (strat : Strategy)
    (all_data : gmap ticker DataFrame) (tks : list ticker)
  : gmap ticker (list (date * Signal)) :=
  foldl (fun sigs t =>
           match all_data !! t with
           | Some (r :: rows) => <[t := generate_signals strat (r :: rows)]> sigs
           | _ => sigs
           end) ∅ tks.

(** Lines 50-51. *)
Definition unified_dates (all_data : gmap ticker DataFrame) : list date :=
  merge_sort Z.le
    (elements (⋃ (map (fun kv => list_to_set (index kv.2))
                      (map_to_list all_data)) : gset date)).

Definition sim_dates (cfg : Config) (all_data : gmap ticker DataFrame) : list date :=
  filter (fun d => (start_date cfg <= d)%Z ∧ (d <= end_date cfg)%Z)
         (unified_dates all_data).

(** *** [_calculate_performance_metrics] *)

(** [Series.cummax()]. *)
Fixpoint cummax_from (m : Q) (vs : list Q) : list Q :=
  match vs with
  | [] => []
  | v :: rest => let m' := if Qltb m v then v else m in m' :: cummax_from m' rest
  end.

Definition cummax (vs : list Q) : list Q :=
  match vs with
  | [] => []
  | v :: rest => v :: cummax_from v rest
  end.

(** [(value - peak) / peak], row by row. *)
Definition drawdown (vs : list Q) : list float :=
  zip_with (fun v p => fdiv (v - p)%Q p) vs (cummax vs).

(** [a <= b] on floats that are not NaN. *)
Definition fle (a b : float) : bool :=
  match a, b with
  | NaN, _ | _, NaN => false
  | NegInf, _ | _, PosInf => true
  | Fin x, Fin y => Qle_bool x y
  | _, _ => false
  end.

(** [Series.min()], which skips NaN and is NaN on an all-NaN column. *)
Definition fmin_skipna (l : list float) : float :=
  foldl (fun m x => match x, m with
                    | NaN, _ => m
                    | _, NaN => x
                    | _, _ => if fle m x then m else x
                    end) NaN l.

(** [Series.pct_change()]: each row over the previous one, minus one. *)
Definition pct_change (vs : list Q) : list float :=
  zip_with (fun cur prev => match prev with
                            | Some p => fshift (-1) (fdiv cur p)
                            | None => NaN
                            end) vs (None :: map Some vs).

(** The observations [mean()] and [std()] work on: NaN rows are skipped;
    an infinite row makes both statistics NaN or infinite ([None]). *)
Fixpoint observations (rs : list float) : option (list Q) :=
  match rs with
  | [] => Some []
  | NaN :: rest => observations rest
  | Fin q :: rest => qs ← observations rest; Some (q :: qs)
  | _ :: rest => None
  end.

Definition mean (qs : list Q) : Q :=
  (Qsum qs / inject_Z (Z.of_nat (length qs)))%Q.

(** The sample variance (one delta degree of freedom), the square of
    [std()]; undefined (NaN) below two observations. *)
Definition variance (qs : list Q) : option Q :=
  if (length qs <=? 1)%nat then None
  else Some (Qsum (map (fun x => (x - mean qs) * (x - mean qs))%Q qs)
             / inject_Z (Z.of_nat (length qs - 1)))%Q.

(** The annualized return, whose power is left unevaluated:
    [Ann_power tr y] stands for [((1 + tr / 100) ** (1 / y) - 1) * 100]. *)
Inductive Annualized :=
| Ann_zero
| Ann_power (total_return_pct : float) (num_years : Q).

(** The Sharpe ratio, whose square roots are left unevaluated:
    [Sharpe_ratio m v] stands for [m / sqrt v * sqrt 252]. *)
Inductive Sharpe :=
| Sharpe_zero
| Sharpe_ratio (mean_return : Q) (variance_return : Q).

(** The square of [daily_return.std()]; [None] when it is NaN. *)
Definition std_squared (daily_return : list float) : option Q :=
  qs ← observations daily_return; variance qs.

(** Lines 115-118.  [std() > 0] holds exactly when the variance is defined
    and positive; the mean is then the mean of finite observations. *)
Definition sharpe_of (daily_return : list float) : Sharpe :=
  match std_squared daily_return with
  | Some v =>
    if Qltb 0 v
    then Sharpe_ratio (mean (default [] (observations daily_return))) v
    else Sharpe_zero
  | None => Sharpe_zero
  end.

(** Lines 104-105. *)
Definition num_years (first_date last_date : date) : Q :=
  let num_days := (last_date - first_date)%Z in
  (inject_Z num_days / (36525 # 100))%Q.

(** Line 106. *)
Definition annualized (total_return : float) (years : Q) : Annualized :=
  if Qltb 0 years then Ann_power total_return years else Ann_zero.

Record Report := {
  total_return_pct : float;
  annualized_return_pct : Annualized;
  max_drawdown_pct : float;
  sharpe_ratio : Sharpe;
  report_start_date : date;
  report_end_date : date;
  report_initial_capital : Q;
  final_portfolio_value : Q;
  total_trades : nat
}.

(** What [run] returns: [None], the error dict, or the report with the
    value history and the trade log. *)
Inductive Output :=
| ret_None
| ret_error
| ret_report (performance_summary : Report) (history : list (date * Q))
             (log : list Trade).

Definition calculate_performance_metrics (cfg : Config) (st : State) : Output :=
  match portfolio_history st, last (portfolio_history st) with
  | (first_date, _) :: _, Some (last_date, final_value) =>
    let values := map snd (portfolio_history st) in
    let total_return :=
      fscale 100 (fdiv (final_value - initial_capital cfg)%Q (initial_capital cfg)) in
    ret_report
      {| total_return_pct := total_return;
         annualized_return_pct :=
           annualized total_return (num_years first_date last_date);
         max_drawdown_pct := fscale 100 (fmin_skipna (drawdown values));
         sharpe_ratio := sharpe_of (pct_change values);
         report_start_date := start_date cfg;
         report_end_date := end_date cfg;
         report_initial_capital := initial_capital cfg;
         final_portfolio_value := final_value;
         total_trades := length (trade_log st) |}
      (portfolio_history st) (trade_log st)
  | _, _ => ret_error
  end.

(** [run]: the state it leaves on the instance and the value it returns. *)
Definition run (cfg : Config) (st : State) : result (State * Output) :=
  let all_data := data_provider cfg (tickers cfg) (start_date cfg) (end_date cfg) in
  if decide (dom all_data = ∅) then Ok (st, ret_None)
  else
    let all_signals := precalculate_signals (strategy cfg) all_data (tickers cfg) in
    st' ← foldM (process_date all_data all_signals (tickers cfg)) st
                (sim_dates cfg all_data);
    Ok (st', calculate_performance_metrics cfg st').

(** *** Vocabulary of the properties *)

(** The close of ticker [t] on date [d], when it has a row there. *)
Definition close_on (all_data : gmap ticker DataFrame) (t : ticker) (d : date)
  : option Q :=
  df ← all_data !! t; loc df d.

Definition shares_of (st : State) (t : ticker) : Z :=
  default 0%Z (shares <$> portfolio st !! t).

Definition market_value_of (st : State) (t : ticker) : Q :=
  default 0%Q (value <$> portfolio st !! t).

(** Shares held times the close of the date, summed over the tickers that
    have a row on that date. *)
Definition holdings_value (all_data : gmap ticker DataFrame)
    (tks : list ticker) (d : date) (st : State) : Q :=
  Qsum (map (fun t => match close_on all_data t d with
                      | Some p => (inject_Z (shares_of st t) * p)%Q
                      | None => 0%Q
                      end) tks).

(** The stored market values, summed over the same tickers. *)
Definition marked_value (all_data : gmap ticker DataFrame)
    (tks : list ticker) (d : date) (st : State) : Q :=
  Qsum (map (fun t => match close_on all_data t d with
                      | Some _ => market_value_of st t
                      | None => 0%Q
                      end) tks).

(** The state after buying [n] shares of [t] at [price] on [d], and after
    selling the whole position [pos]. *)
Definition bought (d : date) (t : ticker) (price : Q) (n : Z) (pos : Position)
    (st : State) : State :=
  {| cash := (cash st - inject_Z n * price)%Q;
     portfolio := <[t := {| shares := shares pos + n; value := value pos |}]>
                    (portfolio st);
     trade_log := trade_log st ++
                  [{| trade_date := d; trade_side := BOUGHT; trade_shares := n;
                      trade_ticker := t; trade_price := price |}];
     portfolio_history := portfolio_history st |}.

Definition sold (d : date) (t : ticker) (price : Q) (pos : Position)
    (st : State) : State :=
  {| cash := (cash st + inject_Z (shares pos) * price)%Q;
     portfolio := <[t := {| shares := 0; value := value pos |}]> (portfolio st);
     trade_log := trade_log st ++
                  [{| trade_date := d; trade_side := SOLD;
                      trade_shares := shares pos;
                      trade_ticker := t; trade_price := price |}];
     portfolio_history := portfolio_history st |}.

(** The mark-to-market of line 63, done before the trade rule. *)
Definition revalued (t : ticker) (price : Q) (pos : Position) (st : State) : State :=
  set_position t {| shares := shares pos;
                    value := (inject_Z (shares pos) * price)%Q |} st.

(** The data [run] fetches, the body of its date loop and the dates it
    simulates (none when it returns before the loop). *)
Definition fetched (cfg : Config) : gmap ticker DataFrame :=
  data_provider cfg (tickers cfg) (start_date cfg) (end_date cfg).

Definition day_step (cfg : Config) : State -> date -> result State :=
  process_date (fetched cfg)
    (precalculate_signals (strategy cfg) (fetched cfg) (tickers cfg))
    (tickers cfg).

Definition simulated_dates (cfg : Config) : list date :=
  if decide (dom (fetched cfg) = ∅) then [] else sim_dates cfg (fetched cfg).

(** No share count is negative. *)
Definition shares_nonneg (st : State) : Prop :=
  forall t pos, portfolio st !! t = Some pos -> (0 <= shares pos)%Z.

(** Neither the cash nor any share count is negative. *)
Definition solvent (st : State) : Prop :=
  (0 <= cash st)%Q /\ shares_nonneg st.

Definition nonneg_prices (all_data : gmap ticker DataFrame) : Prop :=
  forall t d p, close_on all_data t d = Some p -> (0 <= p)%Q.

(** The states the instance goes through, one per simulated date, up to
    the first exception. *)
Fixpoint states_after (step : State -> date -> result State) (st : State)
    (ds : list date) : list State :=
  match ds with
  | [] => []
  | d :: rest =>
    match step st d with
    | Ok st' => st' :: states_after step st' rest
    | Raise _ => []
    end
  end.

(** The total value the specification gives a snapshot: the cash plus,
    for every ticker, its shares times its close of that date. *)
Definition total_value_of (all_data : gmap ticker DataFrame)
    (tks : list ticker) (d : date) (st : State) (v : Q) : Prop :=
  exists close : ticker -> Q,
    (forall t, t ∈ tks -> close_on all_data t d = Some (close t)) /\
    (v == cash st + Qsum (map (fun t => inject_Z (shares_of st t) * close t) tks))%Q.

(** Every snapshot of a run is the total value of the state its date
    leaves. *)
Definition snapshots_are_total_values (cfg : Config) (st : State) : Prop :=
  forall st' out,
    run cfg st = Ok (st', out) ->
    exists snaps,
      portfolio_history st' = portfolio_history st ++ snaps /\
      Forall2 (fun snap s =>
                 total_value_of (fetched cfg) (tickers cfg) snap.1 s snap.2)
              snaps (states_after (day_step cfg) st (simulated_dates cfg)).

(** A second [run] on the instance returns what a first [run] on a fresh
    instance does. *)
Definition rerun_is_fresh_run (cfg : Config) : Prop :=
  forall st1 out1,
    run cfg (init cfg) = Ok (st1, out1) ->
    exists st2, run cfg st1 = Ok (st2, out1).

(** The BUY rule as the specification states it, for the visit of ticker
    [t] on date [d] from state [st]: with a BUY signal and the cash above
    the close [p], the visit returns, having debited
    [floor(0.1 * cash / p)] times [p], credited that many shares and
    appended one BUY record, or nothing when that number is zero. *)
Definition buys_tenth_of_cash (all_data : gmap ticker DataFrame)
    (sigs : gmap ticker (list (date * Signal))) (d : date) (t : ticker)
    (st : State) (pv : Q) : Prop :=
  forall p pos sigs_t,
    close_on all_data t d = Some p ->
    portfolio st !! t = Some pos ->
    sigs !! t = Some sigs_t ->
    series_get sigs_t d HOLD = BUY ->
    (p < cash st)%Q ->
    let shares_to_buy := Qfloor (cash st * (1 # 10) / p) in
    exists after pv',
      visit all_data sigs d (st, pv) t = Ok (after, pv') /\
      (cash after == cash st - inject_Z shares_to_buy * p)%Q /\
      shares_of after t = (shares pos + shares_to_buy)%Z /\
      trade_log after =
        trade_log st ++
        (if (shares_to_buy =? 0)%Z then []
         else [{| trade_date := d; trade_side := BOUGHT;
                  trade_shares := shares_to_buy; trade_ticker := t;
                  trade_price := p |}]).

(** [run] returned no report: [None] or the error dict. *)
Definition no_result (out : Output) : Prop :=
  out = ret_None \/ out = ret_error.

End Backtest.

(** ** Concrete runs *)
Module Scenario.
Import Backtest.

(** A 1-day/2-day crossover: the position is the sign of the last move. *)
Definition fast : SimpleMA.SimpleMAStrategy :=
  {| SimpleMA.short_window := 1; SimpleMA.long_window := 2 |}.

(** Down, up, down: BUY on day 3, SELL on day 4. *)
Definition zigzag : DataFrame :=
  [(1%Z, 10%Q); (2%Z, 9%Q); (3%Z, 10%Q); (4%Z, 9%Q)].

Definition flat : DataFrame :=
  [(1%Z, 5%Q); (2%Z, 5%Q); (3%Z, 5%Q); (4%Z, 5%Q)].

(** The same moves as [zigzag], with no row on day 4. *)
Definition short_series : DataFrame :=
  [(1%Z, 10%Q); (2%Z, 9%Q); (3%Z, 10%Q)].

Definition config_of (data : gmap ticker DataFrame) (tks : list ticker) : Config :=
  {| data_provider := fun _ _ _ => data;
     strategy := simple_ma fast;
     tickers := tks;
     start_date := 1%Z;
     end_date := 4%Z;
     initial_capital := 1000%Q |}.

(** One ticker with a row on every date. *)
Definition single : Config :=
  config_of {[ "A"%string := zigzag ]} ["A"%string].

(** Two tickers; ["B"] is bought on day 3 and has no row on day 4. *)
Definition gap : Config :=
  config_of {[ "A"%string := flat; "B"%string := short_series ]}
            ["A"%string; "B"%string].

(** Two tickers that are both bought on day 3. *)
Definition pair : Config :=
  config_of {[ "A"%string := zigzag; "B"%string := short_series ]}
            ["A"%string; "B"%string].

(** A provider with no data at all, and one whose only ticker has no row. *)
Definition nothing : Config := config_of ∅ ["A"%string].

Definition no_rows : Config := config_of {[ "A"%string := [] ]} ["A"%string].

(** The precalculated signals of a configuration. *)
Definition signals (cfg : Config) : gmap ticker (list (date * Signal)) :=
  precalculate_signals (strategy cfg) (fetched cfg) (tickers cfg).

Definition empty_position : Position := {| shares := 0; value := 0 |}.

(** [single] and [gap] once ten shares have been bought on day 3, and
    [single] once one snapshot has been recorded. *)
Definition holding_A : State :=
  bought 3 "A" 10 10 empty_position (init single).

Definition holding_B : State :=
  bought 3 "B" 10 10 empty_position (init gap).

Definition one_snapshot : State := record_snapshot 1 1000 (init single).

End Scenario.

(** ** Frames as the provider delivers them *)
Module Frames.

(** No frame lists a date twice.  On a repeated date [df.loc[d]] is several
    rows, [df.loc[d]['Close']] a [Series], and the comparison of line 69 of
    [backtest.py] raises; [loc] and [close_on] read a frame under this condition. *)
Definition distinct_dates (all_data : gmap ticker DataFrame) : Prop :=
  map_Forall (fun _ df => NoDup (index df)) all_data.

End Frames.

(** ** Reading the trade log *)
Module Ledger.
Import Backtest.

(** The cash a trade moves: out for a purchase, in for a sale. *)
Definition trade_cash (tr : Trade) : Q :=
  match trade_side tr with
  | BOUGHT => (- (inject_Z (trade_shares tr) * trade_price tr))%Q
  | SOLD => (inject_Z (trade_shares tr) * trade_price tr)%Q
  end.

(** The shares of [t] a trade moves. *)
Definition trade_delta (t : ticker) (tr : Trade) : Z :=
  if decide (trade_ticker tr = t) then
    match trade_side tr with
    | BOUGHT => trade_shares tr
    | SOLD => (- trade_shares tr)%Z
    end
  else 0%Z.

Definition cash_flow (log : list Trade) : Q := Qsum (map trade_cash log).

Definition net_shares (t : ticker) (log : list Trade) : Z :=
  foldr Z.add 0%Z (map (trade_delta t) log).

(** [st'] is [st] after the trades [new], each of which satisfies [P]. *)
Definition accounted (P : Trade -> Prop) (new : list Trade) (st st' : State)
  : Prop :=
  trade_log st' = trade_log st ++ new /\
  Forall P new /\
  (cash st' == cash st + cash_flow new)%Q /\
  forall t, shares_of st' t = (shares_of st t + net_shares t new)%Z.

End Ledger.

(** ** [src/data_collection/provider.py] *)
Module Provider.

(** The CSV as [_load_data] leaves it: the [Date] index and the named
    columns, each as long as the index, under the distinct names
    [read_csv] gives them. *)
Record Table := {
  tb_index : list date;
  tb_columns : list (string * list Q)
}.

(** [DataFrame.empty]: no row or no column. *)
Definition is_empty (tb : Table) : bool :=
  match tb_index tb, tb_columns tb with
  | [], _ | _, [] => true
  | _, _ => false
  end.

(** [col.startswith(ticker)]. *)
Definition startswith (col ticker : string) : bool := String.prefix ticker col.

(** [s.split(sep)] for a one-character separator. *)
Fixpoint split (sep : Ascii.ascii) (s : string) : list string :=
  match s with
  | EmptyString => [EmptyString]
  | String c rest =>
    if Ascii.eqb c sep then EmptyString :: split sep rest
    else match split sep rest with
         | part :: parts => String c part :: parts
         | [] => [String c EmptyString]
         end
  end.

(** The character ['_'] (code 95). *)
Definition underscore : Ascii.ascii := Ascii.ascii_of_nat 95.

(** [col.split('_')[1]]; [None] stands for the [IndexError] of a name
    without an underscore. *)
Definition field_name (col : string) : option string :=
  split underscore col !! 1%nat.

(** [mask = (index >= start_date) & (index <= end_date)]. *)
Definition in_range (start_date end_date d : date) : bool :=
  (start_date <=? d)%Z && (d <=? end_date)%Z.

(** [.loc[mask]] on one column or on the index. *)
Definition select {A : Type} (mask : list bool) (xs : list A) : list A :=
  map snd (filter (fun row => row.1 = true) (zip mask xs)).

(** Lines 55-65, for one ticker: [Some None] when it has no column,
    [None] when the renaming raises. *)
Definition frame_of (tb : Table) (start_date end_date : date) (ticker : string)
  : option (option Table) :=
  let ticker_cols := filter (fun col => startswith col.1 ticker = true)
                            (tb_columns tb) in
  match ticker_cols with
  | [] => Some None
  | _ =>
    names ← mapM (fun col => field_name col.1) ticker_cols;
    let mask := map (in_range start_date end_date) (tb_index tb) in
    Some (Some {| tb_index := select mask (tb_index tb);
                  tb_columns := zip names
                                    (map (fun col => select mask col.2)
                                         ticker_cols) |})
  end.

(** One turn of the ticker loop, once an [IndexError] is raised or not. *)
Definition add_ticker (tb : Table) (start_date end_date : date)
    (acc : option (gmap string Table)) (ticker : string)
  : option (gmap string Table) :=
  data ← acc;
  frame ← frame_of tb start_date end_date ticker;
  match frame with
  | Some ticker_df => Some (<[ticker := ticker_df]> data)
  | None => Some data
  end.

(** [get_data]; [None] stands for the [IndexError]. *)
Definition get_data (tb : Table) (tickers : list string)
    (start_date end_date : date) : option (gmap string Table) :=
  if is_empty tb then Some ∅
  else foldl (add_ticker tb start_date end_date) (Some ∅) tickers.

End Provider.

(** ** Further concrete inputs *)
Module Cases.
Import Backtest Scenario.

(** A strategy that signals BUY on every row. *)
Definition always_buy : Strategy :=
  {| generate_signals := fun df => map (fun row => (row.1, BUY)) df |}.

(** One ticker whose only close is zero, under [always_buy]. *)
Definition zero_close : Config :=
  {| data_provider := fun _ _ _ => {[ "A"%string := [(1%Z, 0%Q)] ]};
     strategy := always_buy;
     tickers := ["A"%string];
     start_date := 1%Z;
     end_date := 4%Z;
     initial_capital := 1000%Q |}.

(** One ticker with a single row: too short for the 2-day average. *)
(** The same with a close of -1. *)
Definition negative_close : Config :=
  {| data_provider := fun _ _ _ => {[ "A"%string := [(1%Z, (-1)%Q)] ]};
     strategy := always_buy; tickers := ["A"%string];
     start_date := 1%Z; end_date := 4%Z; initial_capital := 1000%Q |}.

Definition brief : Config :=
  config_of {[ "A"%string := [(1%Z, 10%Q)] ]} ["A"%string].

(** A price table in which ["A"] is also the beginning of ["AMC"]. *)
Definition prices : Provider.Table :=
  {| Provider.tb_index := [1%Z; 2%Z; 3%Z; 4%Z];
     Provider.tb_columns :=
       [("A_Close"%string, [1%Q; 2%Q; 3%Q; 4%Q]);
        ("AMC_Close"%string, [5%Q; 6%Q; 7%Q; 8%Q]);
        ("GME_Open"%string, [9%Q; 9%Q; 9%Q; 9%Q])] |}.

(** A table with a column that has no underscore. *)
(** What [get_data] returns for tickers A, GME and ZZ on the dates 2 to 3 of [prices]:
    frame of ticker A, then the whole result. *)
Definition A_2_3 : Provider.Table :=
  {| Provider.tb_index := [2%Z; 3%Z];
     Provider.tb_columns :=
       [("Close"%string, [2%Q; 3%Q]); ("Close"%string, [6%Q; 7%Q])] |}.

Definition prices_2_3 : gmap string Provider.Table :=
  <["GME"%string := {| Provider.tb_index := [2%Z; 3%Z];
                       Provider.tb_columns := [("Open"%string, [9%Q; 9%Q])] |}]>
    {[ "A"%string := A_2_3 ]}.

Definition bare_column : Provider.Table :=
  {| Provider.tb_index := [1%Z];
     Provider.tb_columns := [("AAPL"%string, [1%Q])] |}.

End Cases.

(** * Properties of the signal generator *)
Section SimpleMAFacts.
Import SimpleMA.
Implicit Types (s : SimpleMAStrategy) (closes : list Q) (data : DataFrame).

Lemma rolling_mean_lookup w closes i :
  (i < length closes)%nat ->
  rolling_mean w closes !! i = Some (window_mean w closes i).
Proof.
  intros Hi. unfold rolling_mean.
  rewrite list_lookup_fmap, lookup_seq_lt by done. reflexivity.
Qed.

Lemma position_lookup s closes i :
  (i < length closes)%nat ->
  position s closes !! i = Some (position_at s closes i).
Proof.
  intros Hi. unfold position, col_sign, col_sub, position_at.
  rewrite list_lookup_fmap, lookup_zip_with.
  rewrite !rolling_mean_lookup by done. simpl.
  destruct (window_mean (short_window s) closes i),
           (window_mean (long_window s) closes i); reflexivity.
Qed.

Lemma length_position s closes : length (position s closes) = length closes.
Proof.
  unfold position, col_sign, col_sub, rolling_mean.
  rewrite length_fmap, length_zip_with, !length_fmap, !length_seq. lia.
Qed.

Lemma diff_position_lookup s closes i :
  (i < length closes)%nat ->
  diff (position s closes) !! i = Some (change_at s closes i).
Proof.
  intros Hi. unfold diff. rewrite lookup_zip_with.
  rewrite position_lookup by done. simpl.
  destruct i as [|j]; simpl.
  - destruct (position_at s closes 0); reflexivity.
  - rewrite position_lookup by lia. simpl.
    destruct (position_at s closes (S j)), (position_at s closes j); reflexivity.
Qed.

Lemma window_mean_early w closes i :
  (S i < w)%nat -> window_mean w closes i = None.
Proof.
  intros H. unfold window_mean.
  destruct (w <=? S i)%nat eqn:E; [apply Nat.leb_le in E; lia|].
  by rewrite andb_false_r.
Qed.

Lemma change_at_early s closes i :
  (S i < short_window s \/ S i < long_window s)%nat -> change_at s closes i = None.
Proof.
  intros H. destruct i as [|j]; [reflexivity|]. simpl.
  unfold position_at at 1.
  destruct H as [H|H]; rewrite (window_mean_early _ _ _ H).
  - reflexivity.
  - by destruct (window_mean (short_window s) closes (S j)).
Qed.

(** Row by row, the series that [generate_signals] returns carries the date
    of the row and the signal decided by the change of position there. *)
Lemma generate_signals_lookup s data i d c :
  data !! i = Some (d, c) ->
  generate_signals s data !! i = Some (d, signal_of (change_at s (Close data) i)).
Proof.
  intros Hrow. unfold generate_signals.
  assert (Hi : (i < length data)%nat) by (by eapply lookup_lt_Some).
  destruct (length data <? long_window s)%nat eqn:E.
  - apply Nat.ltb_lt in E.
    rewrite list_lookup_fmap, Hrow. simpl.
    rewrite change_at_early by (right; lia). reflexivity.
  - unfold Close, index.
    rewrite lookup_zip_with, !list_lookup_fmap. rewrite Hrow. simpl.
    rewrite diff_position_lookup by (by rewrite length_fmap).
    reflexivity.
Qed.

Lemma sign_range q : sign q = (-1)%Z \/ sign q = 0%Z \/ sign q = 1%Z.
Proof. unfold sign. destruct (Qnum q); simpl; auto. Qed.

Lemma position_at_range s closes i p :
  position_at s closes i = Some p -> p = (-1)%Z \/ p = 0%Z \/ p = 1%Z.
Proof.
  unfold position_at.
  destruct (window_mean (short_window s) closes i),
           (window_mean (long_window s) closes i); try discriminate.
  intros [= <-]. apply sign_range.
Qed.

Lemma length_diff (a : list (option Z)) : length (diff a) = length a.
Proof. unfold diff. rewrite length_zip_with. simpl. lia. Qed.

Lemma length_generate_signals s data :
  length (generate_signals s data) = length data.
Proof.
  unfold generate_signals. destruct (length data <? long_window s)%nat.
  - by rewrite length_fmap.
  - unfold index, Close.
    rewrite length_zip_with, !length_fmap, length_diff, length_position, length_fmap.
    lia.
Qed.

Lemma signal_of_BUY v : signal_of v = BUY <-> v = Some 2%Z.
Proof. unfold signal_of. repeat case_decide; subst; split; congruence. Qed.

Lemma signal_of_SELL v : signal_of v = SELL <-> v = Some (-2)%Z.
Proof. unfold signal_of. repeat case_decide; subst; split; congruence. Qed.

Lemma signal_of_HOLD v :
  signal_of v = HOLD <-> v <> Some 2%Z /\ v <> Some (-2)%Z.
Proof.
  unfold signal_of. repeat case_decide; subst; split; try congruence; try tauto.
  all: intros _; split; congruence.
Qed.

(** A change of two is a flip between the two extreme positions. *)
Lemma change_at_flip s closes i (lo hi : Z) :
  (hi - lo = 2 \/ hi - lo = -2)%Z -> (-1 <= lo <= 1)%Z -> (-1 <= hi <= 1)%Z ->
  change_at s closes i = Some (hi - lo)%Z <->
  exists j, i = S j /\ position_at s closes j = Some lo /\
            position_at s closes i = Some hi.
Proof.
  intros Hflip Hlo Hhi. destruct i as [|j]; simpl.
  - split; [discriminate | intros (j & ? & _); discriminate].
  - destruct (position_at s closes (S j)) as [u|] eqn:Eu,
             (position_at s closes j) as [v|] eqn:Ev.
    + pose proof (position_at_range _ _ _ _ Eu) as Ru.
      pose proof (position_at_range _ _ _ _ Ev) as Rv. split.
      * intros [= H]. exists j. rewrite ?Ev. repeat split; f_equal; lia.
      * intros (j' & [= <-] & Hv & Hu). rewrite Ev in Hv.
        injection Hv as ->. injection Hu as ->. reflexivity.
    + split; [discriminate|]. intros (j' & [= <-] & Hv & _).
      rewrite Ev in Hv. discriminate.
    + split; [discriminate|]. intros (_ & _ & _ & ?). discriminate.
    + split; [discriminate|]. intros (_ & _ & _ & ?). discriminate.
Qed.

Lemma change_at_2 s closes i :
  change_at s closes i = Some 2%Z <->
  exists j, i = S j /\ position_at s closes j = Some (-1)%Z /\
            position_at s closes i = Some 1%Z.
Proof. apply (change_at_flip s closes i (-1) 1); lia. Qed.

Lemma change_at_minus_2 s closes i :
  change_at s closes i = Some (-2)%Z <->
  exists j, i = S j /\ position_at s closes j = Some 1%Z /\
            position_at s closes i = Some (-1)%Z.
Proof. apply (change_at_flip s closes i 1 (-1)); lia. Qed.

(** The position is [+1] exactly when the short average is above the long
    one, and [-1] exactly when it is below. *)
Lemma sign_sub_pos (a b : Q) : sign (a - b) = 1%Z <-> (b < a)%Q.
Proof.
  unfold sign. rewrite Z.sgn_pos_iff.
  assert (H : (b < a <-> 0 < a - b)%Q) by (split; lra).
  rewrite H. unfold Qlt. simpl. lia.
Qed.

Lemma sign_sub_neg (a b : Q) : sign (a - b) = (-1)%Z <-> (a < b)%Q.
Proof.
  unfold sign. rewrite Z.sgn_neg_iff.
  assert (H : (a < b <-> a - b < 0)%Q) by (split; lra).
  rewrite H. unfold Qlt. simpl. lia.
Qed.

(** C2.  On every row of every price series, [generate_signals] emits BUY
    exactly when the day-over-day change of [sign(short_ma - long_ma)] is
    [+2], which is a flip from [-1] to [+1], and SELL exactly when it is
    [-2], a flip from [+1] to [-1]; every other row is HOLD, in particular
    a change of [+1], [0] or [-1] (a tie on either side) and a row where the
    change is undefined because an average is. *)
Theorem generate_signals_crossover s data i d c :
  data !! i = Some (d, c) ->
  exists sig,
    generate_signals s data !! i = Some (d, sig) /\
    (sig = BUY <-> change_at s (Close data) i = Some 2%Z) /\
    (sig = SELL <-> change_at s (Close data) i = Some (-2)%Z) /\
    (sig = HOLD <-> change_at s (Close data) i <> Some 2%Z /\
                    change_at s (Close data) i <> Some (-2)%Z) /\
    (sig = BUY <-> exists j, i = S j /\
                     position_at s (Close data) j = Some (-1)%Z /\
                     position_at s (Close data) i = Some 1%Z) /\
    (sig = SELL <-> exists j, i = S j /\
                      position_at s (Close data) j = Some 1%Z /\
                      position_at s (Close data) i = Some (-1)%Z) /\
    (forall delta, change_at s (Close data) i = Some delta ->
                   (-1 <= delta <= 1)%Z -> sig = HOLD) /\
    (change_at s (Close data) i = None -> sig = HOLD).
Proof.
  intros Hrow. exists (signal_of (change_at s (Close data) i)).
  split; [by eapply generate_signals_lookup|].
  split; [apply signal_of_BUY|].
  split; [apply signal_of_SELL|].
  split; [apply signal_of_HOLD|].
  split; [rewrite signal_of_BUY; apply change_at_2|].
  split; [rewrite signal_of_SELL; apply change_at_minus_2|].
  split.
  - intros delta -> Hd. apply signal_of_HOLD. split; intros [= ->]; lia.
  - intros ->. reflexivity.
Qed.

(** C6.  A series with fewer rows than [long_window] gets HOLD on every
    one of its dates; and in every series a row that has fewer than
    [short_window] or fewer than [long_window] trailing closes, so that the
    two averages are not yet both computable, gets HOLD. *)
Theorem generate_signals_insufficient_history s data :
  ((length data < long_window s)%nat ->
     generate_signals s data = map (fun r => (r.1, HOLD)) data) /\
  (forall i d sig,
     generate_signals s data !! i = Some (d, sig) ->
     (S i < short_window s \/ S i < long_window s)%nat ->
     sig = HOLD).
Proof.
  split.
  - intros H. unfold generate_signals.
    apply Nat.ltb_lt in H. by rewrite H.
  - intros i d sig Hsig Hearly.
    assert (Hi : (i < length data)%nat).
    { rewrite <- (length_generate_signals s). by eapply lookup_lt_Some. }
    destruct (lookup_lt_is_Some_2 data i Hi) as [[d' c] Hrow].
    rewrite (generate_signals_lookup _ _ _ _ _ Hrow) in Hsig.
    injection Hsig as _ <-.
    by rewrite change_at_early.
Qed.

End SimpleMAFacts.

(** * Properties of the simulator *)
Section BacktestFacts.
Import Backtest.
Implicit Types (st : State) (pos : Position) (t : string) (d : Z).

Lemma Qltb_true x y : Qltb x y = true <-> (x < y)%Q.
Proof. unfold Qltb. destruct (Qlt_le_dec x y); split; (done || lra). Qed.

Lemma Qltb_false x y : Qltb x y = false <-> (y <= x)%Q.
Proof. unfold Qltb. destruct (Qlt_le_dec x y); split; (done || lra). Qed.

Lemma fdiv_nonzero x y : ~ (y == 0)%Q -> fdiv x y = Fin (x / y).
Proof. intros H. unfold fdiv. by destruct (Qeq_dec y 0). Qed.

Lemma fdiv_zero_zero x y : (y == 0)%Q -> (x == 0)%Q -> fdiv x y = NaN.
Proof.
  intros Hy Hx. unfold fdiv. destruct (Qeq_dec y 0); [|done].
  by destruct (Qeq_dec x 0).
Qed.

Lemma fdiv_zero_pos x y : (y == 0)%Q -> (0 < x)%Q -> fdiv x y = PosInf.
Proof.
  intros Hy Hx. unfold fdiv. destruct (Qeq_dec y 0); [|done].
  destruct (Qeq_dec x 0); [lra|]. destruct (Qlt_le_dec 0 x); [done|lra].
Qed.

Lemma int_Fin_nonneg q : (0 <= q)%Q -> int (Fin q) = Ok (Qfloor q).
Proof.
  intros H. simpl. f_equal. destruct q as [n p]. simpl.
  apply Z.quot_div_nonneg; [|lia].
  unfold Qle in H. simpl in H. lia.
Qed.

Lemma int_fdiv_zero x p :
  (0 < x)%Q -> (p == 0)%Q -> int (fdiv x p) = Raise OverflowError.
Proof. intros Hx Hp. by rewrite fdiv_zero_pos. Qed.

Lemma int_fdiv_pos x p :
  (0 <= x)%Q -> (0 < p)%Q -> int (fdiv x p) = Ok (Qfloor (x / p)).
Proof.
  intros Hx Hp. rewrite fdiv_nonzero by lra. apply int_Fin_nonneg.
  apply Qle_shift_div_l; lra.
Qed.

Lemma getitem_Some {V} (m : gmap string V) k v :
  m !! k = Some v -> getitem m k = Ok v.
Proof. intros H. unfold getitem. by rewrite H. Qed.

Lemma execute_trade_BUY st d t price pos :
  portfolio st !! t = Some pos -> (0 < price)%Q -> (price < cash st)%Q ->
  execute_trade BUY price d t st =
    if (0 <? Qfloor (cash st * (1 # 10) / price))%Z
    then Ok (bought d t price (Qfloor (cash st * (1 # 10) / price)) pos st)
    else Ok st.
Proof.
  intros Hpos Hp Hc. unfold execute_trade.
  rewrite bool_decide_eq_true_2 by done.
  rewrite (proj2 (Qltb_true _ _) Hc). cbn [andb].
  rewrite int_fdiv_pos by lra. cbn.
  destruct (0 <? _)%Z; [|done].
  rewrite (getitem_Some _ _ _ Hpos). reflexivity.
Qed.

Lemma execute_trade_SELL st d t price pos :
  portfolio st !! t = Some pos ->
  execute_trade SELL price d t st =
    if (0 <? shares pos)%Z then Ok (sold d t price pos st) else Ok st.
Proof.
  intros Hpos. unfold execute_trade.
  rewrite bool_decide_eq_false_2 by done. cbn [andb].
  rewrite bool_decide_eq_true_2 by done.
  rewrite (getitem_Some _ _ _ Hpos). cbn.
  by destruct (0 <? shares pos)%Z.
Qed.

Lemma execute_trade_HOLD st d t price : execute_trade HOLD price d t st = Ok st.
Proof. reflexivity. Qed.

Lemma execute_trade_BUY_no_cash st d t price :
  (cash st <= price)%Q -> execute_trade BUY price d t st = Ok st.
Proof.
  intros H. unfold execute_trade.
  rewrite (proj2 (Qltb_false _ _) H). rewrite andb_false_r.
  by rewrite bool_decide_eq_false_2.
Qed.

(** At a close of exactly zero a BUY signal makes the division infinite,
    and [int] raises. *)
Lemma execute_trade_BUY_zero_price st d t price :
  (price == 0)%Q -> (0 < cash st)%Q ->
  execute_trade BUY price d t st = Raise OverflowError.
Proof.
  intros Hp Hc. unfold execute_trade.
  rewrite bool_decide_eq_true_2 by done.
  rewrite (proj2 (Qltb_true price (cash st))) by lra. cbn [andb].
  by rewrite int_fdiv_zero by lra.
Qed.

(** Every normal return of the trade rule is one of its three outcomes. *)
Lemma execute_trade_Ok sig price d t st st' pos :
  portfolio st !! t = Some pos ->
  execute_trade sig price d t st = Ok st' ->
  st' = st \/
  (exists n, sig = BUY /\ (price < cash st)%Q /\ (0 < n)%Z /\
             int (fdiv (cash st * (1 # 10)) price) = Ok n /\
             st' = bought d t price n pos st) \/
  (sig = SELL /\ (0 < shares pos)%Z /\ st' = sold d t price pos st).
Proof.
  intros Hpos. unfold execute_trade.
  destruct (bool_decide (sig = BUY)) eqn:Eb; cbn [andb].
  - apply bool_decide_eq_true_1 in Eb. subst sig.
    destruct (Qltb price (cash st)) eqn:Ec.
    + apply Qltb_true in Ec.
      destruct (int (fdiv (cash st * (1 # 10)) price)) as [n|e] eqn:En;
        cbn; [|discriminate].
      destruct (0 <? n)%Z eqn:E0.
      * rewrite (getitem_Some _ _ _ Hpos). cbn. intros [= <-].
        right; left. exists n. apply Z.ltb_lt in E0. done.
      * intros [= <-]. by left.
    + rewrite bool_decide_eq_false_2 by done. intros [= <-]. by left.
  - destruct (bool_decide (sig = SELL)) eqn:Es.
    + apply bool_decide_eq_true_1 in Es. subst sig.
      rewrite (getitem_Some _ _ _ Hpos). cbn.
      destruct (0 <? shares pos)%Z eqn:E0.
      * intros [= <-]. right; right. apply Z.ltb_lt in E0. done.
      * intros [= <-]. by left.
    + intros [= <-]. by left.
Qed.

(** A purchase of a positive number of shares out of a non-negative
    balance happens at a positive price and costs at most a tenth of the
    balance. *)
Lemma int_fdiv_bought x price n :
  (0 <= x)%Q -> int (fdiv x price) = Ok n -> (0 < n)%Z ->
  (0 < price)%Q /\ n = Qfloor (x / price) /\ (inject_Z n * price <= x)%Q.
Proof.
  intros Hx Hint Hn.
  destruct (Qeq_dec price 0) as [Hz|Hnz].
  { unfold fdiv in Hint. destruct (Qeq_dec price 0); [|done].
    destruct (Qeq_dec x 0); [discriminate|].
    destruct (Qlt_le_dec 0 x); discriminate. }
  rewrite fdiv_nonzero in Hint by done.
  assert (Hq : (x / price * price == x)%Q) by (field; done).
  revert Hint Hq. generalize (x / price)%Q. intros q Hint Hq.
  destruct (Qlt_le_dec 0 price) as [Hp|Hp].
  - assert (H0 : (0 <= q)%Q).
    { destruct (Qlt_le_dec q 0); [nra|done]. }
    rewrite int_Fin_nonneg in Hint by done. injection Hint as <-.
    repeat split; [done|].
    pose proof (Qfloor_le q) as Hfl.
    nra.
  - exfalso. simpl in Hint. injection Hint as <-.
    assert (Hp' : (price < 0)%Q) by lra.
    assert (Hneg : (q <= 0)%Q).
    { destruct (Qlt_le_dec 0 q); [nra|done]. }
    destruct q as [a b]. unfold Qle in Hneg. simpl in *.
    assert (a <= 0)%Z by lia.
    pose proof (Z.quot_opp_l a (Z.pos b) ltac:(lia)) as Ho.
    pose proof (Z.quot_pos (- a) (Z.pos b) ltac:(lia) ltac:(lia)).
    lia.
Qed.

Implicit Types (all_data : gmap string (list (Z * Q)))
               (sigs : gmap string (list (Z * Signal))).

Lemma visit_unpriced all_data sigs d acc t :
  close_on all_data t d = None -> visit all_data sigs d acc t = Ok acc.
Proof.
  unfold close_on, visit. destruct (all_data !! t) as [df|]; [|done].
  simpl. by intros ->.
Qed.

Lemma visit_priced all_data sigs d st pv t p pos sigs_t :
  close_on all_data t d = Some p ->
  portfolio st !! t = Some pos ->
  sigs !! t = Some sigs_t ->
  visit all_data sigs d (st, pv) t =
    st' ← execute_trade (series_get sigs_t d HOLD) p d t (revalued t p pos st);
    Ok (st', (pv + inject_Z (shares pos) * p)%Q).
Proof.
  unfold close_on, visit. destruct (all_data !! t) as [df|]; [|done].
  simpl. intros -> Hpos Hsig.
  cbn [fst snd]. rewrite (getitem_Some _ _ _ Hpos). cbn.
  rewrite (getitem_Some _ _ _ Hsig). reflexivity.
Qed.

Lemma visit_priced_Ok all_data sigs d st pv t p st' pv' :
  close_on all_data t d = Some p ->
  visit all_data sigs d (st, pv) t = Ok (st', pv') ->
  exists pos sigs_t,
    portfolio st !! t = Some pos /\ sigs !! t = Some sigs_t /\
    pv' = (pv + inject_Z (shares pos) * p)%Q /\
    execute_trade (series_get sigs_t d HOLD) p d t (revalued t p pos st) = Ok st'.
Proof.
  intros Hp Hv.
  destruct (portfolio st !! t) as [pos|] eqn:Hpos; cycle 1.
  { revert Hv. unfold close_on in Hp. unfold visit.
    destruct (all_data !! t) as [df|]; [|done]. simpl in Hp. rewrite Hp.
    simpl. unfold getitem. rewrite Hpos. discriminate. }
  destruct (sigs !! t) as [sigs_t|] eqn:Hsig; cycle 1.
  { revert Hv. unfold close_on in Hp. unfold visit.
    destruct (all_data !! t) as [df|]; [|done]. simpl in Hp. rewrite Hp.
    cbn [fst snd]. rewrite (getitem_Some _ _ _ Hpos). cbn.
    unfold getitem. rewrite Hsig. discriminate. }
  rewrite (visit_priced _ _ _ _ _ _ _ _ _ Hp Hpos Hsig) in Hv.
  destruct (execute_trade _ _ _ _ _) as [st1|e] eqn:Ex; [|discriminate].
  cbn in Hv. injection Hv as <- <-. by exists pos, sigs_t.
Qed.

(** What one visit of a priced ticker does to the instance: it touches the
    entry of that ticker only, stores the pre-trade market value there, and
    conserves cash plus the value of the position at the close. *)
Lemma visit_effect all_data sigs d st pv t p st' pv' :
  close_on all_data t d = Some p ->
  visit all_data sigs d (st, pv) t = Ok (st', pv') ->
  exists pos pos',
    portfolio st !! t = Some pos /\
    portfolio st' = <[t := pos']> (portfolio st) /\
    pv' = (pv + inject_Z (shares pos) * p)%Q /\
    value pos' = (inject_Z (shares pos) * p)%Q /\
    (cash st' + inject_Z (shares pos') * p == cash st + inject_Z (shares pos) * p)%Q /\
    portfolio_history st' = portfolio_history st /\
    (exists new, trade_log st' = trade_log st ++ new).
Proof.
  intros Hp Hv.
  destruct (visit_priced_Ok _ _ _ _ _ _ _ _ _ Hp Hv)
    as (pos & sigs_t & Hpos & _ & -> & Hex).
  assert (Hrev : portfolio (revalued t p pos st) !! t
                 = Some {| shares := shares pos;
                           value := (inject_Z (shares pos) * p)%Q |}).
  { simpl. apply lookup_insert_eq. }
  destruct (execute_trade_Ok _ _ _ _ _ _ _ Hrev Hex)
    as [-> | [(n & _ & _ & _ & _ & ->) | (_ & _ & ->)]].
  - exists pos, {| shares := shares pos; value := (inject_Z (shares pos) * p)%Q |}.
    simpl. repeat split; try done. exists []. by rewrite app_nil_r.
  - exists pos, {| shares := shares pos + n; value := (inject_Z (shares pos) * p)%Q |}.
    simpl. repeat split; try done.
    + by rewrite insert_insert_eq.
    + rewrite inject_Z_plus. ring.
    + eauto.
  - exists pos, {| shares := 0; value := (inject_Z (shares pos) * p)%Q |}.
    simpl. repeat split; try done.
    + by rewrite insert_insert_eq.
    + ring.
    + eauto.
Qed.

Lemma holdings_value_ext all_data tks d st1 st2 :
  (forall t, t ∈ tks -> portfolio st1 !! t = portfolio st2 !! t) ->
  holdings_value all_data tks d st1 = holdings_value all_data tks d st2.
Proof.
  intros H. unfold holdings_value. f_equal. apply map_ext_in.
  intros t Ht. unfold shares_of. rewrite H; [done|]. by apply list_elem_of_In.
Qed.

Lemma marked_value_ext all_data tks d st1 st2 :
  (forall t, t ∈ tks -> portfolio st1 !! t = portfolio st2 !! t) ->
  marked_value all_data tks d st1 = marked_value all_data tks d st2.
Proof.
  intros H. unfold marked_value. f_equal. apply map_ext_in.
  intros t Ht. unfold market_value_of. rewrite H; [done|]. by apply list_elem_of_In.
Qed.

Lemma holdings_value_cons all_data t tks d st :
  holdings_value all_data (t :: tks) d st =
  (match close_on all_data t d with
   | Some p => inject_Z (shares_of st t) * p
   | None => 0
   end + holdings_value all_data tks d st)%Q.
Proof. reflexivity. Qed.

Lemma marked_value_cons all_data t tks d st :
  marked_value all_data (t :: tks) d st =
  (match close_on all_data t d with
   | Some _ => market_value_of st t
   | None => 0
   end + marked_value all_data tks d st)%Q.
Proof. reflexivity. Qed.

(** The ticker loop of one date, over distinct tickers. *)
Lemma ticker_loop_effect all_data sigs d tks :
  NoDup tks ->
  forall st pv st' pv',
    foldM (visit all_data sigs d) (st, pv) tks = Ok (st', pv') ->
    (pv' == pv + holdings_value all_data tks d st)%Q /\
    (cash st' + holdings_value all_data tks d st'
       == cash st + holdings_value all_data tks d st)%Q /\
    (marked_value all_data tks d st' == holdings_value all_data tks d st)%Q /\
    (forall t, t ∉ tks \/ close_on all_data t d = None ->
               portfolio st' !! t = portfolio st !! t) /\
    portfolio_history st' = portfolio_history st /\
    (exists new, trade_log st' = trade_log st ++ new).
Proof.
  induction 1 as [|t rest Hnotin Hnodup IH]; intros st pv st' pv' Hfold.
  - injection Hfold as <- <-. unfold holdings_value, marked_value. simpl.
    repeat split; try lra; try done. exists []. by rewrite app_nil_r.
  - cbn [foldM] in Hfold.
    destruct (visit all_data sigs d (st, pv) t) as [[st1 pv1]|e] eqn:Hv;
      [|discriminate].
    cbn in Hfold.
    destruct (IH _ _ _ _ Hfold) as (Hpv & Hcash & Hmark & Hsame & Hhist & new & Hlog).
    rewrite !holdings_value_cons, marked_value_cons.
    destruct (close_on all_data t d) as [p|] eqn:Hp.
    + destruct (visit_effect _ _ _ _ _ _ _ _ _ Hp Hv)
        as (pos & pos' & Hpos & Hport & -> & Hval & Hcons & Hhist1 & new1 & Hlog1).
      assert (Hrest : forall t', t' ∈ rest ->
                portfolio st1 !! t' = portfolio st !! t').
      { intros t' Ht'. rewrite Hport. apply lookup_insert_ne.
        intros ->. done. }
      rewrite (holdings_value_ext _ _ _ _ _ Hrest) in Hpv, Hcash, Hmark.
      assert (Hfinal : portfolio st' !! t = Some pos').
      { rewrite Hsame by (by left). rewrite Hport. apply lookup_insert_eq. }
      unfold shares_of, market_value_of. rewrite Hfinal, Hpos. simpl.
      rewrite Hval.
      split; [lra|]. split; [lra|]. split; [lra|].
      split; [|split].
      * intros t' [Ht'|Ht'].
        -- apply not_elem_of_cons in Ht' as [Hne Ht'].
           rewrite Hsame by (by left). rewrite Hport.
           by apply lookup_insert_ne.
        -- destruct (decide (t' = t)) as [->|Hne]; [congruence|].
           rewrite Hsame by (by right). rewrite Hport.
           by apply lookup_insert_ne.
      * congruence.
      * exists (new1 ++ new). rewrite Hlog, Hlog1. by rewrite app_assoc.
    + rewrite (visit_unpriced _ _ _ _ _ Hp) in Hv. injection Hv as <- <-.
      split; [lra|]. split; [lra|]. split; [lra|].
      split; [|split].
      * intros t' [Ht'|Ht']; apply Hsame; [left|by right].
        by apply not_elem_of_cons in Ht' as [_ Ht'].
      * done.
      * eauto.
Qed.

(** No visit touches the value history, and the trade log only grows. *)
Lemma visit_log all_data sigs d st pv t st' pv' :
  visit all_data sigs d (st, pv) t = Ok (st', pv') ->
  portfolio_history st' = portfolio_history st /\
  exists new, trade_log st' = trade_log st ++ new.
Proof.
  intros Hv. destruct (close_on all_data t d) as [p|] eqn:Hp.
  - destruct (visit_effect _ _ _ _ _ _ _ _ _ Hp Hv)
      as (_ & _ & _ & _ & _ & _ & _ & Hhist & Hlog). done.
  - rewrite (visit_unpriced _ _ _ _ _ Hp) in Hv. injection Hv as <- <-.
    split; [done|]. exists []. by rewrite app_nil_r.
Qed.

Lemma ticker_loop_log all_data sigs d tks :
  forall st pv st' pv',
    foldM (visit all_data sigs d) (st, pv) tks = Ok (st', pv') ->
    portfolio_history st' = portfolio_history st /\
    exists new, trade_log st' = trade_log st ++ new.
Proof.
  induction tks as [|t rest IH]; intros st pv st' pv' Hfold.
  - injection Hfold as <- <-. split; [done|]. exists []. by rewrite app_nil_r.
  - cbn [foldM] in Hfold.
    destruct (visit all_data sigs d (st, pv) t) as [[st1 pv1]|e] eqn:Hv;
      [|discriminate].
    cbn in Hfold.
    destruct (visit_log _ _ _ _ _ _ _ _ Hv) as (Hh1 & new1 & Hl1).
    destruct (IH _ _ _ _ Hfold) as (Hh & new & Hl).
    split; [congruence|].
    exists (new1 ++ new). by rewrite Hl, Hl1, app_assoc.
Qed.

Lemma process_date_Ok all_data sigs tks st d st' :
  process_date all_data sigs tks st d = Ok st' ->
  exists st1 pv,
    foldM (visit all_data sigs d) (st, cash st) tks = Ok (st1, pv) /\
    st' = record_snapshot d pv st1.
Proof.
  unfold process_date.
  destruct (foldM _ _ _) as [[st1 pv]|e]; [|discriminate].
  cbn. intros [= <-]. by exists st1, pv.
Qed.

(** One simulated date appends exactly one snapshot, dated that day. *)
Lemma process_date_log all_data sigs tks st d st' :
  process_date all_data sigs tks st d = Ok st' ->
  (exists v, portfolio_history st' = portfolio_history st ++ [(d, v)]) /\
  exists new, trade_log st' = trade_log st ++ new.
Proof.
  intros H. destruct (process_date_Ok _ _ _ _ _ _ H) as (st1 & pv & Hfold & ->).
  destruct (ticker_loop_log _ _ _ _ _ _ _ _ Hfold) as (Hh & new & Hl).
  simpl. split; [exists pv; by rewrite Hh | by exists new].
Qed.

(** The snapshot of a date, over distinct tickers. *)
Lemma process_date_effect all_data sigs tks st d st' :
  NoDup tks ->
  process_date all_data sigs tks st d = Ok st' ->
  exists v,
    portfolio_history st' = portfolio_history st ++ [(d, v)] /\
    (v == cash st + holdings_value all_data tks d st)%Q /\
    (v == cash st' + holdings_value all_data tks d st')%Q /\
    (v == cash st + marked_value all_data tks d st')%Q /\
    (forall t, t ∉ tks \/ close_on all_data t d = None ->
               portfolio st' !! t = portfolio st !! t).
Proof.
  intros Hnd H.
  destruct (process_date_Ok _ _ _ _ _ _ H) as (st1 & pv & Hfold & ->).
  destruct (ticker_loop_effect _ _ _ _ Hnd _ _ _ _ Hfold)
    as (Hpv & Hcash & Hmark & Hsame & Hhist & _).
  exists pv. simpl. rewrite Hhist.
  change (holdings_value all_data tks d (record_snapshot d pv st1))
    with (holdings_value all_data tks d st1).
  change (marked_value all_data tks d (record_snapshot d pv st1))
    with (marked_value all_data tks d st1).
  repeat split; try done; lra.
Qed.

Lemma run_Ok cfg st st' out :
  run cfg st = Ok (st', out) ->
  (dom (fetched cfg) = ∅ /\ st' = st /\ out = ret_None) \/
  (dom (fetched cfg) <> ∅ /\
   foldM (day_step cfg) st (sim_dates cfg (fetched cfg)) = Ok st' /\
   out = calculate_performance_metrics cfg st').
Proof.
  unfold run. fold (fetched cfg).
  destruct (decide (dom (fetched cfg) = ∅)) as [He|Hne].
  - intros [= <- <-]. by left.
  - fold (day_step cfg).
    destruct (foldM (day_step cfg) st _) as [st1|e]; [|discriminate].
    cbn. intros [= <- <-]. by right.
Qed.

Lemma run_simulated cfg st st' out :
  run cfg st = Ok (st', out) ->
  foldM (day_step cfg) st (simulated_dates cfg) = Ok st'.
Proof.
  intros H. unfold simulated_dates.
  destruct (run_Ok _ _ _ _ H) as [(He & -> & _)|(Hne & Hfold & _)].
  - by rewrite decide_True.
  - by rewrite decide_False.
Qed.

(** The date loop appends one snapshot per date, in order, and never
    removes a trade. *)
Lemma simulation_log all_data sigs tks ds :
  forall st st',
    foldM (process_date all_data sigs tks) st ds = Ok st' ->
    (exists snaps, portfolio_history st' = portfolio_history st ++ snaps /\
                   map fst snaps = ds) /\
    exists new, trade_log st' = trade_log st ++ new.
Proof.
  induction ds as [|d rest IH]; intros st st' Hfold.
  - injection Hfold as <-. split; exists []; by rewrite app_nil_r.
  - cbn [foldM] in Hfold.
    destruct (process_date all_data sigs tks st d) as [st1|e] eqn:Hd;
      [|discriminate].
    cbn in Hfold.
    destruct (process_date_log _ _ _ _ _ _ Hd) as ((v & Hh1) & new1 & Hl1).
    destruct (IH _ _ Hfold) as ((snaps & Hh & Hdates) & new & Hl).
    split.
    + exists ((d, v) :: snaps). rewrite Hh, Hh1, <- app_assoc. simpl.
      by rewrite Hdates.
    + exists (new1 ++ new). by rewrite Hl, Hl1, app_assoc.
Qed.

(** Each snapshot against the state the instance is in once its date has
    been processed. *)
Lemma simulation_snapshots all_data sigs tks ds :
  NoDup tks ->
  forall st st',
    foldM (process_date all_data sigs tks) st ds = Ok st' ->
    exists snaps,
      portfolio_history st' = portfolio_history st ++ snaps /\
      map fst snaps = ds /\
      Forall2 (fun snap s =>
                 (snap.2 == cash s + holdings_value all_data tks snap.1 s)%Q)
              snaps (states_after (process_date all_data sigs tks) st ds).
Proof.
  intros Hnd. induction ds as [|d rest IH]; intros st st' Hfold.
  - injection Hfold as <-. exists []. rewrite app_nil_r.
    repeat split. constructor.
  - cbn [foldM] in Hfold. cbn [states_after].
    destruct (process_date all_data sigs tks st d) as [st1|e] eqn:Hd;
      [|discriminate].
    cbn in Hfold.
    destruct (process_date_effect _ _ _ _ _ _ Hnd Hd)
      as (v & Hh1 & _ & Hv & _).
    destruct (IH _ _ Hfold) as (snaps & Hh & Hdates & Hall).
    exists ((d, v) :: snaps). rewrite Hh, Hh1, <- app_assoc. simpl.
    rewrite Hdates. repeat split. by constructor.
Qed.

(** C1, as amended.  Over distinct tickers, every snapshot that a run
    records is dated with its simulated date, in order, and its value is
    the cash left by that date's processing plus, over the tickers that
    have a price row on that date only, the shares then held times that
    date's close. *)
Theorem snapshot_is_cash_plus_priced_holdings cfg st st' out :
  NoDup (tickers cfg) ->
  run cfg st = Ok (st', out) ->
  exists snaps,
    portfolio_history st' = portfolio_history st ++ snaps /\
    map fst snaps = simulated_dates cfg /\
    Forall2 (fun snap s =>
               (snap.2 == cash s
                          + holdings_value (fetched cfg) (tickers cfg) snap.1 s)%Q)
            snaps (states_after (day_step cfg) st (simulated_dates cfg)).
Proof.
  intros Hnd Hrun. apply run_simulated in Hrun.
  by apply simulation_snapshots.
Qed.

(** C10.  On any date, over distinct tickers: a ticker without a price row
    keeps its entry as it was, stored market value included; and the
    snapshot is the cash the date started with plus the market values
    stored for the tickers that do have a row, which is also the cash left
    plus their shares at the close. *)
Theorem unpriced_ticker_contributes_nothing all_data sigs tks st d st' :
  NoDup tks ->
  process_date all_data sigs tks st d = Ok st' ->
  (forall t, close_on all_data t d = None ->
             portfolio st' !! t = portfolio st !! t) /\
  exists v,
    portfolio_history st' = portfolio_history st ++ [(d, v)] /\
    (v == cash st + marked_value all_data tks d st')%Q /\
    (v == cash st' + holdings_value all_data tks d st')%Q.
Proof.
  intros Hnd H.
  destruct (process_date_effect _ _ _ _ _ _ Hnd H)
    as (v & Hh & _ & Hafter & Hmark & Hsame).
  split; [intros t Ht; apply Hsame; by right|].
  by exists v.
Qed.

Lemma revalued_lookup t p pos st :
  portfolio (revalued t p pos st) !! t
  = Some {| shares := shares pos; value := (inject_Z (shares pos) * p)%Q |}.
Proof. apply lookup_insert_eq. Qed.

Lemma shares_of_revalued t p pos st t' :
  portfolio st !! t = Some pos ->
  shares_of (revalued t p pos st) t' = shares_of st t'.
Proof.
  intros Hpos. unfold shares_of, revalued. simpl.
  destruct (decide (t = t')) as [<-|Hne].
  - by rewrite lookup_insert_eq, Hpos.
  - by rewrite lookup_insert_ne.
Qed.

(** C3.  When ticker [t] has a BUY signal on [d], the close [p] is positive
    and the cash at the moment of its visit exceeds it, the simulator buys
    [floor(0.1 * cash / p)] shares: if that number is positive it debits
    exactly that many times [p], credits the shares to the position and
    appends one BUY record; if it is zero nothing is traded and nothing is
    raised.  The cash is that of the state handed to this visit, and the
    next ticker of the same date is visited from the state this one
    leaves. *)
Theorem buy_invests_tenth_of_current_cash
    all_data sigs d t p pos sigs_t st pv :
  close_on all_data t d = Some p ->
  portfolio st !! t = Some pos ->
  sigs !! t = Some sigs_t ->
  series_get sigs_t d HOLD = BUY ->
  (0 < p)%Q -> (p < cash st)%Q ->
  let shares_to_buy := Qfloor (cash st * (1 # 10) / p) in
  let marked := revalued t p pos st in
  let held := {| shares := shares pos;
                 value := (inject_Z (shares pos) * p)%Q |} in
  let after := if (0 <? shares_to_buy)%Z
               then bought d t p shares_to_buy held marked else marked in
  (0 <= shares_to_buy)%Z /\
  (inject_Z shares_to_buy * p <= cash st * (1 # 10))%Q /\
  (cash after == cash st - inject_Z shares_to_buy * p)%Q /\
  shares_of after t = (shares pos + shares_to_buy)%Z /\
  trade_log after =
    trade_log st ++
    (if (0 <? shares_to_buy)%Z
     then [{| trade_date := d; trade_side := BOUGHT;
              trade_shares := shares_to_buy; trade_ticker := t;
              trade_price := p |}]
     else []) /\
  visit all_data sigs d (st, pv) t
    = Ok (after, (pv + inject_Z (shares pos) * p)%Q) /\
  forall rest,
    foldM (visit all_data sigs d) (st, pv) (t :: rest)
    = foldM (visit all_data sigs d)
            (after, (pv + inject_Z (shares pos) * p)%Q) rest.
Proof.
  intros Hp Hpos Hsigs Hbuy Hpos_p Hcash n marked held after.
  assert (Hn : n = Qfloor (cash st * (1 # 10) / p)) by reflexivity.
  clearbody n.
  assert (Hn0 : (0 <= n)%Z).
  { subst n. change 0%Z with (Qfloor 0). apply Qfloor_resp_le.
    apply Qle_shift_div_l; lra. }
  assert (Hcost : (inject_Z n * p <= cash st * (1 # 10))%Q).
  { pose proof (Qfloor_le (cash st * (1 # 10) / p)) as Hfl.
    rewrite <- Hn in Hfl.
    assert (Hq : (cash st * (1 # 10) / p * p == cash st * (1 # 10))%Q)
      by (field; lra).
    revert Hfl Hq. generalize (cash st * (1 # 10) / p)%Q. intros q Hfl Hq.
    nra. }
  assert (Hmarked : portfolio marked !! t = Some held)
    by apply lookup_insert_eq.
  assert (Hvisit : visit all_data sigs d (st, pv) t
                   = Ok (after, (pv + inject_Z (shares pos) * p)%Q)).
  { rewrite (visit_priced _ _ _ _ _ _ _ _ _ Hp Hpos Hsigs), Hbuy.
    fold marked.
    rewrite (execute_trade_BUY marked d t p held Hmarked Hpos_p Hcash).
    change (cash marked) with (cash st). rewrite <- Hn. subst after.
    by destruct (0 <? n)%Z. }
  split; [done|]. split; [done|].
  split; [|split; [|split; [|split]]].
  - subst after. destruct (0 <? n)%Z eqn:E; simpl; [lra|].
    apply Z.ltb_ge in E. assert (n = 0%Z) as -> by lia.
    change (inject_Z 0) with 0%Q. lra.
  - subst after. destruct (0 <? n)%Z eqn:E.
    + unfold shares_of, bought. simpl. by rewrite lookup_insert_eq.
    + apply Z.ltb_ge in E. assert (n = 0%Z) as -> by lia.
      unfold shares_of. rewrite Hmarked. simpl. lia.
  - subst after. destruct (0 <? n)%Z; simpl; [done|]. by rewrite app_nil_r.
  - done.
  - intros rest. cbn [foldM]. by rewrite Hvisit.
Qed.

(** C4.  With [marked] the state once the position has been marked to
    market: a SELL signal on a position of more than zero shares sells all
    of it at the close, crediting shares times price, leaving zero shares
    and appending one SELL record; a HOLD signal, a BUY signal with cash at
    most the price, and a SELL signal on zero shares trade nothing, so that
    cash, share counts and trade log stay as they were. *)
Theorem sell_liquidates_and_others_hold
    all_data sigs d t p pos sigs_t st pv :
  close_on all_data t d = Some p ->
  portfolio st !! t = Some pos ->
  sigs !! t = Some sigs_t ->
  let signal := series_get sigs_t d HOLD in
  let marked := revalued t p pos st in
  let held := {| shares := shares pos;
                 value := (inject_Z (shares pos) * p)%Q |} in
  let pv' := (pv + inject_Z (shares pos) * p)%Q in
  (signal = SELL -> (0 < shares pos)%Z ->
     visit all_data sigs d (st, pv) t = Ok (sold d t p held marked, pv') /\
     (cash (sold d t p held marked) == cash st + inject_Z (shares pos) * p)%Q /\
     shares_of (sold d t p held marked) t = 0%Z /\
     trade_log (sold d t p held marked) =
       trade_log st ++ [{| trade_date := d; trade_side := SOLD;
                           trade_shares := shares pos; trade_ticker := t;
                           trade_price := p |}]) /\
  (signal = HOLD \/ (signal = BUY /\ (cash st <= p)%Q) \/
   (signal = SELL /\ shares pos = 0%Z) ->
     visit all_data sigs d (st, pv) t = Ok (marked, pv')) /\
  cash marked = cash st /\
  trade_log marked = trade_log st /\
  (forall t', shares_of marked t' = shares_of st t') /\
  execute_trade HOLD p d t st = Ok st /\
  ((cash st <= p)%Q -> execute_trade BUY p d t st = Ok st) /\
  (shares pos = 0%Z -> execute_trade SELL p d t st = Ok st) /\
  ((0 < shares pos)%Z -> execute_trade SELL p d t st = Ok (sold d t p pos st)).
Proof.
  intros Hp Hpos Hsigs signal marked held pv'.
  assert (Hmarked : portfolio marked !! t = Some held)
    by apply lookup_insert_eq.
  assert (Hvisit : visit all_data sigs d (st, pv) t
                   = st' ← execute_trade signal p d t marked; Ok (st', pv'))
    by apply (visit_priced _ _ _ _ _ _ _ _ _ Hp Hpos Hsigs).
  split; [|split; [|split; [|split; [|split; [|split; [|split; [|split]]]]]]].
  - intros Hs Hheld. split; [|split; [|split]].
    + rewrite Hvisit, Hs, (execute_trade_SELL _ _ _ _ _ Hmarked). simpl.
      apply Z.ltb_lt in Hheld. by rewrite Hheld.
    + unfold sold, held, marked, revalued, set_position. cbn [cash shares].
      lra.
    + unfold shares_of, sold. cbn [portfolio]. by rewrite lookup_insert_eq.
    + reflexivity.
  - intros [Hs|[[Hs Hc]|[Hs Hz]]]; rewrite Hvisit, Hs.
    + reflexivity.
    + by rewrite execute_trade_BUY_no_cash.
    + rewrite (execute_trade_SELL _ _ _ _ _ Hmarked). simpl.
      by rewrite Hz.
  - reflexivity.
  - reflexivity.
  - intros t'. by apply shares_of_revalued.
  - reflexivity.
  - apply execute_trade_BUY_no_cash.
  - intros Hz. rewrite (execute_trade_SELL _ _ _ _ _ Hpos). by rewrite Hz.
  - intros Hs. rewrite (execute_trade_SELL _ _ _ _ _ Hpos).
    apply Z.ltb_lt in Hs. by rewrite Hs.
Qed.

Lemma foldM_invariant {A B} (P : B -> Prop) (f : B -> A -> result B) l :
  (forall b a b', P b -> f b a = Ok b' -> P b') ->
  forall b b', P b -> foldM f b l = Ok b' -> P b'.
Proof.
  intros Hstep. induction l as [|a rest IH]; intros b b' Hb Hfold.
  - by injection Hfold as <-.
  - cbn [foldM] in Hfold. destruct (f b a) as [b1|e] eqn:Hf; [|discriminate].
    cbn in Hfold. eapply IH; [|done]. by eapply Hstep.
Qed.

Lemma states_after_invariant (P : State -> Prop) step ds :
  (forall st d st', P st -> step st d = Ok st' -> P st') ->
  forall st, P st -> Forall P (states_after step st ds).
Proof.
  intros Hstep. induction ds as [|d rest IH]; intros st Hst; simpl.
  - constructor.
  - destruct (step st d) as [st1|e] eqn:Hd; [|constructor].
    constructor; [by eapply Hstep|]. apply IH. by eapply Hstep.
Qed.

Lemma init_shares_nonneg cfg : shares_nonneg (init cfg).
Proof.
  unfold shares_nonneg, init. simpl.
  assert (H : forall tks (m : gmap string Position),
             (forall t pos, m !! t = Some pos -> (0 <= shares pos)%Z) ->
             forall t pos,
               foldl (fun m t => <[t := {| shares := 0; value := 0 |}]> m) m tks
                 !! t = Some pos -> (0 <= shares pos)%Z).
  { induction tks as [|t0 rest IH]; intros m Hm t pos; simpl; [apply Hm|].
    apply IH. intros t' pos'.
    destruct (decide (t0 = t')) as [->|Hne].
    - rewrite lookup_insert_eq. by intros [= <-].
    - rewrite lookup_insert_ne by done. apply Hm. }
  apply H. intros t pos. by rewrite lookup_empty.
Qed.

Lemma shares_nonneg_insert t pos st st' :
  shares_nonneg st -> (0 <= shares pos)%Z ->
  portfolio st' = <[t := pos]> (portfolio st) -> shares_nonneg st'.
Proof.
  intros Hst Hpos Hport t' pos'. rewrite Hport.
  destruct (decide (t = t')) as [->|Hne].
  - rewrite lookup_insert_eq. by intros [= <-].
  - rewrite lookup_insert_ne by done. apply Hst.
Qed.

Lemma execute_trade_shares_nonneg sig p d t st st' pos :
  portfolio st !! t = Some pos -> shares_nonneg st ->
  execute_trade sig p d t st = Ok st' -> shares_nonneg st'.
Proof.
  intros Hpos Hst Hex. pose proof (Hst _ _ Hpos) as Hheld.
  destruct (execute_trade_Ok _ _ _ _ _ _ _ Hpos Hex)
    as [-> | [(n & _ & _ & Hn & _ & ->) | (_ & _ & ->)]]; [done| |].
  - eapply shares_nonneg_insert; [done| |reflexivity]. simpl. lia.
  - eapply shares_nonneg_insert; [done| |reflexivity]. simpl. lia.
Qed.

(** Whatever the price, a normal return of the rule on a BUY signal leaves
    a non-negative balance non-negative. *)
Lemma execute_trade_BUY_cash p d t st st' pos :
  portfolio st !! t = Some pos -> (0 <= cash st)%Q ->
  execute_trade BUY p d t st = Ok st' ->
  (0 <= cash st' /\ cash st' <= cash st)%Q.
Proof.
  intros Hpos Hcash Hex.
  destruct (execute_trade_Ok _ _ _ _ _ _ _ Hpos Hex)
    as [-> | [(n & _ & _ & Hn & Hint & ->) | (Hs & _)]];
    [split; lra| |discriminate].
  assert (Hx : (0 <= cash st * (1 # 10))%Q) by lra.
  destruct (int_fdiv_bought _ _ _ Hx Hint Hn) as (Hp & _ & Hcost).
  assert (0 <= inject_Z n * p)%Q.
  { apply Qmult_le_0_compat; [|lra].
    change 0%Q with (inject_Z 0). rewrite <- Zle_Qle. lia. }
  simpl. split; lra.
Qed.

Lemma execute_trade_solvent sig p d t st st' pos :
  portfolio st !! t = Some pos -> (0 <= p)%Q -> solvent st ->
  execute_trade sig p d t st = Ok st' -> solvent st'.
Proof.
  intros Hpos Hp [Hcash Hshares] Hex.
  split; [|by eapply execute_trade_shares_nonneg].
  destruct (execute_trade_Ok _ _ _ _ _ _ _ Hpos Hex)
    as [-> | [(n & -> & _ & _ & _ & _) | (_ & Hheld & ->)]]; [done| |].
  - by eapply execute_trade_BUY_cash.
  - simpl.
    assert (0 <= inject_Z (shares pos) * p)%Q.
    { apply Qmult_le_0_compat; [|done].
      change 0%Q with (inject_Z 0). rewrite <- Zle_Qle. lia. }
    lra.
Qed.

Lemma revalued_solvent t p pos st :
  portfolio st !! t = Some pos -> solvent st -> solvent (revalued t p pos st).
Proof.
  intros Hpos [Hcash Hshares]. split; [done|].
  eapply shares_nonneg_insert; [done| |reflexivity]. simpl. by eapply Hshares.
Qed.

Lemma visit_shares_nonneg all_data sigs d st pv t st' pv' :
  shares_nonneg st ->
  visit all_data sigs d (st, pv) t = Ok (st', pv') -> shares_nonneg st'.
Proof.
  intros Hst Hv. destruct (close_on all_data t d) as [p|] eqn:Hp.
  - destruct (visit_priced_Ok _ _ _ _ _ _ _ _ _ Hp Hv)
      as (pos & sigs_t & Hpos & _ & _ & Hex).
    eapply execute_trade_shares_nonneg; [apply revalued_lookup| |exact Hex].
    eapply shares_nonneg_insert; [done| |reflexivity]. simpl. by eapply Hst.
  - rewrite (visit_unpriced _ _ _ _ _ Hp) in Hv. by injection Hv as <- _.
Qed.

Lemma visit_solvent all_data sigs d st pv t st' pv' :
  nonneg_prices all_data -> solvent st ->
  visit all_data sigs d (st, pv) t = Ok (st', pv') -> solvent st'.
Proof.
  intros Hprices Hst Hv. destruct (close_on all_data t d) as [p|] eqn:Hp.
  - destruct (visit_priced_Ok _ _ _ _ _ _ _ _ _ Hp Hv)
      as (pos & sigs_t & Hpos & _ & _ & Hex).
    eapply execute_trade_solvent; [apply revalued_lookup| | |exact Hex].
    + by eapply Hprices.
    + by apply revalued_solvent.
  - rewrite (visit_unpriced _ _ _ _ _ Hp) in Hv. by injection Hv as <- _.
Qed.

Lemma process_date_invariant (P : State -> Prop) all_data sigs tks :
  (forall d st pv t st' pv',
     P st -> visit all_data sigs d (st, pv) t = Ok (st', pv') -> P st') ->
  (forall d v st, P st -> P (record_snapshot d v st)) ->
  forall st d st', P st -> process_date all_data sigs tks st d = Ok st' -> P st'.
Proof.
  intros Hvisit Hsnap st d st' Hst H.
  destruct (process_date_Ok _ _ _ _ _ _ H) as (st1 & pv & Hfold & ->).
  apply Hsnap.
  change (P (st1, pv).1).
  apply (foldM_invariant (fun acc => P acc.1) (visit all_data sigs d) tks)
    with (b := (st, cash st)); [|exact Hst|exact Hfold].
  intros [s q] t [s' q'] Hs Hv. by eapply Hvisit.
Qed.

Lemma loc_In df d p : loc df d = Some p -> In (d, p) df.
Proof.
  induction df as [|[d' c] rest IH]; simpl; [discriminate|].
  destruct (Z.eqb d' d) eqn:E.
  - apply Z.eqb_eq in E. subst d'. intros [= <-]. by left.
  - intros H. right. by apply IH.
Qed.

Lemma nonneg_prices_rows all_data :
  map_Forall (fun _ df => Forall (fun row => (0 <= row.2)%Q) df) all_data ->
  nonneg_prices all_data.
Proof.
  intros Hall t d p. unfold close_on.
  destruct (all_data !! t) as [df|] eqn:Ht; [|discriminate]. simpl.
  intros Hloc. apply loc_In in Hloc.
  pose proof (Hall _ _ Ht) as Hdf. rewrite Forall_forall in Hdf.
  apply (Hdf (d, p)). by apply list_elem_of_In.
Qed.

Lemma day_step_shares_nonneg cfg st d st' :
  shares_nonneg st -> day_step cfg st d = Ok st' -> shares_nonneg st'.
Proof.
  apply (process_date_invariant shares_nonneg).
  - intros d0 s pv t s' pv'. apply visit_shares_nonneg.
  - done.
Qed.

Lemma day_step_solvent cfg st d st' :
  nonneg_prices (fetched cfg) ->
  solvent st -> day_step cfg st d = Ok st' -> solvent st'.
Proof.
  intros Hprices. apply (process_date_invariant solvent).
  - intros d0 s pv t s' pv'. by apply visit_solvent.
  - done.
Qed.

(** C5.  Through every run: no share count ever becomes negative, whatever
    the prices; a BUY never spends more than the balance, so it leaves a
    non-negative balance non-negative; and, closes being non-negative, the
    cash is never negative either.  This holds of the state left by every
    trade, by every date and by the run, from any state that satisfies it,
    among them the one the constructor builds from a non-negative
    capital. *)
Theorem never_oversells_never_overspends cfg st st' out :
  run cfg st = Ok (st', out) ->
  (shares_nonneg st ->
     shares_nonneg st' /\
     Forall shares_nonneg
       (states_after (day_step cfg) st (simulated_dates cfg))) /\
  (nonneg_prices (fetched cfg) -> solvent st ->
     solvent st' /\
     Forall solvent (states_after (day_step cfg) st (simulated_dates cfg))) /\
  (forall sig p d t s s' pos,
     portfolio s !! t = Some pos -> shares_nonneg s ->
     execute_trade sig p d t s = Ok s' -> shares_nonneg s') /\
  (forall p d t s s' pos,
     portfolio s !! t = Some pos -> (0 <= cash s)%Q ->
     execute_trade BUY p d t s = Ok s' ->
     (0 <= cash s')%Q /\ (cash s' <= cash s)%Q) /\
  (forall sig p d t s s' pos,
     portfolio s !! t = Some pos -> (0 <= p)%Q -> solvent s ->
     execute_trade sig p d t s = Ok s' -> solvent s') /\
  ((0 <= initial_capital cfg)%Q -> solvent (init cfg)).
Proof.
  intros Hrun. apply run_simulated in Hrun.
  split; [|split; [|split; [|split; [|split]]]].
  - intros Hst. split.
    + eapply (foldM_invariant shares_nonneg); [|exact Hst|exact Hrun].
      intros s d s'. apply day_step_shares_nonneg.
    + apply states_after_invariant; [|done].
      intros s d s'. apply day_step_shares_nonneg.
  - intros Hprices Hst. split.
    + eapply (foldM_invariant solvent); [|exact Hst|exact Hrun].
      intros s d s'. by apply day_step_solvent.
    + apply states_after_invariant; [|done].
      intros s d s'. by apply day_step_solvent.
  - intros sig p d t s s' pos. apply execute_trade_shares_nonneg.
  - intros p d t s s' pos. apply execute_trade_BUY_cash.
  - intros sig p d t s s' pos. apply execute_trade_solvent.
  - intros Hcap. split; [done|apply init_shares_nonneg].
Qed.

Lemma unified_dates_no_rows all_data :
  (forall t df, all_data !! t = Some df -> df = []) ->
  unified_dates all_data = [].
Proof.
  intros Hrows. unfold unified_dates.
  assert (Hempty : ⋃ map (fun kv : string * list (Z * Q) =>
                             list_to_set (index kv.2))
                         (map_to_list all_data) = (∅ : gset Z)).
  { apply empty_union_list_L. apply Forall_forall. intros X HX.
    apply list_elem_of_In, in_map_iff in HX as ([t df] & <- & Hin).
    apply list_elem_of_In, elem_of_map_to_list in Hin.
    by rewrite (Hrows _ _ Hin). }
  rewrite Hempty, elements_empty. reflexivity.
Qed.

Lemma calculate_performance_metrics_empty cfg st :
  portfolio_history st = [] -> calculate_performance_metrics cfg st = ret_error.
Proof. intros H. unfold calculate_performance_metrics. by rewrite H. Qed.

(** C7.  When the provider returns an empty mapping, or a mapping in which
    no ticker has a row, [run] on an instance that has recorded no
    snapshot (a fresh one) raises nothing, leaves the instance as it was
    and returns no report: [None] for the empty mapping, the error dict
    otherwise. *)
Theorem run_without_data_returns_no_result cfg st :
  (forall t df, fetched cfg !! t = Some df -> df = []) ->
  portfolio_history st = [] ->
  (exists out, run cfg st = Ok (st, out) /\ no_result out) /\
  (fetched cfg = ∅ -> run cfg st = Ok (st, ret_None)) /\
  (fetched cfg <> ∅ -> run cfg st = Ok (st, ret_error)).
Proof.
  intros Hrows Hhist.
  assert (Hnone : fetched cfg = ∅ -> run cfg st = Ok (st, ret_None)).
  { intros He. unfold run. fold (fetched cfg). rewrite He.
    by rewrite decide_True by apply dom_empty_L. }
  assert (Herr : fetched cfg <> ∅ -> run cfg st = Ok (st, ret_error)).
  { intros Hne. unfold run. fold (fetched cfg).
    rewrite decide_False by (by rewrite dom_empty_iff_L).
    unfold sim_dates. rewrite (unified_dates_no_rows _ Hrows). cbn.
    by rewrite calculate_performance_metrics_empty. }
  split; [|done].
  destruct (decide (dom (fetched cfg) = ∅)) as [He|Hne].
  - apply dom_empty_iff_L in He. exists ret_None. split; [auto|by left].
  - rewrite dom_empty_iff_L in Hne. exists ret_error. split; [auto|by right].
Qed.

Lemma annualized_nonpositive tr years :
  (years <= 0)%Q -> annualized tr years = Ann_zero.
Proof.
  intros H. unfold annualized. by rewrite (proj2 (Qltb_false _ _) H).
Qed.

Lemma sharpe_of_zero_std rs :
  (std_squared rs = None \/ exists v, std_squared rs = Some v /\ (v == 0)%Q) ->
  sharpe_of rs = Sharpe_zero.
Proof.
  intros [H|(v & H & Hv)]; unfold sharpe_of; rewrite H; [done|].
  rewrite (proj2 (Qltb_false 0 v)); [done|lra].
Qed.

Lemma Qsum_zero qs : Forall (fun x => (x == 0)%Q) qs -> (Qsum qs == 0)%Q.
Proof.
  induction 1 as [|x rest Hx _ IH]; simpl; [reflexivity|]. lra.
Qed.

Lemma variance_zero qs v :
  Forall (fun x => (x == 0)%Q) qs -> variance qs = Some v -> (v == 0)%Q.
Proof.
  intros Hqs. unfold variance.
  destruct (length qs <=? 1)%nat; [discriminate|]. intros [= <-].
  assert (Hmean : (mean qs == 0)%Q).
  { unfold mean. rewrite (Qsum_zero _ Hqs). unfold Qdiv. ring. }
  assert (Hsq : (Qsum (map (fun x => (x - mean qs) * (x - mean qs))%Q qs) == 0)%Q).
  { apply Qsum_zero. apply Forall_forall. intros y Hy.
    apply list_elem_of_In, in_map_iff in Hy as (x & <- & Hx).
    rewrite Forall_forall in Hqs.
    rewrite (Hqs x) by (by apply list_elem_of_In). rewrite Hmean. ring. }
  rewrite Hsq. unfold Qdiv. ring.
Qed.

(** The daily returns of a constant value series: nothing but zeros, and
    nothing at all when the constant is zero. *)
Lemma pct_change_flat c vs :
  Forall (fun v => (v == c)%Q) vs ->
  exists qs, observations (pct_change vs) = Some qs /\
             Forall (fun x => (x == 0)%Q) qs.
Proof.
  intros Hvs. unfold pct_change.
  assert (Hgen : forall (prev : option Q) vs,
             (forall p, prev = Some p -> (p == c)%Q) ->
             Forall (fun v => (v == c)%Q) vs ->
             exists qs,
               observations
                 (zip_with (fun cur prev => match prev with
                                            | Some p => fshift (-1) (fdiv cur p)
                                            | None => NaN
                                            end) vs (prev :: map Some vs))
               = Some qs /\ Forall (fun x => (x == 0)%Q) qs).
  { clear. intros prev vs. revert prev.
    induction vs as [|v rest IH]; intros prev Hprev Hall.
    - exists []. by split.
    - apply Forall_cons in Hall as [Hv Hrest].
      destruct (IH (Some v)) as (qs & Hobs & Hqs); [by intros p [= <-]|done|].
      cbn [map zip_with]. change (list_fmap _ _ Some rest) with (map Some rest) in *.
      destruct prev as [p|]; cycle 1.
      { exists qs. by split. }
      specialize (Hprev p eq_refl).
      destruct (Qeq_dec p 0) as [Hp0|Hp0].
      + rewrite fdiv_zero_zero by lra. exists qs. by split.
      + rewrite fdiv_nonzero by done.
        cbn [fshift observations]. rewrite Hobs. cbn.
        exists ((v / p + -1)%Q :: qs). split; [done|].
        constructor; [|done]. rewrite Hv, Hprev. field. lra. }
  apply Hgen; [discriminate|done].
Qed.

Lemma sharpe_of_flat c vs :
  Forall (fun v => (v == c)%Q) vs -> sharpe_of (pct_change vs) = Sharpe_zero.
Proof.
  intros Hvs. destruct (pct_change_flat _ _ Hvs) as (qs & Hobs & Hqs).
  apply sharpe_of_zero_std. unfold std_squared. rewrite Hobs. cbn.
  destruct (variance qs) as [v|] eqn:Hv; [|by left].
  right. exists v. split; [done|]. by eapply variance_zero.
Qed.

Lemma calculate_performance_metrics_report cfg st first_date v0 rest :
  portfolio_history st = (first_date, v0) :: rest ->
  exists last_date final_value,
    last (portfolio_history st) = Some (last_date, final_value) /\
    calculate_performance_metrics cfg st =
      ret_report
        {| total_return_pct :=
             fscale 100 (fdiv (final_value - initial_capital cfg)
                              (initial_capital cfg));
           annualized_return_pct :=
             annualized
               (fscale 100 (fdiv (final_value - initial_capital cfg)
                                 (initial_capital cfg)))
               (num_years first_date last_date);
           max_drawdown_pct :=
             fscale 100 (fmin_skipna (drawdown (map snd (portfolio_history st))));
           sharpe_ratio := sharpe_of (pct_change (map snd (portfolio_history st)));
           report_start_date := start_date cfg;
           report_end_date := end_date cfg;
           report_initial_capital := initial_capital cfg;
           final_portfolio_value := final_value;
           total_trades := length (trade_log st) |}
        (portfolio_history st) (trade_log st).
Proof.
  intros Hh. unfold calculate_performance_metrics.
  destruct (last (portfolio_history st)) as [[last_date final_value]|] eqn:Hl.
  - exists last_date, final_value. split; [done|]. by rewrite Hh.
  - rewrite Hh in Hl. apply last_None in Hl. discriminate.
Qed.

(** C8.  In a report, the annualized return is the sentinel [0] as soon as
    the years elapsed between the first and the last snapshot are not
    positive, and the Sharpe ratio is the sentinel [0.0] as soon as the
    standard deviation of the daily returns is zero (or undefined), in
    particular for a constant value series and for a single snapshot. *)
Theorem degenerate_metrics_are_zero cfg st first_date v0 rest :
  portfolio_history st = (first_date, v0) :: rest ->
  exists r last_date final_value,
    calculate_performance_metrics cfg st
      = ret_report r (portfolio_history st) (trade_log st) /\
    last (portfolio_history st) = Some (last_date, final_value) /\
    ((num_years first_date last_date <= 0)%Q ->
       annualized_return_pct r = Ann_zero) /\
    (forall v,
       std_squared (pct_change (map snd (portfolio_history st))) = Some v ->
       (v == 0)%Q -> sharpe_ratio r = Sharpe_zero) /\
    (std_squared (pct_change (map snd (portfolio_history st))) = None ->
       sharpe_ratio r = Sharpe_zero) /\
    (forall c, Forall (fun snap => (snap.2 == c)%Q) (portfolio_history st) ->
               sharpe_ratio r = Sharpe_zero) /\
    (rest = [] ->
       sharpe_ratio r = Sharpe_zero /\ annualized_return_pct r = Ann_zero).
Proof.
  intros Hh.
  destruct (calculate_performance_metrics_report cfg _ _ _ _ Hh)
    as (last_date & final_value & Hlast & Hrep).
  eexists _, last_date, final_value. split; [exact Hrep|]. split; [done|].
  cbn [annualized_return_pct sharpe_ratio].
  split; [|split; [|split; [|split]]].
  - apply annualized_nonpositive.
  - intros v Hv Hz. apply sharpe_of_zero_std. right. by exists v.
  - intros Hv. apply sharpe_of_zero_std. by left.
  - intros c Hc. apply (sharpe_of_flat c).
    apply Forall_forall. intros v Hv.
    apply list_elem_of_In, in_map_iff in Hv as (snap & <- & Hsnap).
    rewrite Forall_forall in Hc. apply Hc. by apply list_elem_of_In.
  - intros ->. rewrite Hh in *. injection Hlast as <- <-. split.
    + reflexivity.
    + apply annualized_nonpositive. unfold num_years.
      rewrite Z.sub_diag. by apply Qle_bool_iff.
Qed.

Lemma run_output cfg st st' out :
  run cfg st = Ok (st', out) ->
  out = if decide (dom (fetched cfg) = ∅) then ret_None
        else calculate_performance_metrics cfg st'.
Proof.
  intros H. destruct (run_Ok _ _ _ _ H) as [(He & _ & ->)|(Hne & _ & ->)].
  - by rewrite decide_True.
  - by rewrite decide_False.
Qed.

Lemma simulated_dates_nonempty cfg :
  simulated_dates cfg <> [] -> dom (fetched cfg) <> ∅.
Proof. unfold simulated_dates. by case_decide. Qed.

(** C9, as amended.  [run] starts from the state the instance is in and
    resets nothing: it appends one snapshot per simulated date to the value
    history it finds and only appends to the trade log it finds, and the
    report is computed from the whole of both.  So after a first run on a
    fresh instance, a second run on the same instance returns the first
    run's result only when no date is simulated; otherwise its report,
    over a history twice as long, is another one. *)
Theorem run_continues_from_instance_state cfg st1 st2 out2 :
  run cfg st1 = Ok (st2, out2) ->
  (exists snaps new,
     portfolio_history st2 = portfolio_history st1 ++ snaps /\
     map fst snaps = simulated_dates cfg /\
     trade_log st2 = trade_log st1 ++ new /\
     (fetched cfg <> ∅ -> out2 = calculate_performance_metrics cfg st2)) /\
  (forall out1,
     run cfg (init cfg) = Ok (st1, out1) ->
     length (portfolio_history st2) = (2 * length (portfolio_history st1))%nat /\
     (simulated_dates cfg <> [] -> out2 <> out1) /\
     (simulated_dates cfg = [] -> st2 = st1 /\ out2 = out1)).
Proof.
  intros Hrun2.
  pose proof (run_simulated _ _ _ _ Hrun2) as Hsim2.
  destruct (simulation_log _ _ _ _ _ _ Hsim2)
    as ((snaps2 & Hh2 & Hd2) & new2 & Hl2).
  fold (simulated_dates cfg) in Hd2.
  split.
  - exists snaps2, new2. repeat split; try done.
    intros Hne. rewrite (run_output _ _ _ _ Hrun2).
    rewrite decide_False; [done|]. by rewrite dom_empty_iff_L.
  - intros out1 Hrun1.
    pose proof (run_simulated _ _ _ _ Hrun1) as Hsim1.
    destruct (simulation_log _ _ _ _ _ _ Hsim1)
      as ((snaps1 & Hh1 & Hd1) & _).
    simpl in Hh1.
    split; [|split].
    + rewrite Hh2, length_app, Hh1.
      rewrite <- (length_map fst snaps2), <- (length_map fst snaps1).
      rewrite Hd1, Hd2. lia.
    + intros Hdates Heq.
      pose proof (simulated_dates_nonempty _ Hdates) as Hdom.
      pose proof (run_output _ _ _ _ Hrun1) as Ho1.
      pose proof (run_output _ _ _ _ Hrun2) as Ho2.
      rewrite decide_False in Ho1, Ho2 by done.
      destruct (portfolio_history st1) as [|[d v] rest] eqn:E1.
      { subst snaps1. simpl in Hd1. congruence. }
      destruct (calculate_performance_metrics_report cfg st1 _ _ _ E1)
        as (ld1 & fv1 & _ & Hrep1).
      assert (E2 : portfolio_history st2 = (d, v) :: rest ++ snaps2)
        by (by rewrite Hh2).
      destruct (calculate_performance_metrics_report cfg st2 _ _ _ E2)
        as (ld2 & fv2 & _ & Hrep2).
      rewrite Hrep1 in Ho1. rewrite Hrep2 in Ho2.
      rewrite Ho1, Ho2 in Heq. injection Heq as _ _ _ _ _ _ Hhist _.
      rewrite E1, E2 in Hhist.
      assert (Hnil : snaps2 = []).
      { apply (app_inv_head ((d, v) :: rest)). by rewrite app_nil_r. }
      subst snaps2. simpl in Hd2. congruence.
    + intros Hdates. rewrite Hdates in Hsim2. injection Hsim2 as <-.
      split; [done|].
      by rewrite (run_output _ _ _ _ Hrun2), (run_output _ _ _ _ Hrun1).
Qed.

End BacktestFacts.

Section Counterexamples.
Import Backtest Scenario.

(** C1, as stated, fails on [gap]: on day 4 ticker ["B"] holds 10 shares
    and has no close, the snapshot is the cash alone, and no positive
    price for those shares makes the stated sum come out. *)
Lemma snapshot_total_value_fails :
  ~ snapshots_are_total_values gap (init gap) /\
  exists st' out,
    run gap (init gap) = Ok (st', out) /\
    last (portfolio_history st') = Some (4%Z, 900%Q) /\
    cash st' = 900%Q /\ shares_of st' "B" = 10%Z /\
    close_on (fetched gap) "B" 4 = None /\
    forall q, (0 < q)%Q ->
      ~ (900 == cash st' + (inject_Z (shares_of st' "A") * 5
                            + inject_Z (shares_of st' "B") * q))%Q.
Proof.
  split.
  - intros H.
    edestruct H as (snaps & Hh & Hall); [vm_compute; reflexivity|].
    vm_compute in Hh. subst snaps.
    set (states := states_after _ _ _) in Hall. vm_compute in states.
    subst states.
    repeat match goal with
           | H : Forall2 _ (_ :: _) (_ :: _) |- _ =>
               apply Forall2_cons_1 in H as [? H]
           end.
    match goal with
    | H : total_value_of _ _ (fst (4%Z, _)) _ _ |- _ =>
        destruct H as (close & Hclose & _)
    end.
    assert (Hin : "B"%string ∈ tickers gap).
    { apply list_elem_of_In. simpl. auto. }
    specialize (Hclose _ Hin). vm_compute in Hclose. discriminate.
  - do 2 eexists. split; [vm_compute; reflexivity|].
    repeat split; try (vm_compute; reflexivity).
    intros q Hq.
    match goal with
    | |- ~ (_ == cash ?s + (inject_Z (shares_of ?s ?a) * _
                            + inject_Z (shares_of ?s ?b) * _))%Q =>
        replace (cash s) with 900%Q by (vm_compute; reflexivity);
        replace (shares_of s a) with 0%Z by (vm_compute; reflexivity);
        replace (shares_of s b) with 10%Z by (vm_compute; reflexivity)
    end.
    change (inject_Z 0) with 0%Q. change (inject_Z 10) with 10%Q. lra.
Qed.

(** C9, as stated, fails on [single]: the second run starts with the cash
    the first one left, appends to its history and to its log, and returns
    a report of four trades and a final value of 981 where the first one
    reported two trades and 990. *)
Lemma rerun_differs_from_fresh_run :
  ~ rerun_is_fresh_run single /\
  exists st1 r1 h1 l1 st2 r2 h2 l2,
    run single (init single) = Ok (st1, ret_report r1 h1 l1) /\
    run single st1 = Ok (st2, ret_report r2 h2 l2) /\
    total_trades r1 = 2%nat /\ total_trades r2 = 4%nat /\
    final_portfolio_value r1 = 990%Q /\ final_portfolio_value r2 = 981%Q /\
    length h1 = 4%nat /\ length h2 = 8%nat.
Proof.
  split.
  - intros H.
    edestruct H as (st2 & Hrun2); [vm_compute; reflexivity|].
    vm_compute in Hrun2. discriminate Hrun2.
  - do 8 eexists.
    split; [vm_compute; reflexivity|].
    split; [vm_compute; reflexivity|].
    repeat split.
Qed.

(** C3, as stated, fails where the close is not positive.  On
    [zero_close] ticker ["A"] has a BUY signal at a close of 0 with 1000 in
    cash: the quotient is infinite and the visit raises [OverflowError].
    On [negative_close] the close is -1: [floor(0.1 * cash / p)] is -100,
    and the visit buys nothing, debits nothing and logs nothing. *)
Lemma buy_rule_fails_at_nonpositive_close :
  (~ buys_tenth_of_cash (fetched Cases.zero_close) (signals Cases.zero_close)
       1 "A" (init Cases.zero_close) 1000 /\
   (0 < cash (init Cases.zero_close))%Q /\
   series_get [(1%Z, BUY)] 1 HOLD = BUY /\
   close_on (fetched Cases.zero_close) "A" 1 = Some 0%Q /\
   visit (fetched Cases.zero_close) (signals Cases.zero_close) 1
         (init Cases.zero_close, 1000%Q) "A"
   = Raise OverflowError) /\
  (~ buys_tenth_of_cash (fetched Cases.negative_close)
       (signals Cases.negative_close) 1 "A" (init Cases.negative_close) 1000 /\
   close_on (fetched Cases.negative_close) "A" 1 = Some (-1)%Q /\
   Qfloor (cash (init Cases.negative_close) * (1 # 10) / (-1)) = (-100)%Z /\
   exists after pv',
     visit (fetched Cases.negative_close) (signals Cases.negative_close) 1
           (init Cases.negative_close, 1000%Q) "A"
     = Ok (after, pv') /\
     cash after = 1000%Q /\ shares_of after "A" = 0%Z /\ trade_log after = []).
Proof.
  split.
  - split.
    + intros H.
      destruct (H 0%Q empty_position [(1%Z, BUY)])
        as (after & pv' & Hv & _); try (vm_compute; reflexivity).
      vm_compute in Hv. discriminate Hv.
    + repeat split; vm_compute; reflexivity.
  - split.
    + intros H.
      destruct (H (-1)%Q empty_position [(1%Z, BUY)])
        as (after & pv' & Hv & _ & Hs & _); try (vm_compute; reflexivity).
      vm_compute in Hv. injection Hv as <- _.
      vm_compute in Hs. discriminate Hs.
    + split; [vm_compute; reflexivity|]. split; [vm_compute; reflexivity|].
      do 2 eexists. split; [vm_compute; reflexivity|].
      repeat split.
Qed.

End Counterexamples.

(** * The theorems at concrete runs *)
Section Witnesses.
Import Backtest Scenario.

(** Row 2 of [zigzag] under the fast crossover: the date is 3 and the
    signal is BUY exactly when the change there is [+2]. *)
Lemma generate_signals_crossover_witness :
  exists sig,
    SimpleMA.generate_signals fast zigzag !! 2%nat = Some (3%Z, sig) /\
    (sig = BUY <-> SimpleMA.change_at fast (Close zigzag) 2 = Some 2%Z).
Proof.
  destruct (generate_signals_crossover fast zigzag 2 3%Z 10%Q eq_refl)
    as (sig & Hrow & Hbuy & _).
  exists sig. split; [exact Hrow | exact Hbuy].
Defined.

(** One row against a long window of two: HOLD. *)
Lemma generate_signals_insufficient_history_witness :
  SimpleMA.generate_signals fast [(1%Z, 10%Q)] = [(1%Z, HOLD)].
Proof.
  apply (proj1 (generate_signals_insufficient_history fast [(1%Z, 10%Q)])).
  simpl. lia.
Defined.

(** The four snapshots of [gap]. *)
Lemma snapshot_is_cash_plus_priced_holdings_witness :
  exists st' out snaps,
    run gap (init gap) = Ok (st', out) /\
    portfolio_history st' = portfolio_history (init gap) ++ snaps /\
    map fst snaps = simulated_dates gap /\
    Forall2 (fun snap s =>
               (snap.2 == cash s
                          + holdings_value (fetched gap) (tickers gap) snap.1 s)%Q)
            snaps (states_after (day_step gap) (init gap) (simulated_dates gap)).
Proof.
  assert (Hnd : NoDup (tickers gap)).
  { apply (bool_decide_unpack _). vm_compute. reflexivity. }
  edestruct (snapshot_is_cash_plus_priced_holdings gap (init gap))
    as (snaps & H1 & H2 & H3); [exact Hnd | vm_compute; reflexivity |].
  eexists _, _, snaps.
  split; [vm_compute; reflexivity|].
  split; [exact H1|]. split; [exact H2 | exact H3].
Defined.

(** Day 3 of [pair], ticker ["A"] at 10 with 1000 in cash: ten shares,
    900 left. *)
Lemma buy_invests_tenth_of_current_cash_witness :
  exists after,
    visit (fetched pair) (signals pair) 3 (init pair, 1000%Q) "A"
      = Ok (after, (1000 + inject_Z 0 * 10)%Q) /\
    shares_of after "A" = 10%Z /\
    (cash after == 900)%Q.
Proof.
  assert (Hsigs : signals pair !! "A"%string
                  = Some (SimpleMA.generate_signals fast zigzag))
    by (vm_compute; reflexivity).
  assert (Hprice : (0 < 10)%Q) by reflexivity.
  assert (Hcash : (10 < cash (init pair))%Q) by reflexivity.
  pose proof (buy_invests_tenth_of_current_cash
                (fetched pair) (signals pair) 3 "A" 10 empty_position
                (SimpleMA.generate_signals fast zigzag) (init pair) 1000
                eq_refl eq_refl Hsigs eq_refl Hprice Hcash) as H.
  cbv zeta in H. destruct H as (_ & _ & Hc & Hs & _ & Hv & _).
  eexists. split; [exact Hv|]. split.
  - etransitivity; [exact Hs|]. vm_compute. reflexivity.
  - eapply Qeq_trans; [exact Hc|]. vm_compute. reflexivity.
Defined.

(** Day 4 of [single], ten shares of ["A"] sold at 9. *)
Lemma sell_liquidates_and_others_hold_witness :
  exists after,
    visit (fetched single) (signals single) 4 (holding_A, 900%Q) "A"
      = Ok (after, (900 + inject_Z 10 * 9)%Q) /\
    shares_of after "A" = 0%Z /\
    (cash after == 990)%Q.
Proof.
  assert (Hsigs : signals single !! "A"%string
                  = Some (SimpleMA.generate_signals fast zigzag))
    by (vm_compute; reflexivity).
  assert (Hpos : portfolio holding_A !! "A"%string
                 = Some {| shares := 10; value := 0 |})
    by (vm_compute; reflexivity).
  pose proof (sell_liquidates_and_others_hold
                (fetched single) (signals single) 4 "A" 9
                {| shares := 10; value := 0 |}
                (SimpleMA.generate_signals fast zigzag) holding_A 900
                eq_refl Hpos Hsigs) as H.
  cbv zeta in H. destruct H as (Hsell & _).
  destruct Hsell as (Hv & Hc & Hs & _); [vm_compute; reflexivity|simpl; lia|].
  eexists. split; [exact Hv|]. split; [exact Hs|].
  eapply Qeq_trans; [exact Hc|]. vm_compute. reflexivity.
Defined.

(** The state [single] ends in is solvent. *)
Lemma never_oversells_never_overspends_witness :
  exists st' out, run single (init single) = Ok (st', out) /\ solvent st'.
Proof.
  assert (Hprices : nonneg_prices (fetched single)).
  { apply nonneg_prices_rows. apply map_Forall_singleton.
    repeat constructor; apply Qle_bool_iff; reflexivity. }
  assert (Hcap : (0 <= initial_capital single)%Q)
    by (apply Qle_bool_iff; reflexivity).
  eexists _, _. split; [vm_compute; reflexivity|].
  edestruct (never_oversells_never_overspends single (init single))
    as (_ & Hsolvent & _ & _ & _ & Hinit); [vm_compute; reflexivity|].
  exact (proj1 (Hsolvent Hprices (Hinit Hcap))).
Defined.

(** No rows gives the error dict, no data gives [None]. *)
Lemma run_without_data_returns_no_result_witness :
  run no_rows (init no_rows) = Ok (init no_rows, ret_error) /\
  run nothing (init nothing) = Ok (init nothing, ret_None).
Proof.
  split.
  - apply (run_without_data_returns_no_result no_rows (init no_rows)).
    + intros t df. unfold fetched. simpl.
      destruct (decide (t = "A"%string)) as [->|Hne].
      * rewrite lookup_singleton_eq. by intros [= <-].
      * rewrite lookup_singleton_ne by done. discriminate.
    + reflexivity.
    + unfold fetched. simpl. intros H.
      apply (f_equal (fun m => m !! "A"%string)) in H.
      rewrite lookup_singleton_eq, lookup_empty in H. discriminate H.
  - apply (run_without_data_returns_no_result nothing (init nothing)).
    + intros t df. unfold fetched. simpl. rewrite lookup_empty. discriminate.
    + reflexivity.
    + reflexivity.
Defined.

(** A single snapshot: both sentinels. *)
Lemma degenerate_metrics_are_zero_witness :
  exists r,
    calculate_performance_metrics single one_snapshot
      = ret_report r (portfolio_history one_snapshot) (trade_log one_snapshot) /\
    sharpe_ratio r = Sharpe_zero /\ annualized_return_pct r = Ann_zero.
Proof.
  destruct (degenerate_metrics_are_zero single one_snapshot 1 1000 [] eq_refl)
    as (r & ld & fv & Hrep & _ & _ & _ & _ & _ & Hsingle).
  exists r. split; [exact Hrep | exact (Hsingle eq_refl)].
Defined.

(** Two runs of [single] on one instance. *)
Lemma run_continues_from_instance_state_witness :
  exists st1 out1 st2 out2,
    run single (init single) = Ok (st1, out1) /\
    run single st1 = Ok (st2, out2) /\
    length (portfolio_history st2) = (2 * length (portfolio_history st1))%nat /\
    out2 <> out1.
Proof.
  eexists _, _, _, _.
  split; [vm_compute; reflexivity|].
  split; [vm_compute; reflexivity|].
  match goal with
  | |- length (portfolio_history ?s2) = (2 * length (portfolio_history ?s1))%nat
       /\ ?o2 <> ?o1 =>
      assert (Hrun1 : run single (init single) = Ok (s1, o1))
        by (vm_compute; reflexivity);
      assert (Hrun2 : run single s1 = Ok (s2, o2))
        by (vm_compute; reflexivity);
      destruct (run_continues_from_instance_state single s1 s2 o2 Hrun2)
        as (_ & H);
      destruct (H o1 Hrun1) as (Hlen & Hne & _)
  end.
  split; [exact Hlen|]. apply Hne. vm_compute. discriminate.
Defined.

(** Day 4 of [gap] with ten shares of ["B"] held: its entry is untouched
    and the snapshot leaves it out. *)
Lemma unpriced_ticker_contributes_nothing_witness :
  exists st' v,
    process_date (fetched gap) (signals gap) (tickers gap) holding_B 4 = Ok st' /\
    portfolio st' !! "B"%string = portfolio holding_B !! "B"%string /\
    portfolio_history st' = portfolio_history holding_B ++ [(4%Z, v)] /\
    (v == cash holding_B + marked_value (fetched gap) (tickers gap) 4 st')%Q.
Proof.
  assert (Hnd : NoDup (tickers gap)).
  { apply (bool_decide_unpack _). vm_compute. reflexivity. }
  edestruct (unpriced_ticker_contributes_nothing
               (fetched gap) (signals gap) (tickers gap) holding_B 4)
    as (Hsame & v & Hh & Hv & _); [exact Hnd | vm_compute; reflexivity |].
  eexists _, v. split; [vm_compute; reflexivity|].
  split; [apply Hsame; reflexivity|]. split; [exact Hh | exact Hv].
Defined.

End Witnesses.

(** * Further properties of the signal generator *)

Section SimpleMAMore.
Import SimpleMA.
Implicit Types (s : SimpleMAStrategy) (closes : list Q) (data : list (Z * Q)).

(** X1.  [generate_signals] returns one entry per row of the data, in the
    order and under the dates of the data's index. *)
Theorem generate_signals_aligned s data :
  map fst (generate_signals s data) = index data.
Proof.
  unfold generate_signals. destruct (length data <? long_window s)%nat.
  - unfold index. rewrite map_map. reflexivity.
  - apply fst_zip. unfold index, Close.
    rewrite !length_fmap, length_diff, length_position, length_fmap. done.
Qed.

Lemma change_at_first_rows s closes i :
  (i < short_window s \/ i < long_window s)%nat -> change_at s closes i = None.
Proof.
  intros H. destruct i as [|j]; [reflexivity|]. simpl.
  assert (Hprev : position_at s closes j = None).
  { unfold position_at.
    destruct H as [H|H].
    - by rewrite (window_mean_early (short_window s) closes j) by lia.
    - rewrite (window_mean_early (long_window s) closes j) by lia.
      by destruct (window_mean (short_window s) closes j). }
  rewrite Hprev. by destruct (position_at s closes (S j)).
Qed.

(** X2.  A BUY or SELL is never issued on a row whose position in the data
    is below the short or the long window: every earlier row holds. *)
Theorem first_signal_not_before_long_window s data i d sig :
  generate_signals s data !! i = Some (d, sig) ->
  sig <> HOLD ->
  (short_window s <= i)%nat /\ (long_window s <= i)%nat.
Proof.
  intros Hsig Hne.
  assert (Hi : (i < length data)%nat).
  { rewrite <- (length_generate_signals s). by eapply lookup_lt_Some. }
  destruct (lookup_lt_is_Some_2 data i Hi) as [[d' c] Hrow].
  rewrite (generate_signals_lookup _ _ _ _ _ Hrow) in Hsig.
  injection Hsig as _ <-.
  destruct (decide (i < short_window s \/ i < long_window s)%nat) as [H|H];
    [|lia].
  rewrite change_at_first_rows in Hne by done. done.
Qed.

Lemma window_mean_take w closes n j :
  (j < n)%nat -> window_mean w (take n closes) j = window_mean w closes j.
Proof.
  intros Hj. unfold window_mean.
  destruct ((0 <? w)%nat && (w <=? S j)%nat)%bool eqn:E; [|reflexivity].
  apply andb_prop in E as [_ E]. apply Nat.leb_le in E.
  do 2 f_equal. rewrite skipn_firstn_comm, take_take.
  replace (w `min` (n - (S j - w)))%nat with w by lia. reflexivity.
Qed.

Lemma change_at_take s closes n i :
  (i < n)%nat -> change_at s (take n closes) i = change_at s closes i.
Proof.
  intros Hi. destruct i as [|j]; [reflexivity|]. simpl.
  unfold position_at. rewrite !window_mean_take by lia. reflexivity.
Qed.

(** X3.  The signal of a row depends only on the rows up to and including
    it: two data sets that agree on their first [i + 1] rows get the same
    signal at row [i]. *)
Theorem generate_signals_no_look_ahead s data1 data2 i :
  take (S i) data1 = take (S i) data2 ->
  (i < length data1)%nat -> (i < length data2)%nat ->
  generate_signals s data1 !! i = generate_signals s data2 !! i.
Proof.
  intros Htake H1 H2.
  destruct (lookup_lt_is_Some_2 data1 i H1) as [[d c] Hrow1].
  assert (Hrow2 : data2 !! i = Some (d, c)).
  { rewrite <- (lookup_take_lt data2 (S i) i) by lia.
    rewrite <- Htake. by rewrite lookup_take_lt by lia. }
  rewrite (generate_signals_lookup _ _ _ _ _ Hrow1).
  rewrite (generate_signals_lookup _ _ _ _ _ Hrow2).
  do 3 f_equal.
  rewrite <- (change_at_take s (Close data1) (S i)) by lia.
  rewrite <- (change_at_take s (Close data2) (S i)) by lia.
  unfold Close. by rewrite <- !fmap_take, Htake.
Qed.

Lemma Qsum_const c xs :
  Forall (fun x => (x == c)%Q) xs ->
  (Qsum xs == inject_Z (Z.of_nat (length xs)) * c)%Q.
Proof.
  induction 1 as [|x rest Hx _ IH].
  - simpl. change (inject_Z 0) with 0%Q. ring.
  - cbn [Qsum foldr length]. fold (Qsum rest). rewrite IH, Hx.
    rewrite Nat2Z.inj_succ, <- Z.add_1_r, inject_Z_plus.
    change (inject_Z 1) with 1%Q. ring.
Qed.

Lemma window_mean_flat c w closes i m :
  Forall (fun x => (x == c)%Q) closes -> (i < length closes)%nat ->
  window_mean w closes i = Some m -> (m == c)%Q.
Proof.
  intros Hflat Hi. unfold window_mean.
  destruct ((0 <? w)%nat && (w <=? S i)%nat)%bool eqn:E; [|discriminate].
  apply andb_prop in E as [E0 E]. apply Nat.ltb_lt in E0. apply Nat.leb_le in E.
  intros [= <-].
  assert (Hwin : Forall (fun x => (x == c)%Q) (take w (drop (S i - w) closes)))
    by (by apply Forall_take, Forall_drop).
  assert (Hlen : length (take w (drop (S i - w) closes)) = w).
  { rewrite length_take, length_drop. lia. }
  rewrite (Qsum_const _ _ Hwin), Hlen.
  field. change 0%Q with (inject_Z 0). rewrite inject_Z_injective. lia.
Qed.

Lemma sign_zero q : (q == 0)%Q -> sign q = 0%Z.
Proof.
  intros H. unfold sign. unfold Qeq in H. simpl in H.
  rewrite Z.mul_1_r in H. by rewrite H.
Qed.

Lemma position_at_flat c s closes i p :
  Forall (fun x => (x == c)%Q) closes -> (i < length closes)%nat ->
  position_at s closes i = Some p -> p = 0%Z.
Proof.
  intros Hflat Hi. unfold position_at.
  destruct (window_mean (short_window s) closes i) as [a|] eqn:Ea;
    [|discriminate].
  destruct (window_mean (long_window s) closes i) as [b|] eqn:Eb;
    [|discriminate].
  intros [= <-]. apply sign_zero.
  rewrite (window_mean_flat _ _ _ _ _ Hflat Hi Ea).
  rewrite (window_mean_flat _ _ _ _ _ Hflat Hi Eb). ring.
Qed.

(** X4.  On data whose closes are all equal the strategy never trades: every
    signal is HOLD, whatever the windows. *)
Theorem flat_series_never_signals c s data :
  Forall (fun row => (row.2 == c)%Q) data ->
  Forall (fun entry => entry.2 = HOLD) (generate_signals s data).
Proof.
  intros Hflat. apply Forall_lookup. intros i [d sig] Hsig.
  assert (Hi : (i < length data)%nat).
  { rewrite <- (length_generate_signals s). by eapply lookup_lt_Some. }
  destruct (lookup_lt_is_Some_2 data i Hi) as [[d' c'] Hrow].
  rewrite (generate_signals_lookup _ _ _ _ _ Hrow) in Hsig.
  injection Hsig as _ <-. simpl.
  assert (Hcloses : Forall (fun x => (x == c)%Q) (Close data)).
  { unfold Close. apply Forall_fmap. by eapply Forall_impl. }
  assert (Hlen : length (Close data) = length data)
    by (unfold Close; apply length_fmap).
  apply signal_of_HOLD.
  destruct i as [|j]; [split; discriminate|]. simpl.
  destruct (position_at s (Close data) (S j)) as [u|] eqn:Eu;
    [|split; discriminate].
  destruct (position_at s (Close data) j) as [v|] eqn:Ev;
    [|split; discriminate].
  apply (position_at_flat c) in Eu; [|done|lia].
  apply (position_at_flat c) in Ev; [|done|lia].
  subst. split; discriminate.
Qed.

Lemma position_at_plus s closes i :
  position_at s closes i = Some 1%Z <->
  exists a b, window_mean (short_window s) closes i = Some a /\
              window_mean (long_window s) closes i = Some b /\ (b < a)%Q.
Proof.
  unfold position_at.
  destruct (window_mean (short_window s) closes i) as [a|]; cycle 1.
  { split; [discriminate | intros (? & ? & ? & _); discriminate]. }
  destruct (window_mean (long_window s) closes i) as [b|]; cycle 1.
  { split; [discriminate | intros (? & ? & _ & ? & _); discriminate]. }
  split.
  - intros [= H]. exists a, b. by rewrite <- sign_sub_pos.
  - intros (a' & b' & [= <-] & [= <-] & H). f_equal. by apply sign_sub_pos.
Qed.

Lemma position_at_minus s closes i :
  position_at s closes i = Some (-1)%Z <->
  exists a b, window_mean (short_window s) closes i = Some a /\
              window_mean (long_window s) closes i = Some b /\ (a < b)%Q.
Proof.
  unfold position_at.
  destruct (window_mean (short_window s) closes i) as [a|]; cycle 1.
  { split; [discriminate | intros (? & ? & ? & _); discriminate]. }
  destruct (window_mean (long_window s) closes i) as [b|]; cycle 1.
  { split; [discriminate | intros (? & ? & _ & ? & _); discriminate]. }
  split.
  - intros [= H]. exists a, b. by rewrite <- sign_sub_neg.
  - intros (a' & b' & [= <-] & [= <-] & H). f_equal. by apply sign_sub_neg.
Qed.

(** X5.  BUY is issued at a row exactly when both moving averages exist on
    the row and on the row before, the short one was strictly below the long
    one before and is strictly above it now; SELL exactly in the mirrored
    case.  Touching averages give neither. *)
Theorem signals_are_strict_crossings s data i d c :
  data !! i = Some (d, c) ->
  (generate_signals s data !! i = Some (d, BUY) <->
   exists j a b a' b',
     i = S j /\
     window_mean (short_window s) (Close data) j = Some a /\
     window_mean (long_window s) (Close data) j = Some b /\ (a < b)%Q /\
     window_mean (short_window s) (Close data) i = Some a' /\
     window_mean (long_window s) (Close data) i = Some b' /\ (b' < a')%Q) /\
  (generate_signals s data !! i = Some (d, SELL) <->
   exists j a b a' b',
     i = S j /\
     window_mean (short_window s) (Close data) j = Some a /\
     window_mean (long_window s) (Close data) j = Some b /\ (b < a)%Q /\
     window_mean (short_window s) (Close data) i = Some a' /\
     window_mean (long_window s) (Close data) i = Some b' /\ (a' < b')%Q).
Proof.
  intros Hrow. rewrite (generate_signals_lookup _ _ _ _ _ Hrow). split.
  - split.
    + intros [= H]. apply signal_of_BUY, change_at_2 in H
        as (j & -> & Hprev & Hcur).
      apply position_at_minus in Hprev as (a & b & ? & ? & ?).
      apply position_at_plus in Hcur as (a' & b' & ? & ? & ?).
      by exists j, a, b, a', b'.
    + intros (j & a & b & a' & b' & -> & Ha & Hb & Hab & Ha' & Hb' & Hab').
      do 2 f_equal. apply signal_of_BUY, change_at_2. exists j.
      split; [done|]. split.
      * apply position_at_minus. by exists a, b.
      * apply position_at_plus. by exists a', b'.
  - split.
    + intros [= H]. apply signal_of_SELL, change_at_minus_2 in H
        as (j & -> & Hprev & Hcur).
      apply position_at_plus in Hprev as (a & b & ? & ? & ?).
      apply position_at_minus in Hcur as (a' & b' & ? & ? & ?).
      by exists j, a, b, a', b'.
    + intros (j & a & b & a' & b' & -> & Ha & Hb & Hab & Ha' & Hb' & Hab').
      do 2 f_equal. apply signal_of_SELL, change_at_minus_2. exists j.
      split; [done|]. split.
      * apply position_at_plus. by exists a, b.
      * apply position_at_minus. by exists a', b'.
Qed.

End SimpleMAMore.

(** * Further properties of the simulator *)

Section BacktestMore.
Import Backtest Frames.
Implicit Types (st : State) (pos : Position) (t : string) (d : Z)
               (all_data : gmap string (list (Z * Q)))
               (sigs : gmap string (list (Z * Signal))).

Lemma foldl_insert_lookup {V} (v : V) (tks : list string) (m : gmap string V) t :
  foldl (fun m t => <[t := v]> m) m tks !! t
  = if decide (t ∈ tks) then Some v else m !! t.
Proof.
  revert m. induction tks as [|t0 rest IH]; intros m; cbn [foldl].
  - rewrite decide_False; [done|]. apply not_elem_of_nil.
  - rewrite IH. destruct (decide (t ∈ rest)) as [Hin|Hnotin].
    + rewrite decide_True; [done|]. by right.
    + destruct (decide (t0 = t)) as [->|Hne].
      * rewrite lookup_insert_eq. rewrite decide_True; [done|]. by left.
      * rewrite lookup_insert_ne by done.
        rewrite decide_False; [done|]. intros Hin.
        apply elem_of_cons in Hin as [->|Hin]; done.
Qed.

(** X6.  A new [Backtester] holds exactly the configured tickers, each with
    zero shares and zero value. *)
Theorem init_portfolio cfg t :
  portfolio (init cfg) !! t
  = if decide (t ∈ tickers cfg) then Some {| shares := 0; value := 0 |}
    else None.
Proof.
  unfold init. cbn [portfolio]. rewrite foldl_insert_lookup.
  by rewrite lookup_empty.
Qed.

Lemma precalculate_signals_lookup_gen strat all_data tks
    (m : gmap string (list (Z * Signal))) t :
  foldl (fun sigs t =>
           match all_data !! t with
           | Some (r :: rows) => <[t := generate_signals strat (r :: rows)]> sigs
           | _ => sigs
           end) m tks !! t
  = match all_data !! t with
    | Some (r :: rows) =>
        if decide (t ∈ tks) then Some (generate_signals strat (r :: rows))
        else m !! t
    | _ => m !! t
    end.
Proof.
  revert m. induction tks as [|t0 rest IH]; intros m; cbn [foldl].
  - destruct (all_data !! t) as [[|r rows]|]; try done;
      try (rewrite decide_False; [done|apply not_elem_of_nil]).
  - rewrite IH. destruct (decide (t0 = t)) as [->|Hne].
    + destruct (all_data !! t) as [[|r rows]|]; try done.
      rewrite lookup_insert_eq.
      rewrite (decide_True (P := t ∈ t :: rest)) by (by left).
      by case_decide.
    + assert (Hother : match all_data !! t0 with
                       | Some (r :: rows) =>
                           <[t0 := generate_signals strat (r :: rows)]> m
                       | _ => m
                       end !! t = m !! t).
      { destruct (all_data !! t0) as [[|r rows]|]; try done.
        by rewrite lookup_insert_ne. }
      rewrite Hother.
      destruct (all_data !! t) as [[|r rows]|]; try done.
      destruct (decide (t ∈ rest)) as [Hin|Hnotin].
      * rewrite decide_True; [done|]. by right.
      * rewrite decide_False; [done|]. intros Hin.
        apply elem_of_cons in Hin as [->|Hin]; done.
Qed.

Lemma loc_nonempty (df : list (Z * Q)) d p : loc df d = Some p -> df <> [].
Proof. by destruct df. Qed.

Lemma precalculate_signals_lookup strat all_data tks t :
  precalculate_signals strat all_data tks !! t
  = match all_data !! t with
    | Some (r :: rows) =>
        if decide (t ∈ tks) then Some (generate_signals strat (r :: rows))
        else None
    | _ => None
    end.
Proof.
  unfold precalculate_signals. rewrite precalculate_signals_lookup_gen.
  rewrite lookup_empty. by destruct (all_data !! t) as [[|r rows]|].
Qed.

Lemma precalculate_signals_priced strat all_data tks t d p :
  t ∈ tks ->
  close_on all_data t d = Some p ->
  exists df,
    all_data !! t = Some df /\ loc df d = Some p /\
    precalculate_signals strat all_data tks !! t
    = Some (generate_signals strat df).
Proof.
  intros Hin Hp. unfold close_on in Hp.
  destruct (all_data !! t) as [df|] eqn:Hdf; [|discriminate]. simpl in Hp.
  exists df. split; [done|]. split; [done|].
  rewrite precalculate_signals_lookup, Hdf.
  destruct df as [|r rows]; [discriminate|]. by rewrite decide_True.
Qed.

(** X7.  The signals computed at the start of [run] have an entry for a
    ticker exactly when the ticker is configured and the provider returned a
    non-empty frame for it; the entry is the strategy's output on that
    frame. *)
Theorem precalculated_signals_keys strat all_data tks t sg :
  precalculate_signals strat all_data tks !! t = Some sg <->
  t ∈ tks /\
  exists df, all_data !! t = Some df /\ df <> [] /\
             sg = generate_signals strat df.
Proof.
  rewrite precalculate_signals_lookup. split.
  - destruct (all_data !! t) as [[|r rows]|]; try discriminate.
    case_decide; [|discriminate]. intros [= <-].
    split; [done|]. by exists (r :: rows).
  - intros (Hin & df & -> & Hne & ->).
    destruct df as [|r rows]; [done|]. by rewrite decide_True.
Qed.

Lemma visit_dom all_data sigs d st pv t st' pv' :
  visit all_data sigs d (st, pv) t = Ok (st', pv') ->
  dom (portfolio st') = dom (portfolio st).
Proof.
  intros Hv. destruct (close_on all_data t d) as [p|] eqn:Hp.
  - destruct (visit_effect _ _ _ _ _ _ _ _ _ Hp Hv)
      as (pos & pos' & Hpos & Hport & _).
    rewrite Hport. apply dom_insert_lookup_L. eauto.
  - rewrite (visit_unpriced _ _ _ _ _ Hp) in Hv. by injection Hv as <- _.
Qed.

Lemma process_date_dom all_data sigs tks st d st' :
  process_date all_data sigs tks st d = Ok st' ->
  dom (portfolio st') = dom (portfolio st).
Proof.
  intros H.
  apply (process_date_invariant
           (fun s => dom (portfolio s) = dom (portfolio st))
           all_data sigs tks) with (st := st) (d := d); [| |done..].
  - intros d0 s pv t s' pv' Hs Hv. by rewrite (visit_dom _ _ _ _ _ _ _ _ Hv).
  - done.
Qed.

(** X8.  A run that returns leaves the set of tickers of the portfolio as
    it was: positions are updated, never added or removed. *)
Theorem run_keeps_portfolio_keys cfg st st' out :
  run cfg st = Ok (st', out) ->
  dom (portfolio st') = dom (portfolio st).
Proof.
  intros Hrun. apply run_simulated in Hrun.
  apply (foldM_invariant (fun s => dom (portfolio s) = dom (portfolio st))
           (day_step cfg) (simulated_dates cfg)) with (b := st); [|done..].
  intros s d s' Hs Hd. unfold day_step in Hd.
  by rewrite (process_date_dom _ _ _ _ _ _ Hd).
Qed.

Lemma foldM_Raise {A B} (P : B -> Prop) (Q : exn -> Prop)
    (f : B -> A -> result B) l :
  (forall b a b', P b -> a ∈ l -> f b a = Ok b' -> P b') ->
  (forall b a e, P b -> a ∈ l -> f b a = Raise e -> Q e) ->
  forall b e, P b -> foldM f b l = Raise e -> Q e.
Proof.
  induction l as [|a rest IH]; intros Hok Hraise b e Hb Hfold;
    [discriminate|].
  cbn [foldM] in Hfold. destruct (f b a) as [b1|e1] eqn:Hf.
  - cbn in Hfold. apply (IH) with (b := b1); [| | |done].
    + intros b0 a0 b' H0 Hin. apply Hok; [done|by right].
    + intros b0 a0 e0 H0 Hin. apply Hraise; [done|by right].
    + apply (Hok b a); [done|by left|done].
  - cbn in Hfold. injection Hfold as <-.
    apply (Hraise b a); [done|by left|done].
Qed.

(** The trade rule raises only on a BUY at a close of zero. *)
Lemma execute_trade_Raise sig p d t st pos e :
  portfolio st !! t = Some pos ->
  execute_trade sig p d t st = Raise e ->
  e = OverflowError /\ sig = BUY /\ (p == 0)%Q /\ (0 < cash st)%Q.
Proof.
  intros Hpos. unfold execute_trade.
  destruct (bool_decide (sig = BUY)) eqn:Eb; cbn [andb].
  - apply bool_decide_eq_true_1 in Eb. subst sig.
    destruct (Qltb p (cash st)) eqn:Ec.
    + apply Qltb_true in Ec. destruct (Qeq_dec p 0) as [Hz|Hnz].
      * rewrite int_fdiv_zero by lra. cbn. intros [= <-].
        repeat split; [done|lra].
      * rewrite fdiv_nonzero by done. cbn.
        destruct (0 <? _)%Z; [|discriminate].
        rewrite (getitem_Some _ _ _ Hpos). discriminate.
    + rewrite bool_decide_eq_false_2 by done. discriminate.
  - destruct (bool_decide (sig = SELL)); [|discriminate].
    rewrite (getitem_Some _ _ _ Hpos). cbn.
    destruct (0 <? shares pos)%Z; discriminate.
Qed.

Lemma visit_Raise strat all_data tks d st pv t e :
  t ∈ tks -> is_Some (portfolio st !! t) ->
  visit all_data (precalculate_signals strat all_data tks) d (st, pv) t
    = Raise e ->
  e = OverflowError /\
  exists p, close_on all_data t d = Some p /\ (p == 0)%Q.
Proof.
  intros Hin [pos Hpos] Hv.
  destruct (close_on all_data t d) as [p|] eqn:Hp;
    [|by rewrite (visit_unpriced _ _ _ _ _ Hp) in Hv].
  destruct (precalculate_signals_priced strat _ _ _ _ _ Hin Hp)
    as (df & _ & _ & Hsigs).
  rewrite (visit_priced _ _ _ _ _ _ _ _ _ Hp Hpos Hsigs) in Hv.
  destruct (execute_trade _ _ _ _ _) as [s1|e1] eqn:Hex; [discriminate|].
  cbn in Hv. injection Hv as <-.
  destruct (execute_trade_Raise _ _ _ _ _ _ _ (revalued_lookup _ _ _ _) Hex)
    as (-> & _ & Hz & _).
  split; [done|]. by exists p.
Qed.

Lemma process_date_Raise strat all_data tks st d e :
  (forall t, t ∈ tks -> is_Some (portfolio st !! t)) ->
  process_date all_data (precalculate_signals strat all_data tks) tks st d
    = Raise e ->
  e = OverflowError /\
  exists t p, t ∈ tks /\ close_on all_data t d = Some p /\ (p == 0)%Q.
Proof.
  intros Hkeys. unfold process_date.
  destruct (foldM _ _ tks) as [acc|e1] eqn:Hfold; [discriminate|].
  cbn. intros [= <-].
  apply (foldM_Raise
           (fun acc : State * Q => dom (portfolio acc.1) = dom (portfolio st))
           (fun e => e = OverflowError /\
                     exists t p, t ∈ tks /\ close_on all_data t d = Some p /\
                                 (p == 0)%Q)
           (visit all_data (precalculate_signals strat all_data tks) d) tks)
    with (b := (st, cash st)); [| |done|done].
  - intros [s q] t [s' q'] Hs Hin Hv. simpl in *.
    by rewrite (visit_dom _ _ _ _ _ _ _ _ Hv).
  - intros [s q] t e0 Hs Hin Hv. simpl in Hs.
    assert (Hkey : is_Some (portfolio s !! t)).
    { apply elem_of_dom. rewrite Hs. apply elem_of_dom. by apply Hkeys. }
    destruct (visit_Raise _ _ _ _ _ _ _ _ Hin Hkey Hv) as (-> & p & Hp & Hz).
    split; [done|]. by exists t, p.
Qed.

Lemma run_Raise cfg st e :
  (forall t, t ∈ tickers cfg -> is_Some (portfolio st !! t)) ->
  run cfg st = Raise e ->
  e = OverflowError /\
  exists t d p, t ∈ tickers cfg /\ d ∈ simulated_dates cfg /\
                close_on (fetched cfg) t d = Some p /\ (p == 0)%Q.
Proof.
  intros Hkeys. unfold run. fold (fetched cfg).
  unfold simulated_dates.
  destruct (decide (dom (fetched cfg) = ∅)) as [He|Hne]; [discriminate|].
  fold (day_step cfg).
  destruct (foldM (day_step cfg) st _) as [s1|e1] eqn:Hfold; [discriminate|].
  cbn. intros [= <-].
  apply (foldM_Raise
           (fun s => dom (portfolio s) = dom (portfolio st))
           (fun e => e = OverflowError /\
                     exists t d p, t ∈ tickers cfg /\
                                   d ∈ sim_dates cfg (fetched cfg) /\
                                   close_on (fetched cfg) t d = Some p /\
                                   (p == 0)%Q)
           (day_step cfg) (sim_dates cfg (fetched cfg))) with (b := st);
    [| |done|done].
  - intros s d s' Hs Hin Hd. unfold day_step in Hd.
    by rewrite (process_date_dom _ _ _ _ _ _ Hd).
  - intros s d e0 Hs Hin Hd. unfold day_step in Hd.
    apply process_date_Raise in Hd as (-> & t & p & Ht & Hp & Hz).
    + split; [done|]. by exists t, d, p.
    + intros t Ht. apply elem_of_dom. rewrite Hs. apply elem_of_dom.
      by apply Hkeys.
Qed.

Lemma close_on_rows (P : Q -> Prop) all_data :
  map_Forall (fun _ df => Forall (fun row => P row.2) df) all_data ->
  forall t d p, close_on all_data t d = Some p -> P p.
Proof.
  intros Hall t d p. unfold close_on.
  destruct (all_data !! t) as [df|] eqn:Ht; [|discriminate]. simpl.
  intros Hloc. apply loc_In in Hloc.
  pose proof (Hall _ _ Ht) as Hdf. rewrite Forall_forall in Hdf.
  apply (Hdf (d, p)). by apply list_elem_of_In.
Qed.

(** X9.  When no fetched frame lists a date twice, every configured ticker
    has a position and no fetched close is zero, [run] returns: it raises
    nothing. *)
Theorem run_returns_when_no_close_is_zero cfg st :
  distinct_dates (fetched cfg) ->
  (forall t, t ∈ tickers cfg -> is_Some (portfolio st !! t)) ->
  (forall t d p, close_on (fetched cfg) t d = Some p -> ~ (p == 0)%Q) ->
  exists st' out, run cfg st = Ok (st', out).
Proof.
  intros _ Hkeys Hprices.
  destruct (run cfg st) as [[st' out]|e] eqn:Hrun; [by exists st', out|].
  destruct (run_Raise _ _ _ Hkeys Hrun) as (_ & t & d & p & _ & _ & Hp & Hz).
  by destruct (Hprices _ _ _ Hp).
Qed.

(** X10.  On frames that list no date twice, a run of a new instance that
    raises does so with [OverflowError], and some configured ticker has a
    close of zero on a simulated date. *)
Theorem run_raises_only_on_zero_close cfg e :
  distinct_dates (fetched cfg) ->
  run cfg (init cfg) = Raise e ->
  e = OverflowError /\
  exists t d p, t ∈ tickers cfg /\ d ∈ simulated_dates cfg /\
                close_on (fetched cfg) t d = Some p /\ (p == 0)%Q.
Proof.
  intros _. apply run_Raise. intros t Ht. unfold init. cbn [portfolio].
  rewrite foldl_insert_lookup. by rewrite decide_True.
Qed.

Section Accounting.
Import Ledger.

Lemma cash_flow_app a b : (cash_flow (a ++ b) == cash_flow a + cash_flow b)%Q.
Proof.
  unfold cash_flow. induction a as [|x a IH]; simpl; [ring|].
  rewrite IH. ring.
Qed.

Lemma net_shares_app t a b :
  net_shares t (a ++ b) = (net_shares t a + net_shares t b)%Z.
Proof.
  unfold net_shares. induction a as [|x a IH]; simpl; [done|].
  rewrite IH. lia.
Qed.

Lemma accounted_refl P st : accounted P [] st st.
Proof.
  split; [by rewrite app_nil_r|]. split; [constructor|].
  split; [unfold cash_flow; simpl; ring|].
  intros t. unfold net_shares. simpl. lia.
Qed.

Lemma accounted_trans P a b st1 st2 st3 :
  accounted P a st1 st2 -> accounted P b st2 st3 ->
  accounted P (a ++ b) st1 st3.
Proof.
  intros (Hl1 & Hp1 & Hc1 & Hs1) (Hl2 & Hp2 & Hc2 & Hs2).
  split; [by rewrite Hl2, Hl1, app_assoc|].
  split; [by apply Forall_app|].
  split; [rewrite Hc2, Hc1, cash_flow_app; ring|].
  intros t. rewrite Hs2, Hs1, net_shares_app. lia.
Qed.

Lemma accounted_impl (P P' : Trade -> Prop) new st st' :
  (forall tr, P tr -> P' tr) -> accounted P new st st' ->
  accounted P' new st st'.
Proof.
  intros Himpl (Hl & Hp & Hc & Hs). split; [done|].
  split; [by eapply Forall_impl|]. by split.
Qed.

Lemma shares_of_insert t pos' st st' t' :
  portfolio st' = <[t := pos']> (portfolio st) ->
  shares_of st' t' = if decide (t = t') then shares pos' else shares_of st t'.
Proof.
  intros Hport. unfold shares_of. rewrite Hport.
  destruct (decide (t = t')) as [->|Hne].
  - by rewrite lookup_insert_eq.
  - by rewrite lookup_insert_ne.
Qed.

(** What the trade rule does is what it logs. *)
Lemma execute_trade_accounted sig p d t st st' pos :
  portfolio st !! t = Some pos ->
  execute_trade sig p d t st = Ok st' ->
  exists new,
    accounted (fun tr => (0 < trade_shares tr)%Z /\ trade_ticker tr = t /\
                         trade_date tr = d /\ trade_price tr = p)
              new st st'.
Proof.
  intros Hpos Hex.
  assert (Hheld : shares_of st t = shares pos)
    by (unfold shares_of; by rewrite Hpos).
  destruct (execute_trade_Ok _ _ _ _ _ _ _ Hpos Hex)
    as [-> | [(n & _ & _ & Hn & _ & ->) | (_ & Hs & ->)]].
  - exists []. apply accounted_refl.
  - eexists [_]. split; [reflexivity|]. split; [by repeat constructor|].
    split.
    + unfold cash_flow, trade_cash. simpl. ring.
    + intros t'. erewrite (shares_of_insert t _ st) by reflexivity.
      unfold net_shares, trade_delta. simpl.
      destruct (decide (t = t')) as [->|Hne]; simpl; lia.
  - eexists [_]. split; [reflexivity|]. split; [by repeat constructor|].
    split.
    + unfold cash_flow, trade_cash. simpl. ring.
    + intros t'. erewrite (shares_of_insert t _ st) by reflexivity.
      unfold net_shares, trade_delta. simpl.
      destruct (decide (t = t')) as [->|Hne]; simpl; lia.
Qed.

Lemma visit_accounted all_data sigs d st pv t st' pv' :
  visit all_data sigs d (st, pv) t = Ok (st', pv') ->
  exists new,
    accounted (fun tr => (0 < trade_shares tr)%Z /\ trade_ticker tr = t /\
                         trade_date tr = d /\
                         close_on all_data t d = Some (trade_price tr))
              new st st'.
Proof.
  intros Hv. destruct (close_on all_data t d) as [p|] eqn:Hp; cycle 1.
  { rewrite (visit_unpriced _ _ _ _ _ Hp) in Hv. injection Hv as <- _.
    exists []. apply accounted_refl. }
  destruct (visit_priced_Ok _ _ _ _ _ _ _ _ _ Hp Hv)
    as (pos & sigs_t & Hpos & _ & _ & Hex).
  destruct (execute_trade_accounted _ _ _ _ _ _ _ (revalued_lookup _ _ _ _) Hex)
    as (new & Hl & HP & Hc & Hs).
  exists new. split; [exact Hl|]. split.
  - eapply Forall_impl; [exact HP|]. intros tr (? & ? & ? & ->). done.
  - split; [exact Hc|]. intros t'. rewrite Hs.
    by rewrite shares_of_revalued.
Qed.

Lemma foldM_accounted {A B} (proj : B -> State) (P : Trade -> Prop)
    (f : B -> A -> result B) l :
  (forall b a b', a ∈ l -> f b a = Ok b' ->
                  exists new, accounted P new (proj b) (proj b')) ->
  forall b b', foldM f b l = Ok b' ->
               exists new, accounted P new (proj b) (proj b').
Proof.
  induction l as [|a rest IH]; intros Hstep b b' Hfold.
  - injection Hfold as <-. exists []. apply accounted_refl.
  - cbn [foldM] in Hfold. destruct (f b a) as [b1|e] eqn:Hf; [|discriminate].
    cbn in Hfold.
    destruct (Hstep b a b1) as (new1 & H1); [by left|done|].
    destruct (IH (fun b0 a0 b0' Hin =>
                    Hstep b0 a0 b0' (proj2 (elem_of_cons rest a0 a) (or_intror Hin)))
                 b1 b' Hfold) as (new2 & H2).
    exists (new1 ++ new2). by eapply accounted_trans.
Qed.

Lemma process_date_accounted all_data sigs tks st d st' :
  process_date all_data sigs tks st d = Ok st' ->
  exists new,
    accounted (fun tr => (0 < trade_shares tr)%Z /\ trade_ticker tr ∈ tks /\
                         trade_date tr = d /\
                         close_on all_data (trade_ticker tr) d
                         = Some (trade_price tr))
              new st st'.
Proof.
  intros H. destruct (process_date_Ok _ _ _ _ _ _ H) as (st1 & pv & Hfold & ->).
  destruct (foldM_accounted fst
              (fun tr => (0 < trade_shares tr)%Z /\ trade_ticker tr ∈ tks /\
                         trade_date tr = d /\
                         close_on all_data (trade_ticker tr) d
                         = Some (trade_price tr))
              (visit all_data sigs d) tks) with (b := (st, cash st))
                                                 (b' := (st1, pv))
    as (new & Hl & HP & Hc & Hs); [|done|].
  - intros [s q] t [s' q'] Hin Hv.
    destruct (visit_accounted _ _ _ _ _ _ _ _ Hv) as (new & Hacc).
    exists new. eapply accounted_impl; [|exact Hacc].
    intros tr (? & <- & ? & ?). done.
  - exists new. by split.
Qed.

Lemma run_accounted cfg st st' out :
  run cfg st = Ok (st', out) ->
  exists new,
    accounted (fun tr => (0 < trade_shares tr)%Z /\
                         trade_ticker tr ∈ tickers cfg /\
                         trade_date tr ∈ simulated_dates cfg /\
                         close_on (fetched cfg) (trade_ticker tr) (trade_date tr)
                         = Some (trade_price tr))
              new st st'.
Proof.
  intros Hrun. apply run_simulated in Hrun.
  apply (foldM_accounted id _ (day_step cfg) (simulated_dates cfg));
    [|exact Hrun].
  intros s d s' Hin Hd. unfold day_step in Hd.
  destruct (process_date_accounted _ _ _ _ _ _ Hd) as (new & Hacc).
  exists new. eapply accounted_impl; [|exact Hacc].
  intros tr (? & ? & -> & ?). done.
Qed.

(** X11.  Every trade a run appends to the log has a positive number of
    shares, a configured ticker, a simulated date, and as its price the
    ticker's close on that date; the earlier entries of the log are kept. *)
Theorem logged_trades_are_real cfg st st' out :
  run cfg st = Ok (st', out) ->
  exists new,
    trade_log st' = trade_log st ++ new /\
    Forall (fun tr => (0 < trade_shares tr)%Z /\
                      trade_ticker tr ∈ tickers cfg /\
                      trade_date tr ∈ simulated_dates cfg /\
                      close_on (fetched cfg) (trade_ticker tr) (trade_date tr)
                      = Some (trade_price tr))
           new.
Proof.
  intros Hrun. destruct (run_accounted _ _ _ _ Hrun) as (new & Hl & HP & _).
  by exists new.
Qed.

(** X12.  The trade log accounts for the state: over a run, cash changes by
    the signed sum of the logged trades' amounts and each ticker's shares by
    the signed sum of its logged shares.  On a new instance cash is the
    initial capital plus the log's cash flow and the shares are the log's net
    shares. *)
Theorem trade_log_explains_portfolio cfg st st' out :
  run cfg st = Ok (st', out) ->
  (exists new,
     trade_log st' = trade_log st ++ new /\
     (cash st' == cash st + cash_flow new)%Q /\
     forall t, shares_of st' t = (shares_of st t + net_shares t new)%Z) /\
  (st = init cfg ->
   (cash st' == initial_capital cfg + cash_flow (trade_log st'))%Q /\
   forall t, shares_of st' t = net_shares t (trade_log st')).
Proof.
  intros Hrun.
  destruct (run_accounted _ _ _ _ Hrun) as (new & Hl & _ & Hc & Hs).
  split; [by exists new|].
  intros ->. simpl in Hl. rewrite Hl. split; [exact Hc|].
  intros t. rewrite Hs. unfold shares_of at 1. unfold init. cbn [portfolio].
  rewrite foldl_insert_lookup, lookup_empty. by case_decide.
Qed.

End Accounting.

Lemma simulation_last all_data sigs tks :
  NoDup tks ->
  forall ds st st' d_last,
    last ds = Some d_last ->
    foldM (process_date all_data sigs tks) st ds = Ok st' ->
    exists v,
      last (portfolio_history st') = Some (d_last, v) /\
      (v == cash st' + holdings_value all_data tks d_last st')%Q.
Proof.
  intros Hnd. induction ds as [|d rest IH]; intros st st' d_last Hlast Hfold;
    [discriminate|].
  cbn [foldM] in Hfold.
  destruct (process_date all_data sigs tks st d) as [st1|e] eqn:Hd;
    [|discriminate].
  cbn in Hfold. destruct rest as [|d2 rest'].
  - injection Hlast as <-. injection Hfold as <-.
    destruct (process_date_effect _ _ _ _ _ _ Hnd Hd) as (v & Hh & _ & Hv & _).
    exists v. split; [|done]. rewrite Hh. apply last_snoc.
  - by apply (IH st1).
Qed.

(** X13.  With distinct tickers, the reported final portfolio value equals
    the final cash plus the final shares of the tickers priced on the last
    simulated date, at that date's closes; the reported number of trades is
    the length of the log. *)
Theorem final_value_is_cash_plus_holdings cfg st st' out d_last :
  NoDup (tickers cfg) ->
  run cfg st = Ok (st', out) ->
  last (simulated_dates cfg) = Some d_last ->
  exists r,
    out = ret_report r (portfolio_history st') (trade_log st') /\
    (final_portfolio_value r
       == cash st' + holdings_value (fetched cfg) (tickers cfg) d_last st')%Q /\
    total_trades r = length (trade_log st').
Proof.
  intros Hnd Hrun Hlast.
  pose proof (run_simulated _ _ _ _ Hrun) as Hsim.
  destruct (simulation_last _ _ _ Hnd _ _ _ _ Hlast Hsim) as (v & Hv & Heq).
  assert (Hdom : dom (fetched cfg) <> ∅).
  { apply simulated_dates_nonempty. intros E. by rewrite E in Hlast. }
  rewrite (run_output _ _ _ _ Hrun), decide_False by done.
  destruct (portfolio_history st') as [|[fd v0] rest] eqn:Hh; [discriminate|].
  destruct (calculate_performance_metrics_report cfg st' _ _ _ Hh)
    as (ld & fv & Hl & Hrep).
  rewrite Hh in Hl. rewrite Hl in Hv. injection Hv as -> ->.
  eexists. rewrite Hh in Hrep. split; [exact Hrep|]. by split.
Qed.

Lemma StronglySorted_filter_keep {A} (R : relation A) (P : A -> Prop)
    `{forall x, Decision (P x)} l :
  StronglySorted R l -> StronglySorted R (filter P l).
Proof.
  induction 1 as [|x l Hl IH Hx]; [constructor|].
  rewrite filter_cons. case_decide; [|done].
  constructor; [done|]. apply Forall_forall. intros y Hy.
  apply list_elem_of_filter in Hy as [_ Hy].
  rewrite Forall_forall in Hx. by apply Hx.
Qed.

Lemma StronglySorted_le_lt (l : list Z) :
  StronglySorted Z.le l -> NoDup l -> StronglySorted Z.lt l.
Proof.
  induction 1 as [|x l Hl IH Hx]; intros Hnd; [constructor|].
  apply NoDup_cons in Hnd as [Hnotin Hnd].
  constructor; [by apply IH|].
  rewrite Forall_forall in Hx. apply Forall_forall. intros y Hy.
  apply list_elem_of_In in Hy as Hy'.
  assert (x <> y) by (intros ->; done).
  specialize (Hx y Hy). lia.
Qed.

Lemma elem_of_unified_dates all_data d :
  d ∈ unified_dates all_data <->
  exists t df c, all_data !! t = Some df /\ (d, c) ∈ df.
Proof.
  unfold unified_dates. rewrite merge_sort_Permutation, elem_of_elements.
  rewrite elem_of_union_list. split.
  - intros (X & HX & Hd).
    apply list_elem_of_In, in_map_iff in HX as ([t df] & <- & Hin).
    apply list_elem_of_In, elem_of_map_to_list in Hin.
    apply elem_of_list_to_set in Hd. unfold index in Hd.
    apply list_elem_of_In, in_map_iff in Hd as ([d' c] & Hfst & Hrow).
    simpl in Hfst. subst d'. exists t, df, c. split; [done|].
    by apply list_elem_of_In.
  - intros (t & df & c & Hdf & Hrow).
    exists (list_to_set (index df)). split.
    + apply list_elem_of_In, in_map_iff. exists (t, df). split; [done|].
      by apply list_elem_of_In, elem_of_map_to_list.
    + apply elem_of_list_to_set. unfold index.
      apply list_elem_of_In, in_map_iff. exists (d, c). split; [done|].
      by apply list_elem_of_In.
Qed.

Lemma unified_dates_sorted all_data :
  StronglySorted Z.lt (unified_dates all_data).
Proof.
  apply StronglySorted_le_lt.
  - apply StronglySorted_merge_sort; apply _.
  - unfold unified_dates. rewrite merge_sort_Permutation. apply NoDup_elements.
Qed.

(** X16.  For data with at least one ticker (line 39 returns otherwise) the
    simulated dates are strictly increasing, so without duplicates, and are
    exactly the dates within the configured range that
    occur in the index of some fetched frame. *)
Theorem sim_dates_is_sorted_calendar cfg all_data :
  all_data <> ∅ ->
  StronglySorted Z.lt (sim_dates cfg all_data) /\
  forall d,
    d ∈ sim_dates cfg all_data <->
    (start_date cfg <= d <= end_date cfg)%Z /\
    exists t df c, all_data !! t = Some df /\ (d, c) ∈ df.
Proof.
  intros _. split.
  - unfold sim_dates. apply StronglySorted_filter_keep, unified_dates_sorted.
  - intros d. unfold sim_dates.
    rewrite list_elem_of_filter, elem_of_unified_dates. tauto.
Qed.

Lemma simulated_dates_sorted cfg : StronglySorted Z.lt (simulated_dates cfg).
Proof.
  unfold simulated_dates. case_decide; [constructor|].
  unfold sim_dates. apply StronglySorted_filter_keep, unified_dates_sorted.
Qed.

(** X17.  A run of a new instance that returns records one snapshot per
    simulated date, in increasing order of date. *)
Theorem fresh_run_history_follows_calendar cfg st' out :
  run cfg (init cfg) = Ok (st', out) ->
  map fst (portfolio_history st') = simulated_dates cfg /\
  StronglySorted Z.lt (map fst (portfolio_history st')).
Proof.
  intros Hrun. apply run_simulated in Hrun.
  destruct (simulation_log _ _ _ _ _ _ Hrun) as ((snaps & Hh & Hd) & _).
  simpl in Hh. subst snaps. fold (simulated_dates cfg) in Hd.
  split; [done|]. rewrite Hd. apply simulated_dates_sorted.
Qed.

(** X18.  On frames that list no date twice, a BUY signal at a close of zero
    with positive cash raises
    [OverflowError], which ends the whole ticker loop of the day. *)
Theorem buy_at_zero_close_raises all_data sigs d st pv t p pos sigs_t rest :
  distinct_dates all_data ->
  close_on all_data t d = Some p ->
  portfolio st !! t = Some pos ->
  sigs !! t = Some sigs_t ->
  series_get sigs_t d HOLD = BUY ->
  (p == 0)%Q -> (0 < cash st)%Q ->
  visit all_data sigs d (st, pv) t = Raise OverflowError /\
  foldM (visit all_data sigs d) (st, pv) (t :: rest) = Raise OverflowError.
Proof.
  intros _ Hp Hpos Hsigs Hbuy Hz Hcash.
  assert (Hv : visit all_data sigs d (st, pv) t = Raise OverflowError).
  { rewrite (visit_priced _ _ _ _ _ _ _ _ _ Hp Hpos Hsigs), Hbuy.
    by rewrite execute_trade_BUY_zero_price. }
  split; [done|]. cbn [foldM]. by rewrite Hv.
Qed.

(** X19.  On frames that list no date twice, a BUY signal at a negative
    close with non-negative cash buys
    nothing: the position is only revalued. *)
Theorem buy_at_negative_close_trades_nothing
    all_data sigs d st pv t p pos sigs_t :
  distinct_dates all_data ->
  close_on all_data t d = Some p ->
  portfolio st !! t = Some pos ->
  sigs !! t = Some sigs_t ->
  series_get sigs_t d HOLD = BUY ->
  (p < 0)%Q -> (0 <= cash st)%Q ->
  visit all_data sigs d (st, pv) t
  = Ok (revalued t p pos st, (pv + inject_Z (shares pos) * p)%Q).
Proof.
  intros _ Hp Hpos Hsigs Hbuy Hneg Hcash.
  rewrite (visit_priced _ _ _ _ _ _ _ _ _ Hp Hpos Hsigs), Hbuy.
  destruct (execute_trade BUY p d t (revalued t p pos st)) as [st1|e] eqn:Hex.
  - destruct (execute_trade_Ok _ _ _ _ _ _ _ (revalued_lookup _ _ _ _) Hex)
      as [-> | [(n & _ & _ & Hn & Hint & _) | (Hs & _)]];
      [done| |discriminate].
    assert (Hx : (0 <= cash (revalued t p pos st) * (1 # 10))%Q)
      by (change (cash (revalued t p pos st)) with (cash st); lra).
    destruct (int_fdiv_bought _ _ _ Hx Hint Hn) as (Hpos_p & _). lra.
  - destruct (execute_trade_Raise _ _ _ _ _ _ _ (revalued_lookup _ _ _ _) Hex)
      as (_ & _ & Hz & _). lra.
Qed.

Lemma fmin_fold_finite (l : list float) (a : Q) :
  Forall (fun f => exists q, f = Fin q) l ->
  let r := foldl (fun m x => match x, m with
                             | NaN, _ => m
                             | _, NaN => x
                             | _, _ => if fle m x then m else x
                             end) (Fin a) l in
  r = Fin a \/ r ∈ l.
Proof.
  revert a. induction l as [|x rest IH]; intros a Hl; simpl; [by left|].
  apply Forall_cons in Hl as [(q & ->) Hrest]. simpl.
  destruct (Qle_bool a q).
  - destruct (IH a Hrest) as [H|H]; [left; exact H|right; by right].
  - destruct (IH q Hrest) as [H|H]; right.
    + rewrite H. by left.
    + by right.
Qed.

Lemma fmin_skipna_finite (l : list float) :
  l <> [] -> Forall (fun f => exists q, f = Fin q) l -> fmin_skipna l ∈ l.
Proof.
  intros Hne Hl. destruct l as [|x rest]; [done|].
  apply Forall_cons in Hl as [(q & ->) Hrest].
  unfold fmin_skipna. cbn [foldl].
  destruct (fmin_fold_finite rest q Hrest) as [H|H].
  - cbv zeta in H. rewrite H. by left.
  - by right.
Qed.

Lemma cummax_from_drawdown (R : Q -> Prop) m vs :
  (0 < m)%Q -> Forall (fun v => (0 < v)%Q) vs ->
  (forall q, (q == 0)%Q -> R q) ->
  (forall peak v, (0 < peak)%Q -> (v < peak)%Q -> R ((v - peak) / peak)%Q) \/
  StronglySorted Qle (m :: vs) ->
  Forall (fun f => exists q, f = Fin q /\ R q)
         (zip_with (fun v p => fdiv (v - p)%Q p) vs (cummax_from m vs)).
Proof.
  intros Hm Hvs Hzero. revert m Hm.
  induction vs as [|v rest IH]; intros m Hm Hcase; simpl; [constructor|].
  apply Forall_cons in Hvs as [Hv Hrest].
  destruct (Qltb m v) eqn:E.
  - apply Qltb_true in E. constructor.
    + rewrite fdiv_nonzero by lra. eexists. split; [done|].
      apply Hzero. field. lra.
    + apply IH; [done|done|]. destruct Hcase as [Hcase|Hs]; [by left|right].
      apply StronglySorted_inv in Hs as [Hs _]. done.
  - apply Qltb_false in E. constructor.
    + rewrite fdiv_nonzero by lra. eexists. split; [done|].
      destruct Hcase as [Hcase|Hs].
      * destruct (Qeq_dec v m) as [Heq|Hneq].
        -- apply Hzero. rewrite Heq. field. lra.
        -- apply Hcase; [done|]. lra.
      * apply StronglySorted_inv in Hs as [_ Hall].
        apply Forall_cons in Hall as [Hmv _].
        apply Hzero. assert (Heq : (v == m)%Q) by lra. rewrite Heq. field. lra.
    + apply IH; [done|done|]. destruct Hcase as [Hcase|Hs]; [by left|right].
      apply StronglySorted_inv in Hs as [Hs Hall].
      apply StronglySorted_inv in Hs as [Hs' _].
      apply Forall_cons in Hall as [_ Hall]. by constructor.
Qed.

Lemma drawdown_positive (R : Q -> Prop) vs :
  Forall (fun v => (0 < v)%Q) vs ->
  (forall q, (q == 0)%Q -> R q) ->
  (forall peak v, (0 < peak)%Q -> (v < peak)%Q -> R ((v - peak) / peak)%Q) \/
  StronglySorted Qle vs ->
  Forall (fun f => exists q, f = Fin q /\ R q) (drawdown vs).
Proof.
  intros Hvs Hzero Hcase. unfold drawdown. destruct vs as [|v rest]; simpl;
    [constructor|].
  apply Forall_cons in Hvs as [Hv Hrest]. constructor.
  - rewrite fdiv_nonzero by lra. eexists. split; [done|].
    apply Hzero. field. lra.
  - by apply cummax_from_drawdown.
Qed.

Lemma max_drawdown_in (R : Q -> Prop) vs :
  vs <> [] ->
  Forall (fun f => exists q, f = Fin q /\ R q) (drawdown vs) ->
  exists q, fmin_skipna (drawdown vs) = Fin q /\ R q.
Proof.
  intros Hne Hall.
  assert (Hd : drawdown vs <> []) by (by destruct vs).
  assert (Hfin : Forall (fun f => exists q, f = Fin q) (drawdown vs)).
  { eapply Forall_impl; [exact Hall|]. intros f (q & -> & _). by exists q. }
  pose proof (fmin_skipna_finite _ Hd Hfin) as Hin.
  rewrite Forall_forall in Hall. by apply Hall.
Qed.

(** X14.  When all recorded values are positive the reported maximum drawdown
    is a finite number, at most zero, and zero when the values never fall. *)
Theorem max_drawdown_is_never_positive cfg st r h l :
  calculate_performance_metrics cfg st = ret_report r h l ->
  Forall (fun snap => (0 < snap.2)%Q) (portfolio_history st) ->
  exists q,
    max_drawdown_pct r = Fin q /\ (q <= 0)%Q /\
    (StronglySorted Qle (map snd (portfolio_history st)) -> (q == 0)%Q).
Proof.
  intros Hrep Hpos.
  destruct (portfolio_history st) as [|[fd v0] rest] eqn:Hh.
  { by rewrite calculate_performance_metrics_empty in Hrep. }
  destruct (calculate_performance_metrics_report cfg st _ _ _ Hh)
    as (ld & fv & _ & Hrep').
  rewrite Hrep' in Hrep. injection Hrep as <- _ _. cbn [max_drawdown_pct].
  rewrite Hh.
  set (vs := map snd ((fd, v0) :: rest)).
  assert (Hvs : Forall (fun v => (0 < v)%Q) vs).
  { subst vs. apply Forall_forall. intros v Hv.
    apply list_elem_of_In, in_map_iff in Hv as (snap & <- & Hsnap).
    rewrite Forall_forall in Hpos. apply Hpos. by apply list_elem_of_In. }
  assert (Hne : vs <> []) by done.
  destruct (max_drawdown_in (fun q => (q <= 0)%Q) vs Hne) as (q & Hq & Hle).
  { apply drawdown_positive; [done|intros q0 H0; lra|].
    left. intros peak v Hp Hv.
    apply Qle_shift_div_r; [done|]. lra. }
  exists (q * 100)%Q. rewrite Hq. cbn [fscale].
  split; [done|]. split; [lra|].
  intros Hsorted.
  destruct (max_drawdown_in (fun q => (q == 0)%Q) vs Hne) as (q' & Hq' & Hz).
  { apply drawdown_positive; [done|done|by right]. }
  rewrite Hq in Hq'. injection Hq' as ->. rewrite Hz. ring.
Qed.

Lemma foldM_Ok_inv {A B} (P : B -> Prop) (f : B -> A -> result B) l :
  (forall b a, P b -> a ∈ l -> exists b', f b a = Ok b' /\ P b') ->
  forall b, P b -> exists b', foldM f b l = Ok b' /\ P b'.
Proof.
  induction l as [|a rest IH]; intros Hstep b Hb; [by exists b|].
  destruct (Hstep b a Hb) as (b1 & Hf & Hb1); [by left|].
  destruct (IH (fun b0 a0 H0 Hin =>
                  Hstep b0 a0 H0 (proj2 (elem_of_cons rest a0 a) (or_intror Hin)))
               b1 Hb1) as (b' & Hfold & Hb').
  exists b'. split; [|done]. cbn [foldM]. by rewrite Hf.
Qed.

Lemma series_get_all_hold (sg : list (Z * Signal)) d :
  Forall (fun entry => entry.2 = HOLD) sg -> series_get sg d HOLD = HOLD.
Proof.
  induction 1 as [|[d' sig] rest Hsig _ IH]; simpl; [done|].
  simpl in Hsig. subst sig. by destruct (Z.eqb d' d).
Qed.

(** A state in which nothing has been traded yet. *)
Lemma visit_idle strat all_data tks d c st pv t :
  (forall t sg d, precalculate_signals strat all_data tks !! t = Some sg ->
                  series_get sg d HOLD = HOLD) ->
  t ∈ tks ->
  (cash st = c /\ trade_log st = [] /\
   forall t, t ∈ tks -> exists pos, portfolio st !! t = Some pos /\
                                    shares pos = 0%Z) ->
  (pv == c)%Q ->
  exists st1 pv1,
    visit all_data (precalculate_signals strat all_data tks) d (st, pv) t
      = Ok (st1, pv1) /\
    (cash st1 = c /\ trade_log st1 = [] /\
     forall t, t ∈ tks -> exists pos, portfolio st1 !! t = Some pos /\
                                      shares pos = 0%Z) /\
    (pv1 == c)%Q /\ portfolio_history st1 = portfolio_history st.
Proof.
  intros Hhold Hin (Hcash & Hlog & Hflat) Hpv.
  destruct (close_on all_data t d) as [p|] eqn:Hp; cycle 1.
  { exists st, pv. rewrite (visit_unpriced _ _ _ _ _ Hp). done. }
  destruct (Hflat t Hin) as (pos & Hpos & Hzero).
  destruct (precalculate_signals_priced strat _ _ _ _ _ Hin Hp)
    as (df & _ & _ & Hsigs).
  exists (revalued t p pos st), (pv + inject_Z (shares pos) * p)%Q.
  split.
  - rewrite (visit_priced _ _ _ _ _ _ _ _ _ Hp Hpos Hsigs).
    by rewrite (Hhold _ _ d Hsigs).
  - split; [|split; [|done]].
    + split; [done|]. split; [done|]. intros t' Ht'.
      destruct (decide (t = t')) as [<-|Hne].
      * eexists. split; [apply revalued_lookup|done].
      * destruct (Hflat t' Ht') as (pos' & Hpos' & Hz').
        exists pos'. split; [|done]. unfold revalued. cbn [portfolio set_position].
        by rewrite lookup_insert_ne.
    + rewrite Hzero. change (inject_Z 0) with 0%Q. lra.
Qed.

Lemma process_date_idle strat all_data tks d c st :
  (forall t sg d, precalculate_signals strat all_data tks !! t = Some sg ->
                  series_get sg d HOLD = HOLD) ->
  (cash st = c /\ trade_log st = [] /\
   forall t, t ∈ tks -> exists pos, portfolio st !! t = Some pos /\
                                    shares pos = 0%Z) ->
  exists st' v,
    process_date all_data (precalculate_signals strat all_data tks) tks st d
      = Ok st' /\
    (cash st' = c /\ trade_log st' = [] /\
     forall t, t ∈ tks -> exists pos, portfolio st' !! t = Some pos /\
                                      shares pos = 0%Z) /\
    portfolio_history st' = portfolio_history st ++ [(d, v)] /\ (v == c)%Q.
Proof.
  intros Hhold Hidle.
  destruct (foldM_Ok_inv
              (fun acc : State * Q =>
                 (cash acc.1 = c /\ trade_log acc.1 = [] /\
                  forall t, t ∈ tks ->
                            exists pos, portfolio acc.1 !! t = Some pos /\
                                        shares pos = 0%Z) /\
                 (acc.2 == c)%Q /\
                 portfolio_history acc.1 = portfolio_history st)
              (visit all_data (precalculate_signals strat all_data tks) d) tks)
    with (b := (st, cash st)) as ([st1 pv1] & Hfold & Hidle1 & Hpv1 & Hh1).
  - intros [s q] t (Hs & Hq & Hh) Hin. simpl in *.
    destruct (visit_idle strat all_data tks d c s q t Hhold Hin Hs Hq)
      as (s1 & q1 & Hv & Hs1 & Hq1 & Hh').
    exists (s1, q1). simpl. split; [done|]. split; [done|]. split; [done|].
    congruence.
  - simpl. split; [done|]. split; [|done]. destruct Hidle as [-> _]. reflexivity.
  - simpl in *. exists (record_snapshot d pv1 st1), pv1.
    unfold process_date. rewrite Hfold. cbn.
    split; [done|]. split; [done|]. by rewrite Hh1.
Qed.

(** X15.  With the moving-average strategy, no date listed twice in a frame
    and fewer rows than the long window for every ticker, a run of a new instance returns, trades nothing,
    keeps the cash, and records the initial capital on every simulated
    date. *)
Theorem short_history_run_is_flat cfg s :
  distinct_dates (fetched cfg) ->
  strategy cfg = simple_ma s ->
  (forall t df, fetched cfg !! t = Some df ->
                (length df < SimpleMA.long_window s)%nat) ->
  exists st' out,
    run cfg (init cfg) = Ok (st', out) /\
    trade_log st' = [] /\
    cash st' = initial_capital cfg /\
    map fst (portfolio_history st') = simulated_dates cfg /\
    Forall (fun snap => (snap.2 == initial_capital cfg)%Q)
           (portfolio_history st').
Proof.
  intros _ Hstrat Hshort.
  assert (Hhold : forall t sg d,
             precalculate_signals (strategy cfg) (fetched cfg) (tickers cfg) !! t
             = Some sg -> series_get sg d HOLD = HOLD).
  { intros t sg d. rewrite precalculate_signals_lookup.
    destruct (fetched cfg !! t) as [[|r rows]|] eqn:Hdf; try discriminate.
    case_decide; [|discriminate]. intros [= <-].
    apply series_get_all_hold. rewrite Hstrat. cbn [generate_signals simple_ma].
    unfold SimpleMA.generate_signals.
    rewrite (proj2 (Nat.ltb_lt _ _) (Hshort _ _ Hdf)).
    apply Forall_forall. intros entry Hentry.
    by apply list_elem_of_In, in_map_iff in Hentry as (row & <- & _). }
  assert (Hinit : cash (init cfg) = initial_capital cfg /\
                  trade_log (init cfg) = [] /\
                  forall t, t ∈ tickers cfg ->
                            exists pos, portfolio (init cfg) !! t = Some pos /\
                                        shares pos = 0%Z).
  { split; [done|]. split; [done|]. intros t Ht.
    exists {| shares := 0; value := 0 |}. split; [|reflexivity].
    unfold init. cbn [portfolio]. rewrite foldl_insert_lookup.
    by rewrite decide_True. }
  destruct (foldM_Ok_inv
              (fun s0 : State =>
                 (cash s0 = initial_capital cfg /\ trade_log s0 = [] /\
                  forall t, t ∈ tickers cfg ->
                            exists pos, portfolio s0 !! t = Some pos /\
                                        shares pos = 0%Z) /\
                 Forall (fun snap => (snap.2 == initial_capital cfg)%Q)
                        (portfolio_history s0))
              (day_step cfg) (simulated_dates cfg))
    with (b := init cfg) as (st' & Hfold & (Hc & Hl & _) & Hall).
  - intros s0 d (Hs0 & Hall0) _.
    destruct (process_date_idle (strategy cfg) (fetched cfg) (tickers cfg) d
                (initial_capital cfg) s0 Hhold Hs0)
      as (s1 & v & Hd & Hs1 & Hh & Hv).
    exists s1. split; [exact Hd|]. split; [done|].
    rewrite Hh. apply Forall_app. split; [done|]. by repeat constructor.
  - split; [done|]. constructor.
  - assert (Hrun : run cfg (init cfg)
                   = Ok (st', if decide (dom (fetched cfg) = ∅) then ret_None
                              else calculate_performance_metrics cfg st')).
    { unfold run. fold (fetched cfg). unfold simulated_dates in Hfold.
      destruct (decide (dom (fetched cfg) = ∅)) as [He|Hne].
      - by injection Hfold as <-.
      - fold (day_step cfg). by rewrite Hfold. }
    eexists st', _. split; [exact Hrun|]. split; [done|]. split; [done|].
    split; [|done].
    destruct (simulation_log _ _ _ _ _ _ Hfold) as ((snaps & Hh & Hd) & _).
    simpl in Hh. by subst snaps.
Qed.

(** X20.  A trade does not change the instance's worth at the trade's price:
    cash plus the traded ticker's shares at that price is the same before
    and after; the other positions and the history are untouched. *)
Theorem trade_is_value_neutral sig p d t st st' pos :
  portfolio st !! t = Some pos ->
  execute_trade sig p d t st = Ok st' ->
  (cash st' + inject_Z (shares_of st' t) * p
     == cash st + inject_Z (shares pos) * p)%Q /\
  (forall t', t' <> t -> portfolio st' !! t' = portfolio st !! t') /\
  portfolio_history st' = portfolio_history st.
Proof.
  intros Hpos Hex.
  destruct (execute_trade_Ok _ _ _ _ _ _ _ Hpos Hex)
    as [-> | [(n & _ & _ & _ & _ & ->) | (_ & _ & ->)]].
  - split; [|done]. unfold shares_of. rewrite Hpos. simpl. reflexivity.
  - split; [|split; [|done]].
    + unfold shares_of, bought. cbn [portfolio cash].
      rewrite lookup_insert_eq. cbn. rewrite inject_Z_plus. ring.
    + intros t' Hne. unfold bought. cbn [portfolio].
      by rewrite lookup_insert_ne.
  - split; [|split; [|done]].
    + unfold shares_of, sold. cbn [portfolio cash].
      rewrite lookup_insert_eq. cbn. ring.
    + intros t' Hne. unfold sold. cbn [portfolio].
      by rewrite lookup_insert_ne.
Qed.

Lemma sharpe_of_two v0 v1 : sharpe_of (pct_change [v0; v1]) = Sharpe_zero.
Proof.
  apply sharpe_of_zero_std. left.
  unfold std_squared, pct_change. cbn [map zip_with].
  destruct (fdiv v1 v0); reflexivity.
Qed.

(** X21.  With at most two recorded snapshots the reported Sharpe ratio is
    zero: the standard deviation of fewer than two returns is not a
    number. *)
Theorem sharpe_needs_three_snapshots cfg st r h l :
  calculate_performance_metrics cfg st = ret_report r h l ->
  (length (portfolio_history st) <= 2)%nat ->
  sharpe_ratio r = Sharpe_zero.
Proof.
  intros Hrep Hlen.
  destruct (portfolio_history st) as [|[fd v0] rest] eqn:Hh.
  { by rewrite calculate_performance_metrics_empty in Hrep. }
  destruct (calculate_performance_metrics_report cfg st _ _ _ Hh)
    as (ld & fv & _ & Hrep').
  rewrite Hrep' in Hrep. injection Hrep as <- _ _. cbn [sharpe_ratio].
  rewrite Hh. destruct rest as [|[d1 v1] [|? ?]]; simpl in Hlen; [| |lia].
  - reflexivity.
  - apply sharpe_of_two.
Qed.

End BacktestMore.

(** * Properties of the data provider *)

Section ProviderFacts.
Import Provider.
Implicit Types (tb : Table) (t name : string) (tks : list string).

Lemma select_filter {A} (f : A -> bool) (xs : list A) :
  select (map f xs) xs = filter (fun x => f x = true) xs.
Proof.
  unfold select. induction xs as [|x rest IH]; [done|].
  cbn [map zip zip_with]. rewrite !filter_cons. cbn [fst].
  destruct (f x) eqn:E.
  - rewrite decide_True by done. rewrite decide_True by done.
    cbn [map snd]. by rewrite IH.
  - rewrite decide_False by done. rewrite decide_False by congruence.
    exact IH.
Qed.

Lemma in_range_spec s e d : in_range s e d = true <-> (s <= d <= e)%Z.
Proof. unfold in_range. rewrite andb_true_iff, !Z.leb_le. tauto. Qed.

(** The step of the ticker loop. *)
Lemma get_data_fold_None tb s e tks :
  foldl (add_ticker tb s e) None tks = None.
Proof. induction tks as [|t rest IH]; [done|]. exact IH. Qed.

Lemma get_data_fold tb s e tks (m0 : gmap string Table) :
  match foldl (add_ticker tb s e) (Some m0) tks with
  | Some m =>
      (forall t, t ∈ tks -> is_Some (frame_of tb s e t)) /\
      forall t, m !! t = if decide (t ∈ tks)
                         then match frame_of tb s e t with
                              | Some (Some f) => Some f
                              | _ => m0 !! t
                              end
                         else m0 !! t
  | None => exists t, t ∈ tks /\ frame_of tb s e t = None
  end.
Proof.
  revert m0. induction tks as [|t0 rest IH]; intros m0; cbn [foldl].
  - split; [intros t Ht; by apply not_elem_of_nil in Ht|].
    intros t. rewrite decide_False; [done|apply not_elem_of_nil].
  - unfold add_ticker at 2. cbn [mbind option_bind].
    destruct (frame_of tb s e t0) as [fr|] eqn:Hfr; cbn [mbind option_bind].
    + set (m1 := match fr with Some df => <[t0 := df]> m0 | None => m0 end).
      assert (Hstep : match fr with
                      | Some ticker_df => Some (<[t0:=ticker_df]> m0)
                      | None => Some m0
                      end = Some m1) by (subst m1; destruct fr; reflexivity).
      rewrite Hstep. specialize (IH m1).
      destruct (foldl _ (Some m1) rest) as [m|].
      * destruct IH as [Hall Hlook]. split.
        -- intros t Ht. apply elem_of_cons in Ht as [->|Ht]; [by rewrite Hfr|].
           by apply Hall.
        -- intros t. rewrite Hlook.
           destruct (decide (t = t0)) as [->|Hne].
           ++ rewrite (decide_True (P := t0 ∈ t0 :: rest)) by (by left).
              rewrite Hfr.
              assert (Hm1 : m1 !! t0 = match fr with
                                       | Some f => Some f
                                       | None => m0 !! t0
                                       end).
              { subst m1. destruct fr; [by rewrite lookup_insert_eq|done]. }
              rewrite Hm1. by destruct (decide (t0 ∈ rest)), fr.
           ++ assert (Hm1 : m1 !! t = m0 !! t).
              { subst m1. destruct fr; [by rewrite lookup_insert_ne|done]. }
              rewrite Hm1.
              destruct (decide (t ∈ rest)) as [Hin|Hnotin].
              ** by rewrite decide_True by (by right).
              ** rewrite decide_False; [done|]. intros Hin.
                 apply elem_of_cons in Hin as [?|?]; done.
      * destruct IH as (t & Ht & Hnone). exists t. split; [by right|done].
    + rewrite get_data_fold_None. exists t0. split; [by left|done].
Qed.

Lemma split_nonempty sep str : split sep str <> [].
Proof.
  induction str as [|c rest IH]; simpl; [done|].
  destruct (Ascii.eqb c sep); [done|]. by destruct (split sep rest).
Qed.

Lemma split_no_sep sep str :
  ~ In sep (String.list_ascii_of_string str) -> split sep str = [str].
Proof.
  induction str as [|c rest IH]; simpl; [done|]. intros Hnot.
  destruct (Ascii.eqb c sep) eqn:E.
  - apply Ascii.eqb_eq in E. tauto.
  - rewrite IH by tauto. reflexivity.
Qed.

Lemma split_app sep a rest :
  ~ In sep (String.list_ascii_of_string a) ->
  split sep (String.append a (String sep rest)) = a :: split sep rest.
Proof.
  induction a as [|c a' IH]; simpl; intros Hnot.
  - by rewrite Ascii.eqb_refl.
  - destruct (Ascii.eqb c sep) eqn:E.
    + apply Ascii.eqb_eq in E. tauto.
    + rewrite IH by tauto. reflexivity.
Qed.

Lemma string_cut sep str :
  In sep (String.list_ascii_of_string str) ->
  exists a rest, str = String.append a (String sep rest) /\
                 ~ In sep (String.list_ascii_of_string a).
Proof.
  induction str as [|c str' IH]; simpl; [done|]. intros Hin.
  destruct (Ascii.ascii_dec c sep) as [->|Hne].
  - exists EmptyString, str'. split; [reflexivity|]. simpl. tauto.
  - destruct Hin as [?|Hin]; [done|].
    destruct (IH Hin) as (a & rest & -> & Hnot).
    exists (String c a), rest. split; [done|]. simpl. tauto.
Qed.

Lemma field_name_None name :
  field_name name = None <-> ~ In underscore (String.list_ascii_of_string name).
Proof.
  unfold field_name. split.
  - intros Hnone Hin.
    destruct (string_cut _ _ Hin) as (a & rest & -> & Hnot).
    rewrite split_app in Hnone by done.
    pose proof (split_nonempty underscore rest).
    by destruct (split underscore rest).
  - intros Hnot. by rewrite split_no_sep.
Qed.

(** X26.  The name a column gets in a ticker's frame is the text between the
    first and the second underscore: of [a_b] it is [b], and of [a_b_rest]
    it is still [b]. *)
Theorem field_name_is_second_part a b rest :
  ~ In underscore (String.list_ascii_of_string a) ->
  ~ In underscore (String.list_ascii_of_string b) ->
  field_name (String.append a (String underscore b)) = Some b /\
  field_name (String.append a (String underscore
                (String.append b (String underscore rest)))) = Some b.
Proof.
  intros Ha Hb. unfold field_name. split.
  - rewrite split_app by done. by rewrite split_no_sep.
  - rewrite split_app by done. by rewrite split_app.
Qed.

Lemma frame_of_None tb s e t :
  frame_of tb s e t = None <->
  exists col, col ∈ tb_columns tb /\ startswith col.1 t = true /\
              field_name col.1 = None.
Proof.
  unfold frame_of.
  set (cols := filter (fun col => startswith col.1 t = true) (tb_columns tb)).
  assert (Hcols : forall col, col ∈ cols <->
                              startswith col.1 t = true /\ col ∈ tb_columns tb)
    by (intros col; subst cols; by rewrite list_elem_of_filter).
  split.
  - destruct cols as [|c0 cs] eqn:E; [discriminate|]. rewrite <- E in *.
    destruct (mapM _ cols) as [names|] eqn:Hm; [discriminate|]. intros _.
    apply mapM_None_1, Exists_exists in Hm as (col & Hin & Hnone).
    exists col. apply Hcols in Hin as [? ?]. done.
  - intros (col & Hin & Hstart & Hnone).
    assert (Hc : col ∈ cols) by (by apply Hcols).
    assert (Hm : mapM (fun col => field_name col.1) cols = None).
    { apply mapM_None_2, Exists_exists. by exists col. }
    destruct cols as [|c0 cs]; [by apply not_elem_of_nil in Hc|].
    by rewrite Hm.
Qed.

Lemma frame_of_skip tb s e t :
  frame_of tb s e t = Some None <->
  forall col, col ∈ tb_columns tb -> startswith col.1 t = false.
Proof.
  unfold frame_of.
  set (cols := filter (fun col => startswith col.1 t = true) (tb_columns tb)).
  assert (Hcols : forall col, col ∈ cols <->
                              startswith col.1 t = true /\ col ∈ tb_columns tb)
    by (intros col; subst cols; by rewrite list_elem_of_filter).
  split.
  - destruct cols as [|c0 cs] eqn:E.
    + intros _ col Hin. destruct (startswith col.1 t) eqn:Hs; [|done].
      assert (Hc : col ∈ []) by (by apply Hcols). by apply not_elem_of_nil in Hc.
    + rewrite <- E. destruct (mapM _ cols); discriminate.
  - intros Hall. destruct cols as [|c0 cs]; [done|].
    assert (Hc : c0 ∈ c0 :: cs) by (by left).
    apply Hcols in Hc as [Hs Hin]. rewrite (Hall _ Hin) in Hs. discriminate.
Qed.

Lemma frame_of_Some tb s e t f :
  frame_of tb s e t = Some (Some f) ->
  tb_index f = filter (fun d => in_range s e d = true) (tb_index tb) /\
  tb_columns f <> [] /\
  (exists col, col ∈ tb_columns tb /\ startswith col.1 t = true) /\
  forall col, col ∈ tb_columns tb -> startswith col.1 t = true ->
    exists fld, field_name col.1 = Some fld /\
                (fld, select (map (in_range s e) (tb_index tb)) col.2)
                ∈ tb_columns f.
Proof.
  unfold frame_of.
  set (cols := filter (fun col => startswith col.1 t = true) (tb_columns tb)).
  assert (Hcols : forall col, col ∈ cols <->
                              startswith col.1 t = true /\ col ∈ tb_columns tb)
    by (intros col; subst cols; by rewrite list_elem_of_filter).
  destruct cols as [|c0 cs] eqn:E; [discriminate|]. rewrite <- E in *.
  destruct (mapM _ cols) as [names|] eqn:Hm; [|discriminate].
  cbn. intros [= <-]. cbn [tb_index tb_columns].
  pose proof (mapM_Some_1 _ _ _ Hm) as Hall.
  pose proof (length_mapM _ _ _ Hm) as Hlen.
  split; [apply select_filter|]. split; [|split].
  - rewrite E in Hall, Hlen. destruct names as [|n ns]; [discriminate|].
    rewrite E. done.
  - exists c0. assert (Hc : c0 ∈ cols) by (rewrite E; by left).
    apply Hcols in Hc as [? ?]. done.
  - intros col Hin Hstart.
    assert (Hc : col ∈ cols) by (by apply Hcols).
    apply list_elem_of_lookup in Hc as (i & Hi).
    destruct (Forall2_lookup_l _ _ _ _ _ Hall Hi) as (fld & Hn & Hfld).
    exists fld. split; [done|].
    apply list_elem_of_lookup. exists i.
    rewrite lookup_zip_with, Hn. cbn.
    change (map (fun col0 : string * list Q =>
                   select (map (in_range s e) (tb_index tb)) col0.2) cols)
      with ((fun col0 : string * list Q =>
               select (map (in_range s e) (tb_index tb)) col0.2) <$> cols).
    by rewrite list_lookup_fmap, Hi.
Qed.

Lemma get_data_lookup tb tks s e m t :
  get_data tb tks s e = Some m ->
  m !! t = if is_empty tb then None
           else if decide (t ∈ tks)
                then match frame_of tb s e t with
                     | Some (Some f) => Some f
                     | _ => None
                     end
                else None.
Proof.
  unfold get_data. destruct (is_empty tb).
  - intros [= <-]. apply lookup_empty.
  - intros Hfold. pose proof (get_data_fold tb s e tks ∅) as H.
    rewrite Hfold in H. destruct H as [_ H]. rewrite H.
    rewrite lookup_empty. case_decide; [|done].
    by destruct (frame_of tb s e t) as [[f|]|].
Qed.

(** X22.  Every frame [get_data] returns belongs to a requested ticker that
    prefixes some column, has at least one column, and has as index the
    table's dates that lie between the start and the end date, both
    included, in the table's order. *)
Theorem get_data_frames_are_in_range tb tks s e m t f :
  get_data tb tks s e = Some m ->
  m !! t = Some f ->
  t ∈ tks /\
  (exists col, col ∈ tb_columns tb /\ startswith col.1 t = true) /\
  tb_index f = filter (fun d => in_range s e d = true) (tb_index tb) /\
  Forall (fun d => (s <= d <= e)%Z) (tb_index f) /\
  tb_columns f <> [].
Proof.
  intros Hget Hf. rewrite (get_data_lookup _ _ _ _ _ _ Hget) in Hf.
  destruct (is_empty tb); [discriminate|].
  case_decide; [|discriminate].
  destruct (frame_of tb s e t) as [[f'|]|] eqn:Hfr; try discriminate.
  injection Hf as ->.
  destruct (frame_of_Some _ _ _ _ _ Hfr) as (Hidx & Hcols & Hex & _).
  split; [done|]. split; [done|]. split; [done|]. split; [|done].
  rewrite Hidx. apply Forall_forall. intros d Hd.
  apply list_elem_of_filter in Hd as [Hd _]. by apply in_range_spec.
Qed.

(** X23.  A ticker has no entry in the result of [get_data] exactly when the
    table is empty, the ticker was not requested, or no column name starts
    with it. *)
Theorem get_data_missing_ticker_is_absent tb tks s e m t :
  get_data tb tks s e = Some m ->
  (m !! t = None <->
   is_empty tb = true \/ t ∉ tks \/
   forall col, col ∈ tb_columns tb -> startswith col.1 t = false).
Proof.
  intros Hget. rewrite (get_data_lookup _ _ _ _ _ _ Hget).
  destruct (is_empty tb) eqn:He; [by split; [left|]|].
  destruct (decide (t ∈ tks)) as [Hin|Hnotin]; [|by split; [right; left|]].
  destruct (frame_of tb s e t) as [[f|]|] eqn:Hfr.
  - split; [discriminate|]. intros [?|[?|Hall]]; [done|done|].
    apply (frame_of_skip tb s e t) in Hall. congruence.
  - split; [|done]. intros _. right; right. by apply (frame_of_skip tb s e t).
  - exfalso. unfold get_data in Hget. rewrite He in Hget.
    pose proof (get_data_fold tb s e tks ∅) as H. rewrite Hget in H.
    destruct H as [Hall _]. specialize (Hall t Hin). rewrite Hfr in Hall.
    by destruct Hall.
Qed.

(** X24.  Columns are selected by prefix alone: every column whose name
    starts with a requested ticker appears in that ticker's frame under the
    second underscore-separated part of its name, also when it belongs to
    another ticker with a longer name. *)
Theorem get_data_selects_columns_by_prefix tb tks s e m t col :
  get_data tb tks s e = Some m ->
  is_empty tb = false ->
  t ∈ tks ->
  col ∈ tb_columns tb ->
  startswith col.1 t = true ->
  exists f fld,
    m !! t = Some f /\
    field_name col.1 = Some fld /\
    (fld, select (map (in_range s e) (tb_index tb)) col.2) ∈ tb_columns f.
Proof.
  intros Hget He Hin Hcol Hstart.
  pose proof (get_data_lookup _ _ _ _ _ t Hget) as Hlook.
  rewrite He, decide_True in Hlook by done.
  destruct (frame_of tb s e t) as [[f|]|] eqn:Hfr.
  - destruct (frame_of_Some _ _ _ _ _ Hfr) as (_ & _ & _ & Hall).
    destruct (Hall col Hcol Hstart) as (fld & Hfld & Hmem).
    by exists f, fld.
  - pose proof (proj1 (frame_of_skip _ _ _ _) Hfr col Hcol). congruence.
  - exfalso. unfold get_data in Hget. rewrite He in Hget.
    pose proof (get_data_fold tb s e tks ∅) as H. rewrite Hget in H.
    destruct H as [Hall _]. specialize (Hall t Hin). rewrite Hfr in Hall.
    by destruct Hall.
Qed.

(** X25.  [get_data] raises exactly when the table is not empty and some
    requested ticker prefixes a column name without an underscore. *)
Theorem get_data_raises_on_column_without_underscore tb tks s e :
  get_data tb tks s e = None <->
  is_empty tb = false /\
  exists t col, t ∈ tks /\ col ∈ tb_columns tb /\
                startswith col.1 t = true /\
                ~ In underscore (String.list_ascii_of_string col.1).
Proof.
  unfold get_data. destruct (is_empty tb).
  { split; [discriminate|]. by intros [? _]. }
  pose proof (get_data_fold tb s e tks ∅) as H.
  destruct (foldl (add_ticker tb s e) (Some ∅) tks) as [m|].
  - destruct H as [Hall _]. split; [discriminate|].
    intros (_ & t & col & Hin & Hcol & Hstart & Hnot).
    specialize (Hall t Hin).
    assert (Hnone : frame_of tb s e t = None).
    { apply frame_of_None. exists col. by rewrite field_name_None. }
    rewrite Hnone in Hall. by destruct Hall.
  - destruct H as (t & Hin & Hnone). split; [|done]. intros _.
    split; [done|].
    apply frame_of_None in Hnone as (col & Hcol & Hstart & Hfld).
    exists t, col. by rewrite <- field_name_None.
Qed.

End ProviderFacts.

(** * Further instances *)

Section MoreWitnesses.
Import Backtest Scenario Frames Ledger Provider Cases.

Lemma distinct_dates_singleton t df :
  NoDup (index df) -> distinct_dates {[ t := df ]}.
Proof. intros Hnd. by apply map_Forall_singleton. Qed.

Lemma NoDup_dates (ds : list Z) : bool_decide (NoDup ds) = true -> NoDup ds.
Proof. apply bool_decide_eq_true_1. Qed.


Lemma first_signal_not_before_long_window_witness :
  (SimpleMA.short_window fast <= 2)%nat /\ (SimpleMA.long_window fast <= 2)%nat.
Proof.
  apply (first_signal_not_before_long_window fast zigzag 2 3%Z BUY).
  - vm_compute. reflexivity.
  - discriminate.
Defined.

Lemma generate_signals_no_look_ahead_witness :
  SimpleMA.generate_signals fast zigzag !! 2%nat
  = SimpleMA.generate_signals fast short_series !! 2%nat.
Proof.
  apply (generate_signals_no_look_ahead fast zigzag short_series 2).
  - reflexivity.
  - simpl. lia.
  - simpl. lia.
Defined.

Lemma flat_series_never_signals_witness :
  Forall (fun entry => entry.2 = HOLD) (SimpleMA.generate_signals fast flat).
Proof.
  apply (flat_series_never_signals 5%Q fast flat).
  repeat constructor.
Defined.

Lemma signals_are_strict_crossings_witness :
  exists j a b a' b',
    2%nat = S j /\
    SimpleMA.window_mean (SimpleMA.short_window fast) (Close zigzag) j = Some a /\
    SimpleMA.window_mean (SimpleMA.long_window fast) (Close zigzag) j = Some b /\
    (a < b)%Q /\
    SimpleMA.window_mean (SimpleMA.short_window fast) (Close zigzag) 2 = Some a' /\
    SimpleMA.window_mean (SimpleMA.long_window fast) (Close zigzag) 2 = Some b' /\
    (b' < a')%Q.
Proof.
  apply (proj1 (proj1 (signals_are_strict_crossings fast zigzag 2 3%Z 10%Q
                         eq_refl))).
  vm_compute. reflexivity.
Defined.

Lemma precalculated_signals_keys_witness :
  precalculate_signals (simple_ma fast) {[ "A"%string := zigzag ]} ["A"%string]
    !! "A"%string
  = Some (SimpleMA.generate_signals fast zigzag).
Proof.
  apply (proj2 (precalculated_signals_keys (simple_ma fast)
                  {[ "A"%string := zigzag ]} ["A"%string] "A"
                  (SimpleMA.generate_signals fast zigzag))).
  split.
  - apply list_elem_of_In. simpl. auto.
  - exists zigzag. split; [apply lookup_singleton_eq|].
    split; [discriminate | reflexivity].
Defined.

Lemma run_keeps_portfolio_keys_witness :
  exists st' out,
    run single (init single) = Ok (st', out) /\
    dom (portfolio st') = dom (portfolio (init single)).
Proof.
  eassert (Hrun : run single (init single) = Ok (_, _))
    by (vm_compute; reflexivity).
  eexists _, _. split; [exact Hrun|].
  exact (run_keeps_portfolio_keys _ _ _ _ Hrun).
Defined.

Lemma run_returns_when_no_close_is_zero_witness :
  exists st' out, run single (init single) = Ok (st', out).
Proof.
  apply (run_returns_when_no_close_is_zero single (init single)).
  - apply (distinct_dates_singleton "A" zigzag), NoDup_dates.
    vm_compute. reflexivity.
  - intros t Ht. apply list_elem_of_In in Ht. simpl in Ht.
    destruct Ht as [<-|[]]. vm_compute. eauto.
  - apply (close_on_rows (fun p => ~ (p == 0)%Q)).
    apply map_Forall_singleton. repeat constructor; simpl; intros H;
      vm_compute in H; discriminate H.
Defined.

Lemma run_raises_only_on_zero_close_witness :
  run zero_close (init zero_close) = Raise OverflowError /\
  exists t d p, t ∈ tickers zero_close /\ d ∈ simulated_dates zero_close /\
                close_on (fetched zero_close) t d = Some p /\ (p == 0)%Q.
Proof.
  assert (Hrun : run zero_close (init zero_close) = Raise OverflowError)
    by (vm_compute; reflexivity).
  assert (Hdd : distinct_dates (fetched zero_close)).
  { apply (distinct_dates_singleton "A" [(1%Z, 0%Q)]), NoDup_dates.
    vm_compute. reflexivity. }
  split; [exact Hrun|].
  exact (proj2 (run_raises_only_on_zero_close zero_close OverflowError
                  Hdd Hrun)).
Defined.

Lemma logged_trades_are_real_witness :
  exists st' out new,
    run single (init single) = Ok (st', out) /\
    trade_log st' = trade_log (init single) ++ new /\
    Forall (fun tr => (0 < trade_shares tr)%Z /\
                      trade_ticker tr ∈ tickers single /\
                      trade_date tr ∈ simulated_dates single /\
                      close_on (fetched single) (trade_ticker tr) (trade_date tr)
                      = Some (trade_price tr))
           new.
Proof.
  eassert (Hrun : run single (init single) = Ok (_, _))
    by (vm_compute; reflexivity).
  destruct (logged_trades_are_real _ _ _ _ Hrun) as (new & Hl & HP).
  eexists _, _, new. split; [exact Hrun|]. split; [exact Hl | exact HP].
Defined.

Lemma trade_log_explains_portfolio_witness :
  exists st' out,
    run single (init single) = Ok (st', out) /\
    (cash st' == initial_capital single + cash_flow (trade_log st'))%Q /\
    forall t, shares_of st' t = net_shares t (trade_log st').
Proof.
  eassert (Hrun : run single (init single) = Ok (_, _))
    by (vm_compute; reflexivity).
  eexists _, _. split; [exact Hrun|].
  exact (proj2 (trade_log_explains_portfolio _ _ _ _ Hrun) eq_refl).
Defined.

Lemma final_value_is_cash_plus_holdings_witness :
  exists st' out r,
    run gap (init gap) = Ok (st', out) /\
    out = ret_report r (portfolio_history st') (trade_log st') /\
    (final_portfolio_value r
       == cash st' + holdings_value (fetched gap) (tickers gap) 4 st')%Q.
Proof.
  eassert (Hrun : run gap (init gap) = Ok (_, _))
    by (vm_compute; reflexivity).
  assert (Hnd : NoDup (tickers gap)).
  { apply (bool_decide_unpack _). vm_compute. reflexivity. }
  assert (Hlast : last (simulated_dates gap) = Some 4%Z)
    by (vm_compute; reflexivity).
  destruct (final_value_is_cash_plus_holdings _ _ _ _ _ Hnd Hrun Hlast)
    as (r & Hout & Hv & _).
  eexists _, _, r. split; [exact Hrun|]. split; [exact Hout | exact Hv].
Defined.

Lemma max_drawdown_is_never_positive_witness :
  exists r q,
    calculate_performance_metrics single one_snapshot
      = ret_report r (portfolio_history one_snapshot) (trade_log one_snapshot) /\
    max_drawdown_pct r = Fin q /\ (q <= 0)%Q.
Proof.
  eassert (Hrep : calculate_performance_metrics single one_snapshot
                  = ret_report _ _ _) by reflexivity.
  assert (Hpos : Forall (fun snap => (0 < snap.2)%Q)
                        (portfolio_history one_snapshot))
    by (repeat constructor).
  destruct (max_drawdown_is_never_positive _ _ _ _ _ Hrep Hpos)
    as (q & Hq & Hle & _).
  eexists _, q. split; [exact Hrep|]. split; [exact Hq | exact Hle].
Defined.

Lemma short_history_run_is_flat_witness :
  exists st' out,
    run brief (init brief) = Ok (st', out) /\
    trade_log st' = [] /\ cash st' = initial_capital brief.
Proof.
  assert (Hdd : distinct_dates (fetched brief)).
  { apply (distinct_dates_singleton "A" [(1%Z, 10%Q)]), NoDup_dates.
    vm_compute. reflexivity. }
  destruct (short_history_run_is_flat brief fast Hdd eq_refl)
    as (st' & out & Hrun & Hl & Hc & _).
  - intros t df. unfold fetched, brief, config_of. cbn [data_provider].
    destruct (decide (t = "A"%string)) as [->|Hne].
    + rewrite lookup_singleton_eq. intros [= <-]. simpl. lia.
    + rewrite lookup_singleton_ne by done. discriminate.
  - exists st', out. split; [exact Hrun|]. split; [exact Hl | exact Hc].
Defined.

Lemma sim_dates_is_sorted_calendar_witness :
  StronglySorted Z.lt (sim_dates single {[ "A"%string := zigzag ]}).
Proof.
  assert (Hne : ({[ "A"%string := zigzag ]} : gmap string (list (Z * Q))) <> ∅)
    by apply map_non_empty_singleton.
  exact (proj1 (sim_dates_is_sorted_calendar single {[ "A"%string := zigzag ]}
                  Hne)).
Defined.

Lemma fresh_run_history_follows_calendar_witness :
  exists st' out,
    run single (init single) = Ok (st', out) /\
    map fst (portfolio_history st') = simulated_dates single.
Proof.
  eassert (Hrun : run single (init single) = Ok (_, _))
    by (vm_compute; reflexivity).
  eexists _, _. split; [exact Hrun|].
  exact (proj1 (fresh_run_history_follows_calendar _ _ _ Hrun)).
Defined.

Lemma buy_at_zero_close_raises_witness :
  visit (fetched zero_close) (signals zero_close) 1
        (init zero_close, 1000%Q) "A"
  = Raise OverflowError.
Proof.
  assert (Hdd : distinct_dates (fetched zero_close)).
  { apply (distinct_dates_singleton "A" [(1%Z, 0%Q)]), NoDup_dates.
    vm_compute. reflexivity. }
  apply (proj1 (buy_at_zero_close_raises
                  (fetched zero_close) (signals zero_close) 1
                  (init zero_close) 1000 "A" 0 empty_position
                  [(1%Z, BUY)] [] Hdd
                  ltac:(vm_compute; reflexivity) ltac:(vm_compute; reflexivity)
                  ltac:(vm_compute; reflexivity) ltac:(vm_compute; reflexivity)
                  ltac:(reflexivity) ltac:(reflexivity))).
Defined.

Lemma buy_at_negative_close_trades_nothing_witness :
  visit {[ "A"%string := [(1%Z, (-1)%Q)] ]} {[ "A"%string := [(1%Z, BUY)] ]} 1
        (init single, 1000%Q) "A"
  = Ok (revalued "A" (-1) empty_position (init single),
        (1000 + inject_Z 0 * (-1))%Q).
Proof.
  apply (buy_at_negative_close_trades_nothing
           {[ "A"%string := [(1%Z, (-1)%Q)] ]}
           {[ "A"%string := [(1%Z, BUY)] ]} 1 (init single) 1000 "A" (-1)
           empty_position [(1%Z, BUY)]);
    try (vm_compute; reflexivity).
  - apply (distinct_dates_singleton "A" [(1%Z, (-1)%Q)]), NoDup_dates.
    vm_compute. reflexivity.
  - apply Qle_bool_iff. reflexivity.
Defined.

Lemma trade_is_value_neutral_witness :
  (cash (sold 4 "A" 9 {| shares := 10; value := 0 |} holding_A)
   + inject_Z (shares_of (sold 4 "A" 9 {| shares := 10; value := 0 |} holding_A)
                         "A") * 9
   == cash holding_A + inject_Z 10 * 9)%Q.
Proof.
  apply (proj1 (trade_is_value_neutral SELL 9 4 "A" holding_A
                  (sold 4 "A" 9 {| shares := 10; value := 0 |} holding_A)
                  {| shares := 10; value := 0 |}
                  ltac:(vm_compute; reflexivity)
                  ltac:(vm_compute; reflexivity))).
Defined.

Lemma sharpe_needs_three_snapshots_witness :
  exists r,
    calculate_performance_metrics single one_snapshot
      = ret_report r (portfolio_history one_snapshot) (trade_log one_snapshot) /\
    sharpe_ratio r = Sharpe_zero.
Proof.
  eassert (Hrep : calculate_performance_metrics single one_snapshot
                  = ret_report _ _ _) by reflexivity.
  eexists. split; [exact Hrep|].
  apply (sharpe_needs_three_snapshots _ _ _ _ _ Hrep). simpl. lia.
Defined.

Lemma get_data_frames_are_in_range_witness :
  exists m f,
    get_data prices ["A"; "GME"; "ZZ"]%string 2 3 = Some m /\
    m !! "A"%string = Some f /\
    tb_index f = [2%Z; 3%Z].
Proof.
  assert (Hget : get_data prices ["A"; "GME"; "ZZ"]%string 2 3
                 = Some prices_2_3) by (vm_compute; reflexivity).
  assert (Hf : prices_2_3 !! "A"%string = Some A_2_3)
    by (vm_compute; reflexivity).
  destruct (get_data_frames_are_in_range _ _ _ _ _ _ _ Hget Hf)
    as (_ & _ & Hidx & _).
  exists prices_2_3, A_2_3. split; [exact Hget|]. split; [exact Hf|].
  rewrite Hidx. reflexivity.
Defined.

Lemma get_data_missing_ticker_is_absent_witness :
  exists m,
    get_data prices ["A"; "GME"; "ZZ"]%string 2 3 = Some m /\
    m !! "ZZ"%string = None.
Proof.
  assert (Hget : get_data prices ["A"; "GME"; "ZZ"]%string 2 3
                 = Some prices_2_3) by (vm_compute; reflexivity).
  exists prices_2_3. split; [exact Hget|].
  apply (proj2 (get_data_missing_ticker_is_absent _ _ _ _ _ "ZZ" Hget)).
  right; right. intros col Hcol.
  apply list_elem_of_In in Hcol. simpl in Hcol.
  destruct Hcol as [<-|[<-|[<-|[]]]]; reflexivity.
Defined.

Lemma get_data_selects_columns_by_prefix_witness :
  exists m f,
    get_data prices ["A"; "GME"; "ZZ"]%string 2 3 = Some m /\
    m !! "A"%string = Some f /\
    ("Close"%string, [6%Q; 7%Q]) ∈ tb_columns f.
Proof.
  assert (Hget : get_data prices ["A"; "GME"; "ZZ"]%string 2 3
                 = Some prices_2_3) by (vm_compute; reflexivity).
  destruct (get_data_selects_columns_by_prefix
              prices ["A"; "GME"; "ZZ"]%string 2 3 prices_2_3 "A"
              ("AMC_Close"%string, [5%Q; 6%Q; 7%Q; 8%Q]) Hget)
    as (f & fld & Hf & Hfld & Hmem).
  - reflexivity.
  - apply list_elem_of_In. simpl. auto.
  - apply list_elem_of_In. simpl. auto.
  - reflexivity.
  - exists prices_2_3, f. split; [exact Hget|]. split; [exact Hf|].
    vm_compute in Hfld. injection Hfld as <-. exact Hmem.
Defined.

Lemma get_data_raises_on_column_without_underscore_witness :
  get_data bare_column ["AAPL"%string] 1 1 = None.
Proof.
  apply (proj2 (get_data_raises_on_column_without_underscore
                  bare_column ["AAPL"%string] 1 1)).
  split; [reflexivity|].
  exists "AAPL"%string, ("AAPL"%string, [1%Q]).
  split; [apply list_elem_of_In; simpl; auto|].
  split; [apply list_elem_of_In; simpl; auto|].
  split; [reflexivity|].
  vm_compute. intros H. repeat destruct H as [H|H]; try discriminate H.
  exact H.
Defined.

Lemma field_name_is_second_part_witness :
  field_name "AAPL_Close" = Some "Close"%string /\
  field_name "AAPL_Close_1d" = Some "Close"%string.
Proof.
  assert (Ha : ~ In underscore (String.list_ascii_of_string "AAPL")).
  { vm_compute. intros H. repeat destruct H as [H|H]; try discriminate H.
    exact H. }
  assert (Hb : ~ In underscore (String.list_ascii_of_string "Close")).
  { vm_compute. intros H. repeat destruct H as [H|H]; try discriminate H.
    exact H. }
  exact (field_name_is_second_part "AAPL" "Close" "1d" Ha Hb).
Defined.

End MoreWitnesses.
